(** * stock_analysis: PDF graph extraction, caption compositing and vector indexing

    A shallow embedding of the Python scripts of the repository and the
    properties stated about them.  Python values are modelled as follows:
    - [str] is a list of Unicode code points ([pystr]);
    - [int] is [Z]; a measured text extent (a float) is a rational [Q];
    - exceptions are the [Raise] results of a small state-and-exception monad
      in which the state written before a [raise] is kept, as in Python;
    - the Weaviate server is a finite map from collection names to
      collections, a collection a finite map from uuids to objects.

    Part I holds the embedding, one module per source file or library
    boundary; Part II holds the lemmas and theorems. *)

From Stdlib Require Import ZArith QArith List String Ascii Lia Sorted Permutation.
From stdpp Require Import gmap strings list fin_maps pretty.

Local Open Scope Z_scope.

(* ===================================================================== *)
(** * Part I: the embedding                                               *)
(* ===================================================================== *)

(** ** Python strings: [split], [join], [strip] *)

Module PyStr.

Abbreviation pystr := (list N).

(** An ASCII literal of the source, code point by code point. *)
Definition py (s : string) : pystr :=
  map N_of_ascii (list_ascii_of_string s).

(** [str.isspace] on one code point: the Unicode white space characters. *)
Definition isspace (c : N) : bool :=
  ((9 <=? c) && (c <=? 13) || (28 <=? c) && (c <=? 32) || (c =? 133)
   || (c =? 160) || (c =? 5760) || (8192 <=? c) && (c <=? 8202)
   || (c =? 8232) || (c =? 8233) || (c =? 8239) || (c =? 8287)
   || (c =? 12288))%N.

(** [s.split()] with no argument: maximal runs of non-space characters.
    [cur] is the word being read. *)
Fixpoint split_from (cur s : pystr) : list pystr :=
  match s with
  | [] => match cur with [] => [] | _ => [cur] end
  | c :: s' =>
      if isspace c
      then match cur with
           | [] => split_from [] s'
           | _ => cur :: split_from [] s'
           end
      else split_from (cur ++ [c]) s'
  end.

Definition split (s : pystr) : list pystr := split_from [] s.

(** [sep.join(ws)] *)
Fixpoint join (sep : pystr) (ws : list pystr) : pystr :=
  match ws with
  | [] => []
  | w :: ws' => match ws' with
                | [] => w
                | _ => w ++ sep ++ join sep ws'
                end
  end.

Definition sp : pystr := py " ".

Fixpoint lstrip (s : pystr) : pystr :=
  match s with
  | c :: s' => if isspace c then lstrip s' else s
  | [] => []
  end.

Definition rstrip (s : pystr) : pystr := rev (lstrip (rev s)).
Definition strip (s : pystr) : pystr := rstrip (lstrip s).

(** [str(n)] and the format [{n:03d}] for an [int]. *)
Definition str_of_int (n : Z) : pystr := py (pretty n).

Definition format_03d (n : Z) : pystr :=
  let digits := str_of_int (Z.abs n) in
  let sign := if n <? 0 then py "-" else [] in
  let width := (3 - length sign)%nat in
  sign ++ repeat 48%N (width - length digits) ++ digits.

(** [os.path.join(a, b)] on POSIX. *)
Definition os_path_join (a b : pystr) : pystr :=
  match b with
  | 47%N :: _ => b
  | _ => match rev a with
         | [] => b
         | 47%N :: _ => a ++ b
         | _ => a ++ py "/" ++ b
         end
  end.

(** A word, as [split] yields them: not empty, no white space. *)
Definition is_word (w : pystr) : Prop :=
  w <> [] /\ Forall (fun c => isspace c = false) w.

End PyStr.
Export PyStr.

(** ** Exceptions and mutable state *)

Module Exc.

Definition exn := pystr.

Inductive result (A : Type) : Type :=
| Ok (a : A)
| Raise (e : exn).
Arguments Ok {A} a.
Arguments Raise {A} e.

(** A computation over a state [S]; the state reached when an exception is
    raised is kept, since Python does not undo the writes made before it. *)
Definition M (S A : Type) : Type := S -> result A * S.

Definition ret {S A} (a : A) : M S A := fun s => (Ok a, s).

Definition bind {S A B} (m : M S A) (k : A -> M S B) : M S B :=
  fun s => match m s with
           | (Ok a, s') => k a s'
           | (Raise e, s') => (Raise e, s')
           end.

Definition raise {S A} (e : exn) : M S A := fun s => (Raise e, s).

Definition get {S} : M S S := fun s => (Ok s, s).
Definition modify {S} (f : S -> S) : M S unit := fun s => (Ok tt, f s).

(** Lifting a call that returns or raises without touching the state. *)
Definition lift {S A} (r : result A) : M S A := fun s => (r, s).

(** [try: body except Exception as e: handler e] *)
Definition try_except {S A} (body : M S A) (handler : exn -> M S A) : M S A :=
  fun s => match body s with
           | (Ok a, s') => (Ok a, s')
           | (Raise e, s') => handler e s'
           end.

(** [try: body finally: cleanup]: the cleanup runs either way, and the
    outcome of the body stands unless the cleanup raises itself. *)
Definition try_finally {S A} (body : M S A) (cleanup : M S unit) : M S A :=
  fun s => let '(r, s') := body s in
           match cleanup s' with
           | (Ok _, s'') => (r, s'')
           | (Raise e, s'') => (Raise e, s'')
           end.

(** [for x in xs: body x]; an exception leaving [body] ends the loop. *)
Fixpoint for_each {S X} (xs : list X) (body : X -> M S unit) : M S unit :=
  match xs with
  | [] => ret tt
  | x :: xs' => bind (body x) (fun _ => for_each xs' body)
  end.

End Exc.
Export Exc.

Declare Scope py_scope.
Delimit Scope py_scope with py.
Notation "x <- m ;; k" := (bind m (fun x => k))
  (at level 200, m at level 99, k at level 200, right associativity) : py_scope.
Notation "m ;;; k" := (bind m (fun _ => k))
  (at level 200, k at level 200, right associativity) : py_scope.

(** ** text_+_image.py: [chunk_text] *)

Module Chunk.

(** One turn of [for w in words]: the word is appended to [cur]; a full
    [cur] is joined into a chunk and [cur] starts again empty. *)
Definition chunk_step (max_len : Z) (st : list pystr * list pystr) (w : pystr)
  : list pystr * list pystr :=
  let '(chunks, cur) := st in
  let cur := cur ++ [w] in
  if Z.of_nat (length cur) >=? max_len
  then (chunks ++ [join sp cur], [])
  else (chunks, cur).

Definition chunk_text (text : pystr) (max_len : Z) : list pystr :=
  let words := split text in
  let '(chunks, cur) := fold_left (chunk_step max_len) words ([], []) in
  match cur with
  | [] => chunks
  | _ => chunks ++ [join sp cur]
  end.

End Chunk.

(** ** Pillow: images, fonts and drawing *)

Module Pillow.

Definition rgb : Type := Z * Z * Z.
Definition white : rgb := (255, 255, 255).
Definition black : rgb := (0, 0, 0).

(** An image is its size and its pixels; [pixel] is read inside
    [0 <= x < width], [0 <= y < height] only. *)
Record image := { width : Z; height : Z; pixel : Z -> Z -> rgb }.

(** [Image.new('RGB', (w, h), color)]; Pillow refuses a negative size. *)
Definition Image_new (w h : Z) (color : rgb) : result image :=
  if (w <? 0) || (h <? 0)
  then Raise (py "Width and height must be >= 0")
  else Ok {| width := w; height := h; pixel := fun _ _ => color |}.

(** [dest.paste(src, (ox, oy))]: the pixels of [src] replace those of [dest]
    in the box whose upper left corner is [(ox, oy)]. *)
Definition paste (dest src : image) (ox oy : Z) : image :=
  {| width := width dest;
     height := height dest;
     pixel := fun x y =>
       if (0 <=? x - ox) && (x - ox <? width src)
          && (0 <=? y - oy) && (y - oy <? height src)
       then pixel src (x - ox) (y - oy)
       else pixel dest x y |}.

(** [img.save(..)] in the PNG format: the encoder of Pillow cannot write an
    image without pixels and raises. *)
Definition save_png (img : image) : result unit :=
  if (width img <=? 0) || (height img <=? 0)
  then Raise (py "SystemError: tile cannot extend outside image")
  else Ok tt.

(** The font machinery of Pillow (FreeType), taken as given:
    [ImageFont.truetype], [ImageFont.load_default], [draw.textlength], and
    the rasterizer behind [draw.text], which changes pixels and never the
    size of the image. *)
Record fonts (font : Type) := {
  truetype : pystr -> Z -> result font;
  load_default : font;
  textlength : font -> pystr -> Q;
  render : font -> pystr -> Z * Z -> rgb -> (Z -> Z -> rgb) -> (Z -> Z -> rgb)
}.
Arguments truetype {font} _ _ _.
Arguments load_default {font} _.
Arguments textlength {font} _ _ _.
Arguments render {font} _ _ _ _ _ _.

(** [ImageDraw.Draw(img).text(xy, text, fill=fill, font=fnt)] *)
Definition draw_text {font} (F : fonts font) (img : image) (xy : Z * Z)
    (text : pystr) (fill : rgb) (fnt : font) : image :=
  {| width := width img;
     height := height img;
     pixel := render F fnt text xy fill (pixel img) |}.

End Pillow.
Export Pillow.

(** ** The caption compositor

    image_extract.py lines 83-120 and text_image_extract.py lines 79-116
    hold the same statements; they are modelled once. *)

Module Caption.

Section Compositor.
Context {font : Type} (F : fonts font).

(** [try: font = ImageFont.truetype("arial.ttf", font_size)]
    [except: font = ImageFont.load_default()] *)
Definition load_font (font_size : Z) : font :=
  match truetype F (py "arial.ttf") font_size with
  | Ok f => f
  | Raise _ => load_default F
  end.

(** [float < int] *)
Definition float_lt (a : Q) (b : Z) : bool :=
  match (a ?= inject_Z b)%Q with
  | Lt => true
  | _ => false
  end.

(** The test of line 104 on the words of a line: the joined words are
    strictly narrower than [new_width - 40]. *)
Definition fits (fnt : font) (new_width : Z) (line : list pystr) : bool :=
  float_lt (textlength F fnt (join sp line)) (new_width - 40).

(** A line of words each of whose prefixes of two words or more passed the
    test: every word after the first was appended because it fitted. *)
Definition line_ok (fnt : font) (new_width : Z) (g : list pystr) : Prop :=
  forall p w q, g = p ++ w :: q -> p <> [] ->
                fits fnt new_width (p ++ [w]) = true.

(** Consecutive lines: the first word of the next line failed the test on
    the line before it, which is why that line was closed. *)
Definition adjacent_ok (fnt : font) (new_width : Z) (gs : list (list pystr))
  : Prop :=
  forall pre g w g' post,
    gs = pre ++ g :: (w :: g') :: post ->
    fits fnt new_width (g ++ [w]) = false.

(** One turn of [for word in words], on [(lines, current_line)]. *)
Definition wrap_step (fnt : font) (new_width : Z)
    (st : list pystr * list pystr) (word : pystr) : list pystr * list pystr :=
  let '(lines, current_line) := st in
  let test_line := join sp (current_line ++ [word]) in
  if float_lt (textlength F fnt test_line) (new_width - 40)
  then (lines, current_line ++ [word])
  else (match current_line with
        | [] => lines
        | _ => lines ++ [join sp current_line]
        end, [word]).

(** The loop and the flush of the last [current_line]. *)
Definition wrap_words (fnt : font) (new_width : Z) (words : list pystr)
  : list pystr :=
  let '(lines, current_line) :=
    fold_left (wrap_step fnt new_width) words ([], []) in
  match current_line with
  | [] => lines
  | _ => lines ++ [join sp current_line]
  end.

Definition wrap (fnt : font) (new_width : Z) (caption : pystr) : list pystr :=
  wrap_words fnt new_width (split caption).

(** [for line in lines: draw.text((20, y_offset), ...); y_offset += font_size + 5] *)
Definition draw_lines (fnt : font) (font_size : Z) (img : image)
    (lines : list pystr) : image :=
  snd (fold_left
         (fun '(y_offset, im) line =>
            (y_offset + (font_size + 5),
             draw_text F im (20, y_offset) line black fnt))
         lines (10, img)).

Definition compose_caption (pil_image : image) (caption : pystr)
    (font_size : Z) : result image :=
  let caption_height := font_size + 20 in
  let new_width := width pil_image in
  let new_height := height pil_image + caption_height in
  match Image_new new_width new_height white with
  | Raise e => Raise e
  | Ok new_img =>
      let fnt := load_font font_size in
      let lines := wrap fnt new_width caption in
      let new_img := draw_lines fnt font_size new_img lines in
      Ok (paste new_img pil_image 0 caption_height)
  end.

End Compositor.

End Caption.
Export Caption.

(** ** image_process/image_extract.py: [extract_graphs_to_single_file] *)

Module Extract.

(** How a picture item gives its image: through [get_image(doc)], through an
    [image] attribute, or not at all. *)
Inductive image_access :=
| GetImage (r : result (option image))
| ImageAttr (i : option image)
| NoImageAttr.

(** An item of [doc.iterate_items()], as far as the function reads it. *)
Record doc_item := {
  label : option pystr;
  export_to_markdown : result pystr;
  access : image_access;
  prov : option (list Z)
}.

Record graph_info := {
  index : Z;
  caption : pystr;
  image_path : pystr;
  page : option Z
}.

Inductive file :=
| Png (img : image)
| Json (records : list graph_info).

(** The local variables of the function and what it prints and writes. *)
Record state := {
  extracted : list graph_info;
  pic_index : Z;
  stdout : list pystr;
  files : list (pystr * file)
}.

Definition init : state :=
  {| extracted := []; pic_index := 0; stdout := []; files := [] |}.

Definition print (msg : pystr) : M state unit :=
  modify (fun s => {| extracted := extracted s; pic_index := pic_index s;
                      stdout := stdout s ++ [msg]; files := files s |}).

Definition write_file (path : pystr) (f : file) : M state unit :=
  modify (fun s => {| extracted := extracted s; pic_index := pic_index s;
                      stdout := stdout s; files := files s ++ [(path, f)] |}).

Definition incr_pic_index : M state unit :=
  modify (fun s => {| extracted := extracted s; pic_index := pic_index s + 1;
                      stdout := stdout s; files := files s |}).

Definition append_extracted (g : graph_info) : M state unit :=
  modify (fun s => {| extracted := extracted s ++ [g]; pic_index := pic_index s;
                      stdout := stdout s; files := files s |}).

Section Extractor.
Context {font : Type} (F : fonts font).
Variable isalnum : N -> bool.

Local Open Scope py_scope.

(** Lines 59-64: the caption, with its fall-back. *)
Definition caption_of (it : doc_item) (n : Z) : pystr :=
  match export_to_markdown it with
  | Ok md => match strip md with
             | [] => py "Graph " ++ str_of_int n
             | c => c
             end
  | Raise _ => py "Graph " ++ str_of_int n
  end.

(** Lines 67-81: the image, or [None] where the source runs [continue]. *)
Definition retrieve (it : doc_item) (n : Z) : M state (option image) :=
  try_except
    (pil_image <- lift (match access it with
                        | GetImage r => r
                        | ImageAttr i => Ok i
                        | NoImageAttr => Ok None
                        end) ;;
     match pil_image with
     | None =>
         print (py "Warning: No image found for graph " ++ str_of_int n) ;;;
         ret None
     | Some img => ret (Some img)
     end)
    (fun e =>
       print (py "Warning: Could not get image for graph " ++ str_of_int n
              ++ py ": " ++ e) ;;;
       ret None).

Definition safe_caption (c : pystr) : pystr :=
  rstrip (List.filter (fun ch => isalnum ch || bool_decide (ch ∈ py " -_")) c).

(** The body of [for item, level in doc.iterate_items()]. *)
Definition item_body (output_dir : pystr) (font_size : Z) (it : doc_item)
  : M state unit :=
  if bool_decide (label it = Some (py "picture")) then
    incr_pic_index ;;;
    s <- get ;;
    let n := pic_index s in
    let cap := caption_of it n in
    got <- retrieve it n ;;
    match got with
    | None => ret tt
    | Some pil_image =>
        new_img <- lift (compose_caption F pil_image cap font_size) ;;
        let filename :=
          format_03d n ++ py "_" ++ take 50 (safe_caption cap) ++ py ".png" in
        let path := os_path_join output_dir filename in
        lift (save_png new_img) ;;;
        write_file path (Png new_img) ;;;
        print (py "Saved graph " ++ str_of_int n ++ py " as '" ++ filename
               ++ py "' with headline: '" ++ take 50 cap ++ py "...'") ;;;
        append_extracted
          {| index := n; caption := cap; image_path := path;
             page := match prov it with
                     | Some (p :: _) => Some p
                     | _ => None
                     end |}
    end
  else ret tt.

Definition extract_graphs_to_single_file (items : list doc_item)
    (output_dir : pystr) (font_size : Z) : M state (list graph_info) :=
  for_each items (item_body output_dir font_size) ;;;
  s <- get ;;
  match extracted s with
  | [] => print (py "No graphs found in the PDF.") ;;; ret (extracted s)
  | _ =>
      let json_path := os_path_join output_dir (py "graphs_only.json") in
      write_file json_path (Json (extracted s)) ;;;
      print (py "Saved metadata for "
             ++ str_of_int (Z.of_nat (length (extracted s)))
             ++ py " graphs to '" ++ json_path ++ py "'") ;;;
      ret (extracted s)
  end.

End Extractor.

(** What the function is asked about an item, read off the item alone. *)
Definition is_picture (it : doc_item) : bool :=
  bool_decide (label it = Some (py "picture")).

(** The image lines 67-81 end up with, [None] where they run [continue]. *)
Definition image_of (it : doc_item) : option image :=
  match access it with
  | GetImage (Ok i) => i
  | GetImage (Raise _) => None
  | ImageAttr i => i
  | NoImageAttr => None
  end.

(** The sizes of a composite that [Image.new] makes and [save] can write:
    an image of its item with pixels, and a composite with pixels. *)
Definition accepted (font_size : Z) (it : doc_item) : Prop :=
  forall img, image_of it = Some img ->
              0 < width img /\ 0 < height img + (font_size + 20).

(** The ranks, counted from [n + 1] among the picture items, of the
    pictures that have an image. *)
Fixpoint picture_ranks (n : Z) (items : list doc_item) : list Z :=
  match items with
  | [] => []
  | it :: rest =>
      if is_picture it
      then match image_of it with
           | Some _ => (n + 1) :: picture_ranks (n + 1) rest
           | None => picture_ranks (n + 1) rest
           end
      else picture_ranks n rest
  end.


(** The JSON files among the files written. *)
Definition json_written (fs : list (pystr * file))
  : list (pystr * list graph_info) :=
  flat_map (fun pf => match snd pf with
                      | Json records => [(fst pf, records)]
                      | Png _ => []
                      end) fs.

End Extract.

(** ** text_image_extract.py: [extract_text_and_images_to_file] *)

Module ExtractText.

(** A picture of [doc.pictures], as far as the function reads it. *)
Record picture := {
  caption_text : result (list N);
  get_image : result (option image);
  prov : list Z
}.

(** [image_b64] stands for the PNG bytes of the composite in base 64. *)
Record image_data := {
  index : Z;
  caption : pystr;
  image_b64 : image;
  page : option Z
}.

Record extracted_data := {
  source_pdf : pystr;
  text : pystr;
  images : list image_data
}.

Record state := {
  images_data : list image_data;
  stdout : list pystr;
  files : list (pystr * extracted_data)
}.

Definition init : state := {| images_data := []; stdout := []; files := [] |}.

Definition print (msg : pystr) : M state unit :=
  modify (fun s => {| images_data := images_data s;
                      stdout := stdout s ++ [msg]; files := files s |}).

Definition append_image (d : image_data) : M state unit :=
  modify (fun s => {| images_data := images_data s ++ [d];
                      stdout := stdout s; files := files s |}).

Definition json_dump (path : pystr) (d : extracted_data) : M state unit :=
  modify (fun s => {| images_data := images_data s;
                      stdout := stdout s; files := files s ++ [(path, d)] |}).

Section Extractor.
Context {font : Type} (F : fonts font).

Local Open Scope py_scope.

(** Lines 62-130: the body of [for i, pic in enumerate(doc.pictures, 1)]. *)
Definition picture_body (pdf_path : pystr) (font_size : Z)
    (ipic : Z * picture) : M state unit :=
  let '(i, pic) := ipic in
  let cap := match caption_text pic with
             | Ok c => c
             | Raise _ => py "Graph " ++ str_of_int i
             end in
  got <- try_except
           (pil_image <- lift (get_image pic) ;;
            match pil_image with
            | None =>
                print (py "Warning: No image found for graph " ++ str_of_int i
                       ++ py " in " ++ pdf_path) ;;;
                ret None
            | Some img => ret (Some img)
            end)
           (fun e =>
              print (py "Warning: Could not get image for graph "
                     ++ str_of_int i ++ py " in " ++ pdf_path ++ py ": " ++ e) ;;;
              ret None) ;;
  match got with
  | None => ret tt
  | Some pil_image =>
      new_img <- lift (compose_caption F pil_image cap font_size) ;;
      lift (save_png new_img) ;;;
      print (py "Processed graph " ++ str_of_int i ++ py " with headline: '"
             ++ take 50 cap ++ py "...' from " ++ pdf_path) ;;;
      append_image
        {| index := i; caption := cap; image_b64 := new_img;
           page := match prov pic with
                   | p :: _ => Some p
                   | [] => None
                   end |}
  end.

(** [to_markdown] is the result of [doc.to_markdown()], [pictures] the
    attribute [doc.pictures] when the document has one, [base_name] the stem
    of the path of the PDF. *)
Definition extract_text_and_images_to_file (to_markdown : result pystr)
    (pictures : option (list picture)) (pdf_path base_name output_dir : pystr)
    (font_size : Z) : M state extracted_data :=
  let output_file :=
    os_path_join output_dir (base_name ++ py "_extracted_data.json") in
  full_text <- match to_markdown with
               | Ok t => ret t
               | Raise e =>
                   print (py "Warning: Could not extract Markdown text from "
                          ++ pdf_path ++ py ": " ++ e) ;;;
                   ret []
               end ;;
  for_each
    (match pictures with
     | Some pics => zip (map (fun k => Z.of_nat k + 1) (seq 0 (length pics))) pics
     | None => []
     end)
    (picture_body pdf_path font_size) ;;;
  s <- get ;;
  let data := {| source_pdf := pdf_path; text := full_text;
                 images := images_data s |} in
  json_dump output_file data ;;;
  print (py "Saved extracted text and "
         ++ str_of_int (Z.of_nat (length (images_data s)))
         ++ py " images from " ++ pdf_path ++ py " to '" ++ output_file
         ++ py "'") ;;;
  match images_data s with
  | [] => print (py "No images found in " ++ pdf_path ++ py ".")
  | _ => ret tt
  end ;;;
  match strip full_text with
  | [] => print (py "No text extracted from " ++ pdf_path ++ py ".")
  | _ => ret tt
  end ;;;
  ret data.

End Extractor.

End ExtractText.

(** ** test-process/main.py: [extract_graphs] *)

Module Detect.

Definition MIN_AREA : Z := 40000.
Definition MIN_WIDTH : Z := 250.
Definition MIN_HEIGHT : Z := 180.

(** A bounding rectangle [(x, y, w, h)], as [cv2.boundingRect] returns it. *)
Definition rect : Type := Z * Z * Z * Z.

Definition rect_y (r : rect) : Z := let '(_, y, _, _) := r in y.

(** [sorted(xs, key=key)].  Python's sort is stable: elements with equal keys
    keep their order.  Each element is put before the first element of the
    sorted rest whose key is not smaller. *)
Section Sorted.
Context {A : Type} (key : A -> Z).

Fixpoint insert_by (a : A) (l : list A) : list A :=
  match l with
  | [] => [a]
  | b :: l' => if key a <=? key b then a :: l else b :: insert_by a l'
  end.

Definition sorted (l : list A) : list A := fold_right insert_by [] l.

End Sorted.

(** The rectangles the thresholds let through: area at least [MIN_AREA],
    width at least [MIN_WIDTH], height at least [MIN_HEIGHT]. *)
Definition keeps (r : rect) : bool :=
  let '(_, _, w, h) := r in
  (MIN_AREA <=? w * h) && (MIN_WIDTH <=? w) && (MIN_HEIGHT <=? h).

Record saved := { out_path : pystr; crop : rect }.

Record state := {
  img_count : Z;
  written : list saved;
  stdout : list pystr
}.

Definition init : state := {| img_count := 0; written := []; stdout := [] |}.

Section Detector.
Context {contour : Type} (boundingRect : contour -> rect).

(** Lines 55-67: one contour of a page. *)
Definition contour_body (output_folder : pystr) (page_no : Z) (st : state)
    (cnt : contour) : state :=
  let '(x, y, w, h) := boundingRect cnt in
  let area := w * h in
  if (area <? MIN_AREA) || (w <? MIN_WIDTH) || (h <? MIN_HEIGHT)
  then st
  else
    let n := img_count st + 1 in
    let path :=
      os_path_join output_folder
        (py "graph_" ++ str_of_int (page_no + 1) ++ py "_" ++ str_of_int n
         ++ py ".png") in
    {| img_count := n;
       written := written st ++ [{| out_path := path; crop := (x, y, w, h) |}];
       stdout := stdout st ++ [py "[GRAPH SAVED] " ++ path] |}.

(** Lines 53-67: the contours of one page, in the order of line 53. *)
Definition page_body (output_folder : pystr) (st : state)
    (page : Z * list contour) : state :=
  let '(page_no, contours) := page in
  let contours := sorted (fun c => rect_y (boundingRect c)) contours in
  fold_left (contour_body output_folder page_no) contours st.

(** [doc] gives, page by page, the contours [cv2.findContours] returns on
    the blurred, edge-detected and dilated raster of the page; the output
    folder is emptied first. *)
Definition extract_graphs (doc : list (list contour)) (output_folder : pystr)
  : Z * state :=
  let pages := zip (map Z.of_nat (seq 0 (length doc))) doc in
  let st :=
    fold_left (page_body output_folder) pages
      {| img_count := 0; written := [];
         stdout := [py "[INFO] PDF Loaded: "
                    ++ str_of_int (Z.of_nat (length doc)) ++ py " pages"] |} in
  let st := {| img_count := img_count st; written := written st;
               stdout := stdout st ++ [py "[DONE] Total Graphs Extracted: "
                                       ++ str_of_int (img_count st)] |} in
  (img_count st, st).

(** The rectangles reported for one page. *)
Definition page_regions (contours : list contour) : list rect :=
  map crop (written (page_body [] init (0, contours))).

End Detector.

End Detect.

(** ** The Weaviate server, as the client calls of the scripts see it *)

Module Weaviate.

Definition vector : Type := list Q.

Record object := { properties : list (pystr * pystr); vec : vector }.

(** A collection is its objects under their uuids; the scripts read nothing
    else of it. *)
Record collection := {
  objects : gmap (list N) object
}.

(** [drawn] counts the random uuids handed out so far. *)
Record world := {
  server : gmap (list N) collection;
  drawn : nat
}.

Definition with_server (f : gmap (list N) collection -> gmap (list N) collection)
    (w : world) : world :=
  {| server := f (server w); drawn := drawn w |}.

Definition collections_exists (name : pystr) (w : world) : bool :=
  bool_decide (is_Some (server w !! name)).

(** [client.collections.delete(name)] *)
Definition collections_delete (name : pystr) (w : world) : world :=
  with_server (delete name) w.

(** [client.collections.create(name, ...)]: refused when the name is taken. *)
Definition collections_create (name : pystr) (w : world)
  : result pystr * world :=
  match server w !! name with
  | Some _ => (Raise (py "class already exists"), w)
  | None =>
      (Ok name,
       with_server (insert name {| objects := ∅ |}) w)
  end.

(** [client.collections.get(name).config.get()]: fails on a missing one. *)
Definition config_get (name : pystr) (w : world) : result collection * world :=
  match server w !! name with
  | Some c => (Ok c, w)
  | None => (Raise (py "collection not found"), w)
  end.

Definition put_object (name uuid : pystr) (o : object) (w : world) : world :=
  with_server
    (alter (fun c => {| objects := <[uuid := o]> (objects c) |}) name) w.

(** [batch.add_object(properties, vector, uuid)]: the client raises when it
    refuses its arguments ([refused] is the exception then); otherwise the
    object is upserted, and an error of the server is recorded by the
    client, not raised. *)
Definition batch_add_object (refused : option exn) (name : pystr)
    (props : list (pystr * pystr)) (v : vector) (uuid : pystr) (w : world)
  : result unit * world :=
  match refused with
  | Some e => (Raise e, w)
  | None => (Ok tt, put_object name uuid {| properties := props; vec := v |} w)
  end.

(** [collection.data.insert(properties, vector)] with no [uuid]: the client
    draws a random one ([uuid4 : nat -> pystr] is the random source); the
    server refuses an id that is already there. *)
Definition data_insert (uuid4 : nat -> pystr) (name : pystr)
    (props : list (pystr * pystr)) (v : vector) (w : world)
  : result pystr * world :=
  let u := uuid4 (drawn w) in
  let w := {| server := server w; drawn := S (drawn w) |} in
  match server w !! name with
  | None => (Raise (py "collection not found"), w)
  | Some c =>
      match objects c !! u with
      | Some _ => (Raise (py "id already exists"), w)
      | None => (Ok u, put_object name u {| properties := props; vec := v |} w)
      end
  end.

(** The JSON values the scripts dump. *)
Unset Elimination Schemes.
Inductive json :=
| JStr (s : list N)
| JVec (v : vector)
| JList (l : list json)
| JDict (l : list (list N * json)).
Set Elimination Schemes.

End Weaviate.
Export Weaviate.

(** ** image_process/data_store_weav.py: indexing the images of a folder *)

Module Index.

Definition IMAGE_FOLDER : pystr := py "./graphs_only".
Definition JSON_BACKUP : pystr := py "./my_image_vectors_backup.json".
Definition CLASS_NAME : pystr := py "MyLocalImages".

Definition IMAGE_SUFFIXES : list pystr :=
  [py ".jpg"; py ".jpeg"; py ".png"; py ".webp"; py ".bmp"; py ".gif"].

(** The libraries behind the script: [weaviate.util.generate_uuid5],
    [Image.open(p).convert("RGB")], [model.encode(..).tolist()], the
    exception [batch.add_object] raises on its arguments (properties, vector,
    uuid) when it refuses them, and the [name] and [suffix.lower()] of a
    path. *)
Record env (img : Type) := {
  generate_uuid5 : pystr -> pystr;
  open_rgb : pystr -> result img;
  encode : img -> result vector;
  add_refused : list (pystr * pystr) -> vector -> pystr -> option exn;
  name_of : pystr -> pystr;
  suffix_lower : pystr -> pystr
}.
Arguments generate_uuid5 {img} _ _.
Arguments open_rgb {img} _ _.
Arguments encode {img} _ _.
Arguments add_refused {img} _ _ _ _.
Arguments name_of {img} _ _.
Arguments suffix_lower {img} _ _.

Record state := {
  w : world;
  backup : list json;
  stdout : list pystr;
  files : gmap (list N) json
}.

Definition on_world (f : world -> world) : M state unit :=
  modify (fun s => {| w := f (w s); backup := backup s;
                      stdout := stdout s; files := files s |}).

Definition lift_world {A} (f : world -> result A * world) : M state A :=
  fun s => let '(r, w') := f (w s) in
           (r, {| w := w'; backup := backup s;
                  stdout := stdout s; files := files s |}).

Definition backup_append (j : json) : M state unit :=
  modify (fun s => {| w := w s; backup := backup s ++ [j];
                      stdout := stdout s; files := files s |}).

Definition print (msg : pystr) : M state unit :=
  modify (fun s => {| w := w s; backup := backup s;
                      stdout := stdout s ++ [msg]; files := files s |}).

Definition json_dump (path : pystr) (j : json) : M state unit :=
  modify (fun s => {| w := w s; backup := backup s;
                      stdout := stdout s; files := <[path := j]> (files s) |}).

Section Indexer.
Context {img : Type} (E : env img).

Local Open Scope py_scope.

(** Lines 60-84: the body of [for img_path in tqdm(image_paths)]. *)
Definition image_body (img_path : pystr) : M state unit :=
  try_except
    (image <- lift (open_rgb E img_path) ;;
     vector <- lift (encode E image) ;;
     backup_append
       (JDict [(py "filename", JStr (name_of E img_path));
               (py "path", JStr img_path);
               (py "vector", JVec vector)]) ;;;
     let props := [(py "filename", name_of E img_path);
                   (py "path", img_path)] in
     let uuid := generate_uuid5 E img_path in
     lift_world
       (batch_add_object (add_refused E props vector uuid) CLASS_NAME props
          vector uuid))
    (fun e => print (py "Failed " ++ img_path ++ py ": " ++ e)).

(** Lines 58-84. *)
Definition batch_loop (image_paths : list pystr) : M state unit :=
  for_each image_paths image_body.

(** The script, from the deletion of the old collection (line 31) to the
    last report (line 92); [folder] is what [Path(IMAGE_FOLDER).rglob]
    lists.  The fixed help text printed after [client.close()] is left out. *)
Definition index_images (folder : list pystr) : M state unit :=
  s <- get ;;
  (if collections_exists CLASS_NAME (w s)
   then
     on_world (collections_delete CLASS_NAME) ;;;
     print (py "Deleted existing collection '" ++ CLASS_NAME ++ py "'")
   else ret tt) ;;;
  _ <- lift_world (collections_create CLASS_NAME) ;;
  print (py "Created collection '" ++ CLASS_NAME ++ py "'") ;;;
  let image_paths :=
    List.filter (fun p => bool_decide (suffix_lower E p ∈ IMAGE_SUFFIXES))
      folder in
  print ([10%N] ++ py "Processing "
         ++ str_of_int (Z.of_nat (length image_paths))
         ++ py " images..." ++ [10%N]) ;;;
  batch_loop image_paths ;;;
  s <- get ;;
  json_dump JSON_BACKUP (JList (backup s)) ;;;
  print ([10%N] ++ py "Finished!") ;;;
  print (py "Indexed " ++ str_of_int (Z.of_nat (length (backup s)))
         ++ py " images into Weaviate (localhost:8080)") ;;;
  print (py "Backup JSON with all vectors " ++ [8594%N] ++ py " "
         ++ JSON_BACKUP).

(** One run of the script against the server [w0]. *)
Definition run (folder : list pystr) (w0 : world) : result unit * state :=
  index_images folder
    {| w := w0; backup := []; stdout := []; files := ∅ |}.


(** The object the body of the loop stores for a path, [None] where
    opening, encoding or adding the image raises. *)
Definition object_of (p : pystr) : option object :=
  match open_rgb E p with
  | Ok image =>
      match encode E image with
      | Ok v =>
          let props := [(py "filename", name_of E p); (py "path", p)] in
          match add_refused E props v (generate_uuid5 E p) with
          | None => Some {| properties := props; vec := v |}
          | Some _ => None
          end
      | Raise _ => None
      end
  | Raise _ => None
  end.

(** The upsert of one path on the objects of the collection. *)
Definition upsert (m : gmap (list N) object) (p : pystr)
  : gmap (list N) object :=
  match object_of p with
  | Some o => <[generate_uuid5 E p := o]> m
  | None => m
  end.

(** The ids of the objects of the collection [CLASS_NAME]. *)
Definition ids (w0 : world) : gset (list N) :=
  match server w0 !! CLASS_NAME with
  | Some c => dom (objects c)
  | None => ∅
  end.

End Indexer.

End Index.

(** ** text_+_image.py: [ensure_collection], [process_pdf] *)

Module Pipeline.

Definition VECTOR_SIZE : Z := 512.
Definition BACKUP_DIR : pystr := py "backup".
Definition NAME : pystr := py "PDFContent".

(** [uuid4] is the random source of the client, [embed_text] and
    [embed_image] the CLIP model. *)
Record env := {
  uuid4 : nat -> pystr;
  embed_text : pystr -> result vector;
  embed_image : pystr -> result vector
}.

(** What the converters yield for a PDF: the items of the Docling document
    (label, markdown export) and the number of rendered pages. *)
Record pdf := {
  doc_items : list (option (list N) * result (list N));
  pages : nat
}.

Inductive file :=
| PngPage (i : nat)
| JsonFile (j : json).

Record state := {
  w : world;
  log : list pystr;
  files : gmap (list N) file
}.

Definition on_world (f : world -> world) : M state unit :=
  modify (fun s => {| w := f (w s); log := log s; files := files s |}).

Definition lift_world {A} (f : world -> result A * world) : M state A :=
  fun s => let '(r, w') := f (w s) in
           (r, {| w := w'; log := log s; files := files s |}).

Definition logging (msg : pystr) : M state unit :=
  modify (fun s => {| w := w s; log := log s ++ [msg]; files := files s |}).

Definition save (path : pystr) (f : file) : M state unit :=
  modify (fun s => {| w := w s; log := log s;
                      files := <[path := f]> (files s) |}).

Local Open Scope py_scope.

Definition write_backup (data : json) (step_name : pystr) : M state unit :=
  let path := os_path_join BACKUP_DIR (step_name ++ py ".json") in
  save path (JsonFile data) ;;;
  logging (py "[BACKUP SAVED] " ++ path).

Definition show_dim (d : option Z) : pystr :=
  match d with
  | Some n => str_of_int n
  | None => py "None"
  end.

(** [cfg.vector_index_config.vector_size] (line 66): the configuration of
    an HNSW index, as the client returns it, has no attribute of that name,
    so the read raises. *)
Definition read_vector_size (cfg : collection) : result Z :=
  Raise (py "AttributeError: object has no attribute 'vector_size'").

(** [Configure.VectorIndex.hnsw(vector_size=.., ef_construction=..,
    max_connections=..)] (lines 87-91): [hnsw] has no keyword [vector_size],
    so the call raises while the arguments of [create] are built. *)
Definition hnsw_vector_size (vector_size ef_construction max_connections : Z)
  : result unit :=
  Raise (py "TypeError: hnsw() got an unexpected keyword argument 'vector_size'").

(** Lines 57-99.  The value returned is the handle of the collection, which
    is its name. *)
Definition ensure_collection : M state pystr :=
  try_except
    (cfg <- lift_world (config_get NAME) ;;
     existing_dim <- try_except
                       (d <- lift (read_vector_size cfg) ;; ret (Some d))
                       (fun _ => ret None) ;;
     if bool_decide (existing_dim <> Some VECTOR_SIZE)
     then
       logging (py "Vector size mismatch: " ++ show_dim existing_dim
                ++ py " != " ++ str_of_int VECTOR_SIZE) ;;;
       logging (py "Deleting old collection" ++ [8230%N]) ;;;
       on_world (collections_delete NAME) ;;;
       raise (py "Recreate")
     else ret NAME)
    (fun _ =>
       logging (py "Creating new collection with vector size 512...") ;;;
       lift (hnsw_vector_size VECTOR_SIZE 128 32) ;;;
       lift_world (collections_create NAME)).

Record docling_out := {
  headers : list pystr;
  paragraphs : list pystr;
  tables : list pystr;
  lists : list pystr;
  figures : list pystr
}.

(** Lines 120-140: one item of the document. *)
Definition docling_step (out : docling_out)
    (item : option pystr * result pystr) : docling_out :=
  let '(label, md) := item in
  match md with
  | Raise _ => out
  | Ok t =>
      match strip t with
      | [] => out
      | text =>
          let h := headers out in
          let p := paragraphs out in
          let t := tables out in
          let l := lists out in
          let f := figures out in
          if bool_decide (label = Some (py "section_header")) then
            {| headers := h ++ [text]; paragraphs := p; tables := t;
               lists := l; figures := f |}
          else if bool_decide (label = Some (py "paragraph")) then
            {| headers := h; paragraphs := p ++ [text]; tables := t;
               lists := l; figures := f |}
          else if bool_decide (label = Some (py "list_item")) then
            {| headers := h; paragraphs := p; tables := t;
               lists := l ++ [text]; figures := f |}
          else if bool_decide (label = Some (py "table")) then
            {| headers := h; paragraphs := p; tables := t ++ [text];
               lists := l; figures := f |}
          else if bool_decide (label = Some (py "picture")) then
            {| headers := h; paragraphs := p; tables := t;
               lists := l; figures := f ++ [text] |}
          else out
      end
  end.

Definition json_strs (l : list pystr) : json := JList (map JStr l).

Definition extract_docling_content (d : pdf) : M state docling_out :=
  let out :=
    fold_left docling_step (doc_items d)
      {| headers := []; paragraphs := []; tables := []; lists := [];
         figures := [] |} in
  write_backup
    (JDict [(py "headers", json_strs (headers out));
            (py "paragraphs", json_strs (paragraphs out));
            (py "tables", json_strs (tables out));
            (py "lists", json_strs (lists out));
            (py "figures", json_strs (figures out))])
    (py "step_1_docling") ;;;
  ret out.

Definition page_path (i : nat) : pystr :=
  py "images/page_" ++ str_of_int (Z.of_nat i + 1) ++ py ".png".

Definition extract_images (d : pdf) : M state (list pystr) :=
  for_each (seq 0 (pages d)) (fun i => save (page_path i) (PngPage i)) ;;;
  let paths := map page_path (seq 0 (pages d)) in
  write_backup (JDict [(py "images", json_strs paths)]) (py "step_2_images") ;;;
  ret paths.

(** [json.dumps({"path": path})]; 34 is the double quote. *)
Definition json_dumps_path (path : pystr) : pystr :=
  py "{" ++ [34%N] ++ py "path" ++ [34%N] ++ py ": " ++ [34%N] ++ path
  ++ [34%N] ++ py "}".

Section Pipeline.
Variable E : env.

(** Lines 225-240: the text chunks of the blocks, inserted one by one; the
    backup entries made so far are threaded through. *)
Fixpoint insert_chunks (collection : pystr) (ttype : pystr)
    (chunks : list pystr) (acc : list json) : M state (list json) :=
  match chunks with
  | [] => ret acc
  | ch :: rest =>
      vec <- lift (embed_text E ch) ;;
      _ <- lift_world
             (data_insert (uuid4 E) collection
                [(py "content", ch); (py "content_type", ttype);
                 (py "metadata", py "{}")] vec) ;;
      insert_chunks collection ttype rest
        (acc ++ [JDict [(py "content", JStr ch); (py "type", JStr ttype);
                        (py "vector", JVec vec)]])
  end.

Fixpoint insert_blocks (collection : pystr) (blocks : list (pystr * pystr))
    (acc : list json) : M state (list json) :=
  match blocks with
  | [] => ret acc
  | (text, ttype) :: rest =>
      acc <- insert_chunks collection ttype (Chunk.chunk_text text 300) acc ;;
      insert_blocks collection rest acc
  end.

(** Lines 247-261: the page images. *)
Fixpoint insert_images (collection : pystr) (images : list pystr)
    (acc : list json) : M state (list json) :=
  match images with
  | [] => ret acc
  | path :: rest =>
      vec <- lift (embed_image E path) ;;
      _ <- lift_world
             (data_insert (uuid4 E) collection
                [(py "content", path); (py "content_type", py "image");
                 (py "metadata", json_dumps_path path)] vec) ;;
      insert_images collection rest
        (acc ++ [JDict [(py "path", JStr path); (py "vector", JVec vec)]])
  end.

Definition process_pdf (d : pdf) : M state unit :=
  logging (py "===== START PIPELINE =====") ;;;
  collection <- ensure_collection ;;
  extracted <- extract_docling_content d ;;
  images <- extract_images d ;;
  let blocks :=
    map (fun t => (t, py "header")) (headers extracted)
    ++ map (fun t => (t, py "paragraph")) (paragraphs extracted)
    ++ map (fun t => (t, py "list")) (lists extracted)
    ++ map (fun t => (t, py "table")) (tables extracted) in
  chunk_backup <- insert_blocks collection blocks [] ;;
  write_backup (JList chunk_backup) (py "step_3_chunks") ;;;
  img_backup <- insert_images collection images [] ;;
  write_backup (JList img_backup) (py "step_4_image_vectors") ;;;
  write_backup
    (JDict [(py "chunks", JList chunk_backup); (py "images", JList img_backup)])
    (py "step_final") ;;;
  logging (py "===== PIPELINE COMPLETE =====").

(** One run of the script against the server [w0]. *)
Definition run (d : pdf) (w0 : world) : result unit * state :=
  process_pdf d {| w := w0; log := []; files := ∅ |}.

(** The ids of the objects of the collection [NAME]. *)
Definition ids (w0 : world) : gset (list N) :=
  match server w0 !! NAME with
  | Some c => dom (objects c)
  | None => ∅
  end.

End Pipeline.

End Pipeline.

(** ** test-process/text.py: [store_in_weaviate] *)

Module TextStore.

Definition CLASS_NAME : pystr := py "ParagraphChunk".

Record state := {
  w : world;
  stdout : list pystr
}.

Definition lift_world {A} (f : world -> result A * world) : M state A :=
  fun s => let '(r, w') := f (w s) in (r, {| w := w'; stdout := stdout s |}).

Definition print (msg : pystr) : M state unit :=
  modify (fun s => {| w := w s; stdout := stdout s ++ [msg] |}).

Section Store.
(** The random source of the client. *)
Variable uuid4 : nat -> pystr.

Local Open Scope py_scope.

(** Lines 120-125: the body of
    [for idx, (text, vector) in enumerate(zip(chunks, embeddings), start=1)]. *)
Definition chunk_body (total : nat) (x : Z * (pystr * vector))
  : M state unit :=
  let '(idx, (text, vector)) := x in
  _ <- lift_world (data_insert uuid4 CLASS_NAME [(py "text", text)] vector) ;;
  print (py "Inserted chunk " ++ str_of_int idx ++ py "/"
         ++ str_of_int (Z.of_nat total)).

(** Lines 88-131; 11088 is the star of the closing message. *)
Definition store_in_weaviate (chunks : list pystr) (embeddings : list vector)
  : M state unit :=
  try_finally
    (s <- get ;;
     (if collections_exists CLASS_NAME (w s)
      then print (py "Class already exists: " ++ CLASS_NAME)
      else
        _ <- lift_world (collections_create CLASS_NAME) ;;
        print (py "Created class: " ++ CLASS_NAME)) ;;;
     let pairs := zip chunks embeddings in
     for_each
       (zip (map (fun k => Z.of_nat k + 1) (seq 0 (length pairs))) pairs)
       (chunk_body (length chunks)) ;;;
     print ([10%N; 11088%N] ++ py " All embeddings stored in Weaviate!"))
    (print (py "Weaviate client closed.")).

(** One run of the script against the server [w0]. *)
Definition run (chunks : list pystr) (embeddings : list vector) (w0 : world)
  : result unit * state :=
  store_in_weaviate chunks embeddings {| w := w0; stdout := [] |}.

(** The ids of the objects of the collection [CLASS_NAME]. *)
Definition ids (w0 : world) : gset (list N) :=
  match server w0 !! CLASS_NAME with
  | Some c => dom (objects c)
  | None => ∅
  end.


End Store.

End TextStore.

(** ** Concrete inputs for the examples *)

Module Sample.

(** A fixed-pitch block font: a font is its size, a character is half as
    wide as it is high, and drawing a text fills its box. *)
Definition block_font : fonts Z := {|
  truetype := fun _ size =>
    if size <=? 0 then Raise (py "font size must be greater than 0")
    else Ok size;
  load_default := 10;
  textlength := fun size s => (size * Z.of_nat (length s)) # 2;
  render := fun size s xy fill px x y =>
    if (fst xy <=? x) && (2 * (x - fst xy) <? size * Z.of_nat (length s))
       && (snd xy <=? y) && (y - snd xy <? size)
    then fill else px x y
|}.

(** A region of 300 by 200 pixels with a gradient. *)
Definition region : image :=
  {| width := 300; height := 200; pixel := fun x y => (x, y, 0) |}.

(** Picture items: one with its image and a caption, one whose
    [get_image] raises, one whose markdown export raises; and a paragraph. *)
Definition picture_ok : Extract.doc_item :=
  {| Extract.label := Some (py "picture");
     Extract.export_to_markdown := Ok (py "  Revenue by quarter ");
     Extract.access := Extract.GetImage (Ok (Some region));
     Extract.prov := Some [3] |}.

Definition picture_broken : Extract.doc_item :=
  {| Extract.label := Some (py "picture");
     Extract.export_to_markdown := Ok (py "Margins");
     Extract.access := Extract.GetImage (Raise (py "cannot crop"));
     Extract.prov := Some [4] |}.

Definition picture_untitled : Extract.doc_item :=
  {| Extract.label := Some (py "picture");
     Extract.export_to_markdown := Raise (py "no export");
     Extract.access := Extract.ImageAttr (Some region);
     Extract.prov := None |}.

(** A picture of 300 by 400 pixels. *)
Definition picture_tall : Extract.doc_item :=
  {| Extract.label := Some (py "picture");
     Extract.export_to_markdown := Ok (py "Shareholding");
     Extract.access :=
       Extract.GetImage
         (Ok (Some {| width := 300; height := 400;
                      pixel := fun x y => (0, x, y) |}));
     Extract.prov := Some [5] |}.

(** The pictures of a document: one with caption and image, one without
    image, one whose caption is empty. *)
Definition pictures : list ExtractText.picture :=
  [{| ExtractText.caption_text := Ok (py "Net profit by year");
      ExtractText.get_image := Ok (Some region);
      ExtractText.prov := [2] |};
   {| ExtractText.caption_text := Raise (py "no caption");
      ExtractText.get_image := Ok None;
      ExtractText.prov := [] |};
   {| ExtractText.caption_text := Ok [];
      ExtractText.get_image := Ok (Some region);
      ExtractText.prov := [] |}].

Definition paragraph : Extract.doc_item :=
  {| Extract.label := Some (py "paragraph");
     Extract.export_to_markdown := Ok (py "Outlook");
     Extract.access := Extract.NoImageAttr;
     Extract.prov := Some [4] |}.


Definition folder : list pystr :=
  [py "graphs_only/001_a.png"; py "graphs_only/broken.png";
   py "graphs_only/graphs_only.json"; py "graphs_only/003_c.png"].

(** A pipeline environment whose random uuids are all different. *)
Definition pipeline_env : Pipeline.env := {|
  Pipeline.uuid4 := fun n => py "uuid4-" ++ str_of_int (Z.of_nat n);
  Pipeline.embed_text := fun t => Ok [inject_Z (Z.of_nat (length t)); 1%Q];
  Pipeline.embed_image := fun p => Ok [inject_Z (Z.of_nat (length p)); 2%Q]
|}.

Definition empty_world : world := {| server := ∅; drawn := 0 |}.

(** A server holding [PDFContent], with one object. *)
Definition old_world : world :=
  {| server :=
       {[ Pipeline.NAME :=
            {| objects := {[ py "old" := {| properties := []; vec := [] |} ]} |} ]};
     drawn := 7 |}.

(** [str.isalnum] on ASCII letters and digits. *)
Definition ascii_alnum (c : N) : bool :=
  ((48 <=? c) && (c <=? 57) || (65 <=? c) && (c <=? 90)
   || (97 <=? c) && (c <=? 122))%N.

End Sample.

(** ** Further definitions for the statements of Part III *)

Module Numeral.

(** The code points of the decimal digits. *)
Definition is_digit (c : N) : Prop := (48 <= c <= 57)%N.

End Numeral.
Export Numeral.

Module DetectNames.

(** [enumerate(l, start=n)] *)
Fixpoint number_from {A : Type} (n : Z) (l : list A) : list (Z * A) :=
  match l with
  | [] => []
  | a :: l' => (n, a) :: number_from (n + 1) l'
  end.

(** The path of the file of a region (main.py, line 65). *)
Definition region_path (output_folder : pystr) (page_no n : Z) : pystr :=
  os_path_join output_folder
    (py "graph_" ++ str_of_int (page_no + 1) ++ py "_" ++ str_of_int n
     ++ py ".png").

(** The regions of the pages of a document, each with the number of its
    page, counted from [k]. *)
Fixpoint tagged_regions {contour : Type} (boundingRect : contour -> Detect.rect)
    (k : nat) (doc : list (list contour)) : list (Z * Detect.rect) :=
  match doc with
  | [] => []
  | cs :: doc' =>
      map (pair (Z.of_nat k)) (Detect.page_regions boundingRect cs)
      ++ tagged_regions boundingRect (S k) doc'
  end.

(** The entry written for the [n]-th region, found on page [page_no]. *)
Definition saved_as (output_folder : pystr) (e : Z * (Z * Detect.rect))
  : Detect.saved :=
  {| Detect.out_path := region_path output_folder (fst (snd e)) (fst e);
     Detect.crop := snd (snd e) |}.

End DetectNames.
Export DetectNames.

Module ExtractNames.

(** The path of the PNG of a record (image_extract.py, lines 123-125). *)
Definition png_path (isalnum : N -> bool) (output_dir : pystr) (n : Z)
    (cap : pystr) : pystr :=
  os_path_join output_dir
    (format_03d n ++ py "_" ++ take 50 (Extract.safe_caption isalnum cap)
     ++ py ".png").

(** The paths of the files written, and those that hold a PNG. *)
Definition is_png (pf : pystr * Extract.file) : bool :=
  match snd pf with
  | Extract.Png _ => true
  | Extract.Json _ => false
  end.

(** The picture items that have an image. *)
Definition has_image (it : Extract.doc_item) : bool :=
  Extract.is_picture it
  && match Extract.image_of it with Some _ => true | None => false end.

(** The picture items that have an image, each with its rank counted from
    [n + 1] among all picture items. *)
Fixpoint ranked_images (n : Z) (items : list Extract.doc_item)
  : list (Z * Extract.doc_item) :=
  match items with
  | [] => []
  | it :: rest =>
      if Extract.is_picture it
      then match Extract.image_of it with
           | Some _ => (n + 1, it) :: ranked_images (n + 1) rest
           | None => ranked_images (n + 1) rest
           end
      else ranked_images n rest
  end.

(** A document: a picture with caption and image, a paragraph, a picture
    whose image cannot be had, a picture whose markdown export raises. *)
Definition sample_items : list Extract.doc_item :=
  [Sample.picture_ok; Sample.paragraph; Sample.picture_broken;
   Sample.picture_untitled].

End ExtractNames.
Export ExtractNames.


(** ** text_image_extract.py, read off the pictures *)

Module ExtractTextRecords.

(** Lines 63-66: the caption of the picture at position [i]. *)
Definition caption_at (i : Z) (pic : ExtractText.picture) : pystr :=
  match ExtractText.caption_text pic with
  | Ok c => c
  | Raise _ => py "Graph " ++ str_of_int i
  end.

(** Lines 69-77: the image of a picture, [None] where the loop runs
    [continue]. *)
Definition image_at (pic : ExtractText.picture) : option image :=
  match ExtractText.get_image pic with
  | Ok i => i
  | Raise _ => None
  end.

Definition gives_image (ipic : Z * ExtractText.picture) : bool :=
  match image_at (snd ipic) with Some _ => true | None => false end.

(** The sizes of a composite that [Image.new] makes and [save] can write:
    an image of the picture with pixels, and a composite with pixels. *)
Definition picture_accepted (font_size : Z) (pic : ExtractText.picture)
  : Prop :=
  forall img, image_at pic = Some img ->
              0 < width img /\ 0 < height img + (font_size + 20).

(** [doc.pictures] when the document has a list of pictures that is not
    empty, as line 60 asks. *)
Definition pictures_of (pictures : option (list ExtractText.picture))
  : list ExtractText.picture :=
  match pictures with Some pics => pics | None => [] end.

End ExtractTextRecords.
Export ExtractTextRecords.


(** ** data_store_weav.py, read off the folder *)

Module IndexBackup.

Section Backup.
Context {img : Type} (E : Index.env img).

(** Line 52: the files of the folder that the script takes for images. *)
Definition image_paths (folder : list pystr) : list pystr :=
  List.filter
    (fun p => bool_decide (Index.suffix_lower E p ∈ Index.IMAGE_SUFFIXES))
    folder.


End Backup.

End IndexBackup.
Export IndexBackup.

(* ===================================================================== *)
(** * Part II: properties                                                 *)
(* ===================================================================== *)

(** ** [split] and [join] *)

Lemma sp_eq : sp = [32%N].
Proof. reflexivity. Qed.

Lemma split_from_word (w : pystr) :
  Forall (fun c => isspace c = false) w ->
  forall cur rest, split_from cur (w ++ rest) = split_from (cur ++ w) rest.
Proof.
  induction 1 as [|c w Hc _ IH]; intros cur rest; simpl.
  - now rewrite app_nil_r.
  - rewrite Hc, IH, <- app_assoc. reflexivity.
Qed.

Lemma split_from_words (s : pystr) :
  forall cur, Forall (fun c => isspace c = false) cur ->
  Forall is_word (split_from cur s).
Proof.
  induction s as [|c s IH]; intros cur Hcur; simpl.
  - destruct cur as [|a cur]; constructor; [|constructor].
    split; [discriminate | exact Hcur].
  - destruct (isspace c) eqn:Hc.
    + destruct cur as [|a cur]; [apply IH; constructor|].
      constructor; [split; [discriminate | exact Hcur] | apply IH; constructor].
    + apply IH. apply Forall_app. split; [exact Hcur | repeat constructor; exact Hc].
Qed.

Lemma split_words (s : pystr) : Forall is_word (split s).
Proof. apply split_from_words. constructor. Qed.

Lemma split_join (ws : list pystr) :
  Forall is_word ws -> split (join sp ws) = ws.
Proof.
  unfold split. induction 1 as [|w ws [Hne Hw] Hws IH]; [reflexivity|].
  destruct ws as [|w' ws].
  - simpl. rewrite <- (app_nil_r w) at 1. rewrite (split_from_word w Hw).
    simpl. destruct w; [contradiction | reflexivity].
  - change (join sp (w :: w' :: ws)) with (w ++ sp ++ join sp (w' :: ws)).
    rewrite (split_from_word w Hw), sp_eq. simpl app at 1.
    change (split_from w ([32%N] ++ join [32%N] (w' :: ws)))
      with (match w with
            | [] => split_from [] (join [32%N] (w' :: ws))
            | _ => w :: split_from [] (join [32%N] (w' :: ws))
            end).
    rewrite sp_eq in IH. rewrite IH. destruct w; [contradiction | reflexivity].
Qed.




Lemma Forall_concat_inv {A} (P : A -> Prop) (groups : list (list A)) :
  Forall P (concat groups) -> Forall (Forall P) groups.
Proof.
  induction groups as [|g gs IH]; simpl; intros H; constructor.
  - apply Forall_app in H. tauto.
  - apply IH. apply Forall_app in H. tauto.
Qed.

(** Splitting the joined groups of a word list gives the groups back. *)
Lemma map_split_join (groups : list (list pystr)) :
  Forall is_word (concat groups) ->
  map split (map (join sp) groups) = groups.
Proof.
  intros H. apply Forall_concat_inv in H.
  induction H as [|g gs Hg _ IH]; [reflexivity|].
  simpl. now rewrite split_join, IH.
Qed.

(** [split] goes through a separator made of white space. *)
Lemma split_from_spaces (sep : pystr) :
  Forall (fun c => isspace c = true) sep ->
  forall rest, split_from [] (sep ++ rest) = split_from [] rest.
Proof.
  induction 1 as [|c sep Hc _ IH]; intros rest; simpl; [reflexivity|].
  now rewrite Hc, IH.
Qed.

Lemma split_sep_app (sep : pystr) :
  sep <> [] -> Forall (fun c => isspace c = true) sep ->
  forall a cur b, split_from cur (a ++ sep ++ b) = split_from cur a ++ split b.
Proof.
  intros Hne Hsep. induction a as [|c a IH]; intros cur b.
  - destruct sep as [|c sep]; [contradiction|].
    apply Forall_cons in Hsep. destruct Hsep as [Hc Hsep].
    simpl. rewrite Hc. unfold split.
    destruct cur; simpl; now rewrite (split_from_spaces sep Hsep).
  - simpl. destruct (isspace c).
    + destruct cur; simpl; now rewrite IH.
    + apply IH.
Qed.

Lemma split_join_lines (sep : pystr) (ls : list pystr) :
  sep <> [] -> Forall (fun c => isspace c = true) sep ->
  split (join sep ls) = concat (map split ls).
Proof.
  intros Hne Hsep. induction ls as [|l ls IH]; [reflexivity|].
  destruct ls as [|l' ls].
  - simpl. now rewrite app_nil_r.
  - change (join sep (l :: l' :: ls)) with (l ++ sep ++ join sep (l' :: ls)).
    unfold split at 1. rewrite (split_sep_app sep Hne Hsep), IH. reflexivity.
Qed.

(** ** [chunk_text] *)

Section ChunkFacts.
Import Chunk.
Variable max_len : Z.
Hypothesis max_len_pos : 1 <= max_len.

(** The loop invariant: the chunks closed so far are groups of exactly
    [max_len] words, and [cur] is shorter than that. *)
Lemma chunk_loop_inv (words : list pystr) :
  exists groups cur,
    fold_left (chunk_step max_len) words ([], []) = (map (join sp) groups, cur)
    /\ concat groups ++ cur = words
    /\ Forall (fun g => Z.of_nat (length g) = max_len) groups
    /\ Z.of_nat (length cur) < max_len.
Proof using max_len_pos.
  induction words as [|w words IH] using rev_ind.
  - exists [], []. simpl. repeat split; [constructor | lia].
  - destruct IH as (groups & cur & Hfold & Hcat & Hfull & Hcur).
    rewrite fold_left_app, Hfold. simpl. unfold chunk_step.
    destruct (Z.of_nat (length (cur ++ [w])) >=? max_len) eqn:Hge;
      rewrite Z.geb_leb, length_app in Hge; simpl in Hge;
      [apply Z.leb_le in Hge | apply Z.leb_gt in Hge].
    + exists (groups ++ [cur ++ [w]]), []. repeat split.
      * now rewrite map_app.
      * rewrite concat_app. simpl. rewrite !app_nil_r, app_assoc.
        now rewrite Hcat.
      * apply Forall_app. split; [exact Hfull|]. repeat constructor.
        rewrite length_app. simpl. lia.
      * simpl. lia.
    + exists groups, (cur ++ [w]). repeat split.
      * rewrite app_assoc. now rewrite Hcat.
      * exact Hfull.
      * rewrite length_app. simpl. lia.
Qed.

(** The chunks are the joined groups of a cut of the words into groups of
    [max_len] words, the last one possibly shorter. *)
Lemma chunk_text_groups (text : pystr) :
  exists full last,
    chunk_text text max_len = map (join sp) (full ++ last)
    /\ concat (full ++ last) = split text
    /\ Forall (fun g => Z.of_nat (length g) = max_len) full
    /\ (last = [] \/ exists g, last = [g] /\ g <> []
                               /\ Z.of_nat (length g) < max_len).
Proof using max_len_pos.
  unfold chunk_text.
  destruct (chunk_loop_inv (split text))
    as (groups & cur & Hfold & Hcat & Hfull & Hcur).
  rewrite Hfold. destruct cur as [|w cur].
  - exists groups, []. rewrite !app_nil_r in *. repeat split; auto.
  - exists groups, [w :: cur]. repeat split.
    + now rewrite map_app.
    + rewrite concat_app. simpl. now rewrite app_nil_r.
    + exact Hfull.
    + right. exists (w :: cur). repeat split; [discriminate | exact Hcur].
Qed.

End ChunkFacts.

(** C9.  For every text and every [max_len >= 1], every chunk of
    [chunk_text] has at most [max_len] words, every chunk but the last has
    exactly [max_len] words, the words of the chunks in order are the words of
    the text, and a text without words gives no chunk. *)
Theorem chunk_text_spec (text : pystr) (max_len : Z) :
  1 <= max_len ->
  let chunks := Chunk.chunk_text text max_len in
  Forall (fun c => Z.of_nat (length (split c)) <= max_len) chunks
  /\ (forall front last, chunks = front ++ [last] ->
      Forall (fun c => Z.of_nat (length (split c)) = max_len) front)
  /\ concat (map split chunks) = split text
  /\ (split text = [] -> chunks = [])
  /\ Chunk.chunk_text [] max_len = [].
Proof.
  intros Hpos chunks.
  destruct (chunk_text_groups max_len Hpos text)
    as (full & last & Hch & Hcat & Hfull & Hlast).
  fold chunks in Hch.
  assert (Hw : Forall is_word (concat (full ++ last)))
    by (rewrite Hcat; apply split_words).
  assert (Hsplit : map split chunks = full ++ last)
    by (rewrite Hch; now apply map_split_join).
  assert (Hlen : forall P : nat -> Prop,
             Forall (fun g => P (length g)) (map split chunks) ->
             Forall (fun c => P (length (split c))) chunks).
  { intros P. rewrite Forall_map. auto. }
  repeat split.
  - apply (Hlen (fun n => Z.of_nat n <= max_len)). rewrite Hsplit.
    apply Forall_app. split.
    + eapply Forall_impl; [exact Hfull|]. simpl. intros; lia.
    + destruct Hlast as [->|(g & -> & _ & Hg)]; repeat constructor. lia.
  - intros front lst Hfront.
    assert (Hf : map split front ++ [split lst] = full ++ last)
      by (rewrite <- Hsplit, Hfront, map_app; reflexivity).
    apply (Forall_map split (fun g => Z.of_nat (length g) = max_len)).
    destruct Hlast as [->|(g & -> & _ & _)].
    + rewrite app_nil_r in Hf. rewrite <- Hf in Hfull.
      apply Forall_app in Hfull. tauto.
    + apply app_inj_tail in Hf. destruct Hf as [-> _]. exact Hfull.
  - now rewrite Hsplit.
  - intros Hnil. rewrite Hnil in Hcat.
    assert (Hfl : full ++ last = []).
    { destruct Hlast as [->|(g & -> & Hg & _)].
      - rewrite app_nil_r in *. destruct full as [|g full]; [reflexivity|].
        apply Forall_cons in Hfull. destruct Hfull as [Hg _]. simpl in Hcat.
        destruct g; [simpl in Hg; lia | discriminate].
      - rewrite concat_app in Hcat. simpl in Hcat.
        apply app_eq_nil in Hcat. destruct Hcat as [_ Hcat].
        rewrite app_nil_r in Hcat. contradiction. }
    rewrite Hch, Hfl. reflexivity.
Qed.

(** Instance of [chunk_text_spec]: five words cut by two. *)
Lemma chunk_text_spec_witness :
  1 <= 2 /\
  Chunk.chunk_text (py "a b  c d e") 2 = [py "a b"; py "c d"; py "e"] /\
  concat (map split (Chunk.chunk_text (py "a b  c d e") 2))
  = split (py "a b  c d e").
Proof.
  split; [lia|]. split; [vm_compute; reflexivity|].
  apply (chunk_text_spec (py "a b  c d e") 2). lia.
Defined.

(** ** The word wrap of the caption *)

Section WrapFacts.
Context {font : Type} (F : fonts font) (fnt : font) (new_width : Z).

Local Abbreviation fit := (fits F fnt new_width).
Local Abbreviation step := (wrap_step F fnt new_width).
Local Abbreviation line_ok := (line_ok F fnt new_width).
Local Abbreviation adjacent_ok := (adjacent_ok F fnt new_width).

Lemma wrap_step_eq (lines cur : list pystr) (w : pystr) :
  step (lines, cur) w =
  if fit (cur ++ [w]) then (lines, cur ++ [w])
  else (match cur with [] => lines | _ => lines ++ [join sp cur] end, [w]).
Proof. reflexivity. Qed.

Lemma line_ok_single (w : pystr) : line_ok [w].
Proof.
  intros p w0 q Heq Hp. destruct p as [|a p]; [contradiction|].
  destruct p; discriminate.
Qed.

Lemma line_ok_nil : line_ok [].
Proof. intros p w q Heq _. destruct p; discriminate. Qed.

Lemma line_ok_snoc (cur : list pystr) (w : pystr) :
  line_ok cur -> fit (cur ++ [w]) = true -> line_ok (cur ++ [w]).
Proof.
  intros Hcur Hfit p w0 q Heq Hp.
  destruct q as [|x q _] using rev_ind.
  - apply app_inj_tail in Heq. destruct Heq as [-> ->]. exact Hfit.
  - rewrite app_comm_cons, app_assoc in Heq.
    apply app_inj_tail in Heq. destruct Heq as [Heq _].
    exact (Hcur p w0 q Heq Hp).
Qed.

Lemma adjacent_ok_snoc (gs : list (list pystr)) (c : list pystr) :
  adjacent_ok gs ->
  (forall pre g w c', gs = pre ++ [g] -> c = w :: c' -> fit (g ++ [w]) = false) ->
  adjacent_ok (gs ++ [c]).
Proof.
  intros Hgs Hlast pre g w g' post Heq.
  destruct post as [|x post _] using rev_ind.
  - change (pre ++ [g; w :: g']) with (pre ++ [g] ++ [w :: g']) in Heq.
    rewrite app_assoc in Heq. apply app_inj_tail in Heq.
    destruct Heq as [Hpre Hc]. exact (Hlast pre g w g' Hpre Hc).
  - rewrite !app_comm_cons, app_assoc in Heq.
    apply app_inj_tail in Heq. destruct Heq as [Heq _].
    exact (Hgs pre g w g' post Heq).
Qed.

(** The invariant of the loop: [groups] are the words of the closed lines. *)
Lemma wrap_loop_inv (words : list pystr) :
  exists groups cur,
    fold_left step words ([], []) = (map (join sp) groups, cur)
    /\ concat groups ++ cur = words
    /\ Forall (fun g => g <> []) groups
    /\ Forall line_ok groups /\ line_ok cur
    /\ adjacent_ok groups
    /\ (forall pre g w c', groups = pre ++ [g] -> cur = w :: c' ->
        fit (g ++ [w]) = false)
    /\ (cur = [] -> groups = []).
Proof.
  induction words as [|w words IH] using rev_ind.
  - exists [], []. split_and!; try constructor; try apply line_ok_nil.
    + intros pre g w g' post Heq. destruct pre; discriminate.
    + intros pre g w c' Heq. destruct pre; discriminate.
  - destruct IH as (groups & cur & Hfold & Hcat & Hne & Hok & Hcur & Hadj
                    & Hlast & Hnil).
    rewrite fold_left_app, Hfold. cbn [fold_left]. rewrite wrap_step_eq.
    destruct (fit (cur ++ [w])) eqn:Hfit.
    + exists groups, (cur ++ [w]). split_and!; auto.
      * rewrite app_assoc. now rewrite Hcat.
      * now apply line_ok_snoc.
      * intros pre g w0 c' Hpre Hc. destruct cur as [|a cur].
        -- rewrite (Hnil eq_refl) in Hpre. destruct pre; discriminate.
        -- injection Hc as -> _. exact (Hlast pre g w0 cur Hpre eq_refl).
      * intros Heq. destruct cur; discriminate.
    + destruct cur as [|a cur].
      * pose proof (Hnil eq_refl) as Hg. subst groups.
        exists [], [w]. simpl in Hcat. subst words. split_and!; auto.
        -- apply line_ok_single.
        -- intros pre g w0 c' Hpre. destruct pre; discriminate.
      * exists (groups ++ [a :: cur]), [w]. split_and!.
        -- now rewrite map_app.
        -- rewrite concat_app. simpl. rewrite app_nil_r, <- Hcat.
           now rewrite <- !app_assoc.
        -- apply Forall_app. split; [exact Hne | repeat constructor; discriminate].
        -- apply Forall_app. split; [exact Hok | repeat constructor; exact Hcur].
        -- apply line_ok_single.
        -- now apply adjacent_ok_snoc.
        -- intros pre g w0 c' Hpre Hc. apply app_inj_tail in Hpre.
           destruct Hpre as [_ <-]. injection Hc as <- _. exact Hfit.
        -- discriminate.
Qed.

(** The lines are the joined groups of a cut of the words, each group built
    and closed by the greedy rule. *)
Lemma wrap_words_groups (words : list pystr) :
  exists groups,
    wrap_words F fnt new_width words = map (join sp) groups
    /\ concat groups = words
    /\ Forall (fun g => g <> []) groups
    /\ Forall line_ok groups
    /\ adjacent_ok groups.
Proof.
  unfold wrap_words.
  destruct (wrap_loop_inv words)
    as (groups & cur & Hfold & Hcat & Hne & Hok & Hcur & Hadj & Hlast & _).
  rewrite Hfold. destruct cur as [|a cur].
  - exists groups. rewrite app_nil_r in Hcat. split_and!; auto.
  - exists (groups ++ [a :: cur]). split_and!.
    + now rewrite map_app.
    + rewrite concat_app. simpl. now rewrite app_nil_r.
    + apply Forall_app. split; [exact Hne | repeat constructor; discriminate].
    + apply Forall_app. split; [exact Hok | repeat constructor; exact Hcur].
    + now apply adjacent_ok_snoc.
Qed.

Lemma line_ok_fits_or_single (g : list pystr) :
  line_ok g -> g <> [] -> fit g = true \/ exists w, g = [w].
Proof.
  intros Hok Hne. destruct g as [|w g _] using rev_ind; [contradiction|].
  destruct g as [|a g].
  - right. exists w. reflexivity.
  - left. apply (Hok (a :: g) w []); [reflexivity | discriminate].
Qed.

(** Where a line holding an over-wide word is over-wide itself, as with
    every font whose texts are at least as wide as their words, an
    over-wide word is alone on its line. *)
Lemma overwide_alone (g : list pystr) :
  (forall l w, In w l -> fit [w] = false -> fit l = false) ->
  line_ok g -> g <> [] ->
  forall w, In w g -> fit [w] = false -> g = [w].
Proof.
  intros Hmono Hok Hne w Hin Hw.
  destruct (line_ok_fits_or_single g Hok Hne) as [Hfit|[w' ->]].
  - rewrite (Hmono g w Hin Hw) in Hfit. discriminate.
  - destruct Hin as [->|[]]. reflexivity.
Qed.

End WrapFacts.

Lemma float_lt_spec (a : Q) (b : Z) :
  float_lt a b = true <-> (a < inject_Z b)%Q.
Proof.
  unfold float_lt. rewrite Qlt_alt.
  destruct (a ?= inject_Z b)%Q; split; congruence.
Qed.

(** C7.  The wrap is greedy.  Word by word: the word joins the current line
    exactly when the line extended with it measures strictly less than
    [new_width - 40]; otherwise the current line, if it has words, is closed
    and the word starts the next one.  On the result: the lines cut the words
    into non-empty groups, each word after the first of a line passed the test,
    the first word of the next line failed it, and a line that does not pass
    the test is a single word; a single word is a line whatever its width, and
    with a font whose texts are at least as wide as their words an over-wide
    word is alone on its line. *)
Theorem wrap_greedy {font : Type} (F : fonts font) (fnt : font)
    (new_width : Z) (words : list pystr) :
  (forall w,
     fold_left (wrap_step F fnt new_width) (words ++ [w]) ([], []) =
     let '(lines, cur) :=
       fold_left (wrap_step F fnt new_width) words ([], []) in
     if fits F fnt new_width (cur ++ [w])
     then (lines, cur ++ [w])
     else (match cur with [] => lines | _ => lines ++ [join sp cur] end, [w]))
  /\ (forall line,
        fits F fnt new_width line = true <->
        (textlength F fnt (join sp line) < inject_Z (new_width - 40))%Q)
  /\ (exists groups,
        wrap_words F fnt new_width words = map (join sp) groups
        /\ concat groups = words
        /\ Forall (fun g => g <> []) groups
        /\ Forall (line_ok F fnt new_width) groups
        /\ adjacent_ok F fnt new_width groups
        /\ Forall (fun g => fits F fnt new_width g = true \/ exists w, g = [w])
             groups
        /\ ((forall l w, In w l -> fits F fnt new_width [w] = false ->
                         fits F fnt new_width l = false) ->
            Forall (fun g => forall w, In w g ->
                                       fits F fnt new_width [w] = false ->
                                       g = [w]) groups))
  /\ (forall w, wrap_words F fnt new_width [w] = [w]).
Proof.
  split_and!.
  - intros w. rewrite fold_left_app.
    destruct (fold_left (wrap_step F fnt new_width) words ([], []))
      as [lines cur].
    reflexivity.
  - intros line. apply float_lt_spec.
  - destruct (wrap_words_groups F fnt new_width words)
      as (groups & Hlines & Hcat & Hne & Hok & Hadj).
    exists groups. split_and!; auto.
    + clear Hlines Hcat Hadj. induction groups as [|g groups IH]; constructor.
      * apply Forall_cons in Hne, Hok.
        apply line_ok_fits_or_single; tauto.
      * apply Forall_cons in Hne, Hok. apply IH; tauto.
    + intros Hmono. clear Hlines Hcat Hadj.
      induction groups as [|g groups IH]; constructor.
      * apply Forall_cons in Hne, Hok.
        apply overwide_alone; tauto.
      * apply Forall_cons in Hne, Hok. apply IH; tauto.
  - intros w. unfold wrap_words. simpl. unfold wrap_step. simpl.
    destruct (float_lt _ _); reflexivity.
Qed.

Lemma length_join_ge (sep : pystr) (l : list pystr) (w : pystr) :
  In w l -> (length w <= length (join sep l))%nat.
Proof.
  induction l as [|a l IH]; intros Hin; [destruct Hin|].
  destruct l as [|b l].
  - destruct Hin as [->|[]]. simpl. lia.
  - change (join sep (a :: b :: l)) with (a ++ sep ++ join sep (b :: l)).
    rewrite !length_app. destruct Hin as [->|Hin]; [lia|].
    specialize (IH Hin). lia.
Qed.

(** The block font in a size that is not negative measures a line at least
    as wide as each of its words. *)
Lemma block_font_monotone (size new_width : Z) (l : list pystr) (w : pystr) :
  0 <= size -> In w l ->
  fits Sample.block_font size new_width [w] = false ->
  fits Sample.block_font size new_width l = false.
Proof.
  intros Hsize Hin Hw. pose proof (length_join_ge sp l w Hin) as Hlen.
  destruct (fits Sample.block_font size new_width l) eqn:Hl; [|reflexivity].
  apply float_lt_spec in Hl.
  assert (Hnw : ~ (textlength Sample.block_font size (join sp [w])
                   < inject_Z (new_width - 40))%Q).
  { intros H. apply float_lt_spec in H. unfold fits in Hw. congruence. }
  exfalso. apply Hnw. clear Hnw Hw.
  unfold Qlt in *. cbn in *. nia.
Qed.

(** Instance of [wrap_greedy]: a caption in size 24 on an image 300 pixels
    wide, with a word wider than the image. *)
Lemma wrap_greedy_witness :
  wrap Sample.block_font 24 300
    (py "Revenue by quarter for the fiscal year Supercalifragilisticexpialidocious end")
  = [py "Revenue by quarter"; py "for the fiscal year";
     py "Supercalifragilisticexpialidocious"; py "end"]
  /\ fits Sample.block_font 24 300 [py "Supercalifragilisticexpialidocious"]
     = false
  /\ exists groups,
       wrap Sample.block_font 24 300
         (py "Revenue by quarter for the fiscal year Supercalifragilisticexpialidocious end")
       = map (join sp) groups
       /\ Forall (fun g => forall w, In w g ->
                    fits Sample.block_font 24 300 [w] = false -> g = [w])
            groups.
Proof.
  split; [vm_compute; reflexivity|]. split; [vm_compute; reflexivity|].
  destruct (wrap_greedy Sample.block_font 24 300
              (split (py "Revenue by quarter for the fiscal year Supercalifragilisticexpialidocious end")))
    as (_ & _ & (groups & Hlines & _ & _ & _ & _ & _ & Halone) & _).
  exists groups. split; [exact Hlines|].
  apply Halone. intros l w. apply block_font_monotone. lia.
Defined.

(** C8, as the code has it.  The wrap loses and duplicates no text: for
    every caption and every measure of width, the words of the lines, line
    after line, are the words of the caption, and so are the words of the
    lines joined by a space or by a line feed. *)
Theorem wrap_keeps_words {font : Type} (F : fonts font) (fnt : font)
    (new_width : Z) (caption : pystr) :
  let lines := wrap F fnt new_width caption in
  concat (map split lines) = split caption
  /\ split (join sp lines) = split caption
  /\ split (join [10%N] lines) = split caption.
Proof.
  intros lines. subst lines. unfold wrap.
  destruct (wrap_words_groups F fnt new_width (split caption))
    as (groups & Hlines & Hcat & Hne & _).
  assert (Hwords : concat (map split (wrap_words F fnt new_width (split caption)))
                   = split caption).
  { rewrite Hlines, map_split_join; [exact Hcat|].
    rewrite Hcat. apply split_words. }
  split_and!.
  - exact Hwords.
  - rewrite split_join_lines; [exact Hwords | discriminate |].
    repeat constructor.
  - rewrite split_join_lines; [exact Hwords | discriminate |].
    repeat constructor.
Qed.

(** The claim C8 fails as it is worded.  A caption of two words that wraps
    gives two lines of one word; concatenated, the lines are one word. *)
Lemma wrap_concat_merges_words :
  wrap Sample.block_font 24 30 (py "ab cd") = [py "ab"; py "cd"]
  /\ split (concat (wrap Sample.block_font 24 30 (py "ab cd")))
     <> split (py "ab cd").
Proof. split; [vm_compute; reflexivity | vm_compute; discriminate]. Qed.

(** ** The composite image *)

Lemma draw_lines_size {font : Type} (F : fonts font) (fnt : font)
    (font_size : Z) (lines : list pystr) (img : image) :
  width (draw_lines F fnt font_size img lines) = width img
  /\ height (draw_lines F fnt font_size img lines) = height img.
Proof.
  unfold draw_lines. generalize 10 as y_offset. revert img.
  induction lines as [|line lines IH]; intros img y_offset; [now split|].
  cbn [fold_left]. destruct (IH (draw_text F img (20, y_offset) line black fnt)
                               (y_offset + (font_size + 5))) as [Hw Hh].
  rewrite Hw, Hh. now split.
Qed.

Lemma compose_caption_ok {font : Type} (F : fonts font)
    (region : image) (caption : pystr) (font_size : Z) (img : image) :
  compose_caption F region caption font_size = Ok img ->
  width img = width region
  /\ height img = height region + (font_size + 20)
  /\ (forall x y, 0 <= x < width region -> 0 <= y < height region ->
      pixel img x (y + (font_size + 20)) = pixel region x y).
Proof.
  unfold compose_caption, Image_new.
  destruct ((width region <? 0) || (height region + (font_size + 20) <? 0));
    [discriminate|].
  intros Himg. injection Himg as <-.
  match goal with
  | |- context [draw_lines F ?f ?s ?i ?l] =>
      destruct (draw_lines_size F f s l i) as [Hdw Hdh]
  end.
  split_and!.
  - cbn [paste width]. rewrite Hdw. reflexivity.
  - cbn [paste height]. rewrite Hdh. reflexivity.
  - intros x y Hx Hy. cbn [paste pixel].
    replace (y + (font_size + 20) - (font_size + 20)) with y by lia.
    replace (x - 0) with x by lia.
    destruct (0 <=? x) eqn:H1; [|apply Z.leb_gt in H1; lia].
    destruct (x <? width region) eqn:H2; [|apply Z.ltb_ge in H2; lia].
    destruct (0 <=? y) eqn:H3; [|apply Z.leb_gt in H3; lia].
    destruct (y <? height region) eqn:H4; [|apply Z.ltb_ge in H4; lia].
    reflexivity.
Qed.

Lemma compose_caption_made {font : Type} (F : fonts font)
    (region : image) (caption : pystr) (font_size : Z) :
  0 <= width region -> 0 <= height region + (font_size + 20) ->
  exists img, compose_caption F region caption font_size = Ok img.
Proof.
  intros Hw Hh. unfold compose_caption, Image_new.
  destruct (width region <? 0) eqn:Hw0; [apply Z.ltb_lt in Hw0; lia|].
  destruct (height region + (font_size + 20) <? 0) eqn:Hh0;
    [apply Z.ltb_lt in Hh0; lia|].
  cbn [orb]. eexists. reflexivity.
Qed.

(** C6.  For every region image and every caption, empty or not, the
    composite that the compositor produces is as wide as the region, higher
    by [font_size + 20], and shows the pixels of the region unchanged from the
    row [font_size + 20] on; and it is produced as soon as [Image.new] is
    given a size that is not negative. *)
Theorem compose_caption_size {font : Type} (F : fonts font)
    (region : image) (caption : pystr) (font_size : Z) :
  (forall img,
     compose_caption F region caption font_size = Ok img ->
     width img = width region
     /\ height img = height region + (font_size + 20)
     /\ (forall x y, 0 <= x < width region -> 0 <= y < height region ->
         pixel img x (y + (font_size + 20)) = pixel region x y))
  /\ (0 <= width region -> 0 <= height region + (font_size + 20) ->
      exists img, compose_caption F region caption font_size = Ok img).
Proof.
  split.
  - intros img. apply compose_caption_ok.
  - apply compose_caption_made.
Qed.

(** Instance of [compose_caption_size]: a region of 300 by 200 pixels under a
    caption in size 24 gives a composite of 300 by 244 pixels. *)
Lemma compose_caption_size_witness :
  0 <= width Sample.region
  /\ 0 <= height Sample.region + (24 + 20)
  /\ exists img,
       compose_caption Sample.block_font Sample.region
         (py "Revenue by quarter") 24 = Ok img
       /\ width img = 300 /\ height img = 244
       /\ pixel img 7 (5 + 44) = (7, 5, 0).
Proof.
  assert (H1 : 0 <= width Sample.region) by (simpl; lia).
  assert (H2 : 0 <= height Sample.region + (24 + 20)) by (simpl; lia).
  split; [exact H1|]. split; [exact H2|].
  destruct (compose_caption_size Sample.block_font Sample.region
              (py "Revenue by quarter") 24) as [Hsize Hmade].
  destruct (Hmade H1 H2) as [img Himg].
  destruct (Hsize img Himg) as (Hw & Hh & Hpx).
  exists img. split_and!; [exact Himg | exact Hw | exact Hh |].
  apply (Hpx 7 5); simpl; lia.
Defined.

(** In text_image_extract.py too a record holds the composite of the
    image of its picture, under the caption of the picture. *)
Lemma picture_body_composite {font : Type} (F : fonts font)
    (pdf_path : pystr) (font_size i : Z) (pic : ExtractText.picture)
    (s s' : ExtractText.state) :
  ExtractText.picture_body F pdf_path font_size (i, pic) s = (Ok tt, s') ->
  ExtractText.images_data s' = ExtractText.images_data s
  \/ exists region cap new_img pg,
       ExtractText.get_image pic = Ok (Some region)
       /\ compose_caption F region cap font_size = Ok new_img
       /\ width new_img = width region
       /\ height new_img = height region + (font_size + 20)
       /\ ExtractText.images_data s'
          = ExtractText.images_data s
            ++ [{| ExtractText.index := i; ExtractText.caption := cap;
                   ExtractText.image_b64 := new_img;
                   ExtractText.page := pg |}].
Proof.
  unfold ExtractText.picture_body, try_except, bind, lift, ret,
    ExtractText.print, ExtractText.append_image, modify.
  destruct (ExtractText.get_image pic) as [[region|]|e]; cbn.
  - match goal with
    | |- context [compose_caption F region ?c font_size] =>
        destruct (compose_caption F region c font_size)
          as [new_img|e] eqn:Hnew
    end; [|discriminate].
    cbn. destruct (save_png new_img) as [[]|e]; [|discriminate].
    intros Hrun. injection Hrun as <-. right. cbn.
    destruct (compose_caption_ok F region _ font_size new_img Hnew)
      as (Hw & Hh & _).
    eexists _, _, _, _. split_and!; [reflexivity | exact Hnew | exact Hw
                                    | exact Hh | reflexivity].
  - intros Hrun. injection Hrun as <-. now left.
  - intros Hrun. injection Hrun as <-. now left.
Qed.

Example extract_text_and_images_sample :
  let r := ExtractText.extract_text_and_images_to_file Sample.block_font
             (Ok (py "Results")) (Some Sample.pictures) (py "in/sample1.pdf")
             (py "sample1") (py "in") 24 ExtractText.init in
  map (fun d => (ExtractText.index d, ExtractText.caption d,
                 width (ExtractText.image_b64 d),
                 height (ExtractText.image_b64 d)))
    (ExtractText.images_data (snd r))
  = [(1, py "Net profit by year", 300, 244); (3, [], 300, 244)].
Proof. vm_compute. reflexivity. Qed.

(** ** [sorted]: a stable sort *)

Section SortedFacts.
Context {A : Type} (key : A -> Z).

Local Abbreviation le_key := (fun a b : A => key a <= key b).
Local Abbreviation insert_by := (Detect.insert_by key).
Local Abbreviation sorted := (Detect.sorted key).

Lemma insert_by_head (a : A) (l : list A) :
  Forall (fun b => key a <= key b) l -> insert_by a l = a :: l.
Proof.
  destruct 1 as [|b l Hb _]; [reflexivity|]. simpl.
  destruct (key a <=? key b) eqn:Hle; [reflexivity|].
  apply Z.leb_gt in Hle. lia.
Qed.

Lemma insert_by_perm (a : A) (l : list A) : Permutation (insert_by a l) (a :: l).
Proof.
  induction l as [|b l IH]; simpl; [reflexivity|].
  destruct (key a <=? key b); [reflexivity|].
  rewrite IH. apply perm_swap.
Qed.

Lemma sorted_perm (l : list A) : Permutation (sorted l) l.
Proof.
  induction l as [|a l IH]; simpl; [reflexivity|].
  rewrite insert_by_perm. now constructor.
Qed.

Lemma insert_by_sorted (a : A) (l : list A) :
  StronglySorted le_key l -> StronglySorted le_key (insert_by a l).
Proof.
  induction 1 as [|b l Hl IH Hb]; simpl.
  - repeat constructor.
  - destruct (key a <=? key b) eqn:Hle.
    + apply Z.leb_le in Hle. constructor; [now constructor|].
      constructor; [exact Hle|].
      eapply Forall_impl; [exact Hb|]. simpl. intros; lia.
    + apply Z.leb_gt in Hle. constructor; [exact IH|].
      rewrite insert_by_perm. constructor; [lia | exact Hb].
Qed.

Lemma sorted_sorted (l : list A) : StronglySorted le_key (sorted l).
Proof.
  induction l as [|a l IH]; simpl; [constructor | now apply insert_by_sorted].
Qed.

Lemma filter_insert_by (p : A -> bool) (a : A) (l : list A) :
  StronglySorted le_key l ->
  List.filter p (insert_by a l) =
  if p a then insert_by a (List.filter p l) else List.filter p l.
Proof.
  induction 1 as [|b l Hl IH Hb]; simpl.
  - destruct (p a); reflexivity.
  - destruct (key a <=? key b) eqn:Hle.
    + apply Z.leb_le in Hle.
      assert (Hall : Forall (fun c => key a <= key c) (List.filter p (b :: l))).
      { apply List.Forall_forall. intros c Hc. apply List.filter_In in Hc.
        destruct Hc as [[<-|Hc] _]; [exact Hle|].
        rewrite List.Forall_forall in Hb. specialize (Hb c Hc). simpl in Hb. lia. }
      simpl in Hall |- *. destruct (p a); [|reflexivity].
      now rewrite insert_by_head.
    + simpl. rewrite IH. destruct (p b), (p a); simpl; try reflexivity.
      now rewrite Hle.
Qed.

(** Filtering the sorted list or sorting the filtered list: the same list. *)
Lemma filter_sorted (p : A -> bool) (l : list A) :
  List.filter p (sorted l) = sorted (List.filter p l).
Proof.
  induction l as [|a l IH]; [reflexivity|]. simpl.
  rewrite filter_insert_by by apply sorted_sorted.
  rewrite IH. destruct (p a); reflexivity.
Qed.

Lemma sorted_same_key (k : Z) (l : list A) :
  Forall (fun a => key a = k) l -> sorted l = l.
Proof.
  induction 1 as [|a l Ha Hl IH]; [reflexivity|]. simpl. rewrite IH.
  apply insert_by_head. eapply Forall_impl; [exact Hl|]. simpl. intros; lia.
Qed.

(** Stability: the elements of one key keep their order. *)
Lemma sorted_stable (k : Z) (l : list A) :
  List.filter (fun a => key a =? k) (sorted l)
  = List.filter (fun a => key a =? k) l.
Proof.
  rewrite filter_sorted. apply (sorted_same_key k).
  apply List.Forall_forall. intros a Ha. apply List.filter_In in Ha.
  destruct Ha as [_ Ha]. now apply Z.eqb_eq.
Qed.

End SortedFacts.

(** ** The region detector *)

Section DetectFacts.
Import Detect.
Context {contour : Type} (boundingRect : contour -> rect).

Local Abbreviation key := (fun c : contour => rect_y (boundingRect c)).
Local Abbreviation keep := (fun c : contour => keeps (boundingRect c)).

Lemma keeps_spec (x y w h : Z) :
  keeps (x, y, w, h) = true <-> 40000 <= w * h /\ 250 <= w /\ 180 <= h.
Proof.
  unfold keeps, MIN_AREA, MIN_WIDTH, MIN_HEIGHT.
  rewrite !andb_true_iff, !Z.leb_le. tauto.
Qed.

(** The test of line 59 is the negation of [keeps]. *)
Lemma rejected_keeps (x y w h : Z) :
  (w * h <? MIN_AREA) || (w <? MIN_WIDTH) || (h <? MIN_HEIGHT)
  = negb (keeps (x, y, w, h)).
Proof.
  unfold keeps. rewrite !negb_andb, !Z.leb_antisym, !negb_involutive.
  reflexivity.
Qed.

Lemma contour_body_eq (out : pystr) (page_no : Z) (st : state) (c : contour) :
  contour_body boundingRect out page_no st c =
  if keeps (boundingRect c)
  then
    let n := img_count st + 1 in
    let path :=
      os_path_join out
        (py "graph_" ++ str_of_int (page_no + 1) ++ py "_" ++ str_of_int n
         ++ py ".png") in
    {| img_count := n;
       written := written st ++ [{| out_path := path; crop := boundingRect c |}];
       stdout := stdout st ++ [py "[GRAPH SAVED] " ++ path] |}
  else st.
Proof.
  unfold contour_body. destruct (boundingRect c) as [[[x y] w] h].
  rewrite (rejected_keeps x y w h). destruct (keeps (x, y, w, h)); reflexivity.
Qed.

Lemma contours_fold (out : pystr) (page_no : Z) (cs : list contour) :
  forall st,
    let st' := fold_left (contour_body boundingRect out page_no) cs st in
    map crop (written st')
    = map crop (written st) ++ map boundingRect (List.filter keep cs)
    /\ img_count st'
       = img_count st + Z.of_nat (length (List.filter keep cs)).
Proof.
  induction cs as [|c cs IH]; intros st; simpl.
  - rewrite app_nil_r. split; [reflexivity | lia].
  - destruct (IH (contour_body boundingRect out page_no st c)) as [Hw Hn].
    rewrite Hw, Hn, contour_body_eq.
    destruct (keeps (boundingRect c)); simpl.
    + rewrite map_app, <- app_assoc. simpl. split; [reflexivity | lia].
    + split; [reflexivity | lia].
Qed.

Lemma page_body_eq (out : pystr) (st : state) (page_no : Z)
    (cs : list contour) :
  map crop (written (page_body boundingRect out st (page_no, cs)))
  = map crop (written st) ++ map boundingRect (List.filter keep (sorted key cs))
  /\ img_count (page_body boundingRect out st (page_no, cs))
     = img_count st + Z.of_nat (length (List.filter keep cs)).
Proof.
  unfold page_body.
  destruct (contours_fold out page_no (sorted key cs) st) as [Hw Hn].
  split; [exact Hw|]. rewrite Hn. do 2 f_equal.
  apply Permutation_length. rewrite filter_sorted. apply sorted_perm.
Qed.

Lemma page_regions_eq (cs : list contour) :
  page_regions boundingRect cs
  = map boundingRect (List.filter keep (sorted key cs)).
Proof.
  unfold page_regions.
  destruct (page_body_eq [] init 0 cs) as [Hw _]. exact Hw.
Qed.

Lemma filter_perm (p : contour -> bool) (l l' : list contour) :
  Permutation l l' -> Permutation (List.filter p l) (List.filter p l').
Proof.
  induction 1 as [|a l l' _ IH|a b l|l l' l'' _ IH1 _ IH2]; simpl.
  - constructor.
  - destruct (p a); [now constructor | exact IH].
  - destruct (p a), (p b); try reflexivity. apply perm_swap.
  - now rewrite IH1.
Qed.

Lemma sorted_map_key (l : list contour) :
  StronglySorted (fun r1 r2 => rect_y r1 <= rect_y r2)
    (map boundingRect (sorted key l)).
Proof.
  pose proof (sorted_sorted key l) as H.
  induction H as [|c l' _ IH Hc]; simpl; constructor; [exact IH|].
  rewrite List.Forall_map. exact Hc.
Qed.

(** The regions of a whole document are those of its pages, page after
    page, and the count returned is their number. *)
Lemma pages_fold (out : pystr) (doc : list (list contour)) :
  forall k st,
    let st' := fold_left (page_body boundingRect out)
                 (zip (map Z.of_nat (seq k (length doc))) doc) st in
    map crop (written st')
    = map crop (written st) ++ concat (map (page_regions boundingRect) doc)
    /\ img_count st'
       = img_count st
         + Z.of_nat (length (concat (map (page_regions boundingRect) doc))).
Proof.
  induction doc as [|cs doc IH]; intros k st;
    cbn [length seq map zip_with fold_left concat].
  - rewrite app_nil_r. simpl. split; [reflexivity | lia].
  - destruct (IH (S k) (page_body boundingRect out st (Z.of_nat k, cs)))
      as [Hw Hn].
    destruct (page_body_eq out st (Z.of_nat k) cs) as [Hw1 Hn1].
    rewrite Hw, Hn, Hw1, Hn1, page_regions_eq, <- app_assoc.
    split; [reflexivity|].
    rewrite length_app, length_map.
    assert (Hlen : length (List.filter keep (sorted key cs))
                   = length (List.filter keep cs)).
    { apply Permutation_length. rewrite filter_sorted. apply sorted_perm. }
    rewrite Hlen. lia.
Qed.

End DetectFacts.

(** C2.  Whatever the order of the contours of a page, its regions come out
    by ascending top edge: the code sorts all contours by the y of their
    bounding rectangle and then filters, which gives the list that filtering
    first and sorting the survivors gives; a page whose contours are
    reordered yields the same regions, again in ascending order. *)
Theorem regions_in_reading_order {contour : Type}
    (boundingRect : contour -> Detect.rect) (contours : list contour) :
  let key := fun c => Detect.rect_y (boundingRect c) in
  let keep := fun c => Detect.keeps (boundingRect c) in
  let ascending := StronglySorted (fun r1 r2 => Detect.rect_y r1 <= Detect.rect_y r2) in
  Detect.page_regions boundingRect contours
  = map boundingRect (List.filter keep (Detect.sorted key contours))
  /\ List.filter keep (Detect.sorted key contours)
     = Detect.sorted key (List.filter keep contours)
  /\ ascending (Detect.page_regions boundingRect contours)
  /\ (forall contours', Permutation contours contours' ->
      ascending (Detect.page_regions boundingRect contours')
      /\ Permutation (Detect.page_regions boundingRect contours')
           (Detect.page_regions boundingRect contours)).
Proof.
  intros key keep ascending.
  assert (Hasc : forall cs, ascending (Detect.page_regions boundingRect cs)).
  { intros cs. unfold ascending.
    rewrite page_regions_eq, filter_sorted. apply sorted_map_key. }
  split_and!.
  - apply page_regions_eq.
  - apply filter_sorted.
  - apply Hasc.
  - intros cs' Hperm. split; [apply Hasc|].
    rewrite !page_regions_eq, !filter_sorted. apply Permutation_map.
    rewrite !sorted_perm. apply filter_perm. now symmetry.
Qed.

(** Instance of [regions_in_reading_order]: two rectangles given lower one
    first, or upper one first, come out upper one first. *)
Lemma regions_in_reading_order_witness :
  Permutation [(0, 900, 300, 200); (0, 100, 300, 200)]
    [(0, 100, 300, 200); (0, 900, 300, 200)]
  /\ Detect.page_regions id [(0, 900, 300, 200); (0, 100, 300, 200)]
     = [(0, 100, 300, 200); (0, 900, 300, 200)]
  /\ Permutation
       (Detect.page_regions id [(0, 100, 300, 200); (0, 900, 300, 200)])
       (Detect.page_regions id [(0, 900, 300, 200); (0, 100, 300, 200)]).
Proof.
  assert (H : Permutation [(0, 900, 300, 200); (0, 100, 300, 200)]
                [(0, 100, 300, 200); (0, 900, 300, 200)])
    by apply perm_swap.
  split; [exact H|]. split; [vm_compute; reflexivity|].
  destruct (regions_in_reading_order id
              [(0, 900, 300, 200); (0, 100, 300, 200)])
    as (_ & _ & _ & Hany).
  exact (proj2 (Hany _ H)).
Defined.

(** C3.  A bounding rectangle is kept exactly when its area is at least
    40000, its width at least 250 and its height at least 180; a contour
    adds its own rectangle to the output, or nothing, whatever was reported
    before it; the regions of a page are the rectangles that pass, each as
    often as it occurs, and the regions of a document are those of its
    pages, counted by the value returned. *)
Theorem region_filter {contour : Type} (boundingRect : contour -> Detect.rect)
    (contours : list contour) (doc : list (list contour))
    (output_folder : pystr) :
  (forall x y w h,
     Detect.keeps (x, y, w, h) = true
     <-> 40000 <= w * h /\ 250 <= w /\ 180 <= h)
  /\ (forall page_no st c,
        map Detect.crop
          (Detect.written
             (Detect.contour_body boundingRect output_folder page_no st c))
        = map Detect.crop (Detect.written st)
          ++ (if Detect.keeps (boundingRect c) then [boundingRect c] else []))
  /\ Permutation (Detect.page_regions boundingRect contours)
       (List.filter Detect.keeps (map boundingRect contours))
  /\ map Detect.crop
       (Detect.written (snd (Detect.extract_graphs boundingRect doc output_folder)))
     = concat (map (Detect.page_regions boundingRect) doc)
  /\ fst (Detect.extract_graphs boundingRect doc output_folder)
     = Z.of_nat (length (concat (map (Detect.page_regions boundingRect) doc))).
Proof.
  split_and!.
  - apply keeps_spec.
  - intros page_no st c. rewrite contour_body_eq.
    destruct (Detect.keeps (boundingRect c)); simpl.
    + now rewrite map_app.
    + now rewrite app_nil_r.
  - rewrite page_regions_eq, filter_map_swap. apply Permutation_map.
    rewrite filter_sorted. apply sorted_perm.
  - unfold Detect.extract_graphs. cbn [snd Detect.written].
    match goal with
    | |- context [fold_left _ _ ?st] =>
        destruct (pages_fold boundingRect output_folder doc 0%nat st)
          as [Hw _]
    end.
    exact Hw.
  - unfold Detect.extract_graphs. cbn [fst Detect.img_count].
    match goal with
    | |- context [fold_left _ _ ?st] =>
        destruct (pages_fold boundingRect output_folder doc 0%nat st)
          as [_ Hn]
    end.
    rewrite Hn. reflexivity.
Qed.

(** Two overlapping rectangles that pass the thresholds are both reported,
    and so is a rectangle met twice; a rectangle one pixel too narrow is not. *)
Example overlapping_regions_reported :
  Detect.page_regions id
    [(10, 10, 300, 200); (0, 0, 300, 200); (0, 0, 300, 200);
     (0, 50, 249, 400)]
  = [(0, 0, 300, 200); (0, 0, 300, 200); (10, 10, 300, 200)].
Proof. vm_compute. reflexivity. Qed.

(** ** Loops under [try]/[except] *)


(** A loop whose body never lets an exception out runs to its end. *)
Lemma for_each_total {S X : Type} (P : X -> Prop) (body : X -> M S unit) :
  (forall x s, P x -> exists s', body x s = (Ok tt, s')) ->
  forall l s, Forall P l -> exists s', for_each l body s = (Ok tt, s').
Proof.
  intros Hbody l. induction l as [|x l IH]; intros s Hl; simpl.
  - now exists s.
  - apply Forall_cons in Hl. destruct Hl as [Hx Hl].
    destruct (Hbody x s Hx) as [s' Hs']. unfold bind. rewrite Hs'.
    now apply IH.
Qed.

(** ** [extract_graphs_to_single_file] *)

Section ExtractFacts.
Import Extract.
Context {font : Type} (F : fonts font) (isalnum : N -> bool).
Variables (output_dir : pystr) (font_size : Z).

Local Abbreviation body := (item_body F isalnum output_dir font_size).

(** Lines 67-81 never let an exception out: they yield the image, or they
    print one warning and yield [None]. *)
Lemma retrieve_ok (it : doc_item) (n : Z) (s : state) :
  exists s',
    retrieve it n s = (Ok (image_of it), s')
    /\ extracted s' = extracted s
    /\ pic_index s' = pic_index s
    /\ files s' = files s
    /\ match image_of it with
       | Some _ => stdout s' = stdout s
       | None => exists msg, stdout s' = stdout s ++ [msg]
       end.
Proof.
  unfold retrieve, image_of, try_except, bind, lift, print, modify, ret.
  destruct (access it) as [[[i|]|e]|[i|]|]; simpl; eexists;
    (split_and!; [reflexivity ..|]); simpl; eauto.
Qed.

(** What one item does to the state when the body returns. *)
Local Abbreviation step_post :=
  (fun (it : doc_item) (s s' : state) =>
     pic_index s' = pic_index s + (if is_picture it then 1 else 0)
     /\ map index (extracted s')
        = map index (extracted s)
          ++ (if is_picture it
              then match image_of it with
                   | Some _ => [pic_index s + 1]
                   | None => []
                   end
              else [])
     /\ json_written (files s') = json_written (files s)
     /\ (is_picture it = true -> image_of it = None ->
         extracted s' = extracted s /\ files s' = files s
         /\ exists msg, stdout s' = stdout s ++ [msg])).

(** [save] writes an image that has pixels. *)
Lemma save_png_ok (img : image) :
  0 < width img -> 0 < height img -> save_png img = Ok tt.
Proof.
  intros Hw Hh. unfold save_png.
  destruct (width img <=? 0) eqn:Hw0; [apply Z.leb_le in Hw0; lia|].
  destruct (height img <=? 0) eqn:Hh0; [apply Z.leb_le in Hh0; lia|].
  reflexivity.
Qed.

(** The body returns, or the compositor or [save] raised: nothing after
    line 81 is under a [try]. *)
Lemma item_body_cases (it : doc_item) (s : state) :
  exists r s',
    body it s = (r, s')
    /\ match r with
       | Ok _ => step_post it s s'
       | Raise e =>
           is_picture it = true
           /\ exists img,
                image_of it = Some img
                /\ (compose_caption F img (caption_of it (pic_index s + 1))
                      font_size = Raise e
                    \/ exists new_img,
                         compose_caption F img
                           (caption_of it (pic_index s + 1)) font_size
                         = Ok new_img
                         /\ save_png new_img = Raise e)
       end.
Proof.
  unfold item_body. fold (is_picture it).
  destruct (is_picture it) eqn:Hpic.
  - unfold bind at 1. unfold incr_pic_index at 1. unfold modify at 1.
    unfold bind at 1. unfold get at 1. cbn [pic_index].
    set (s1 := {| extracted := extracted s; pic_index := pic_index s + 1;
                  stdout := stdout s; files := files s |}).
    unfold bind at 1.
    destruct (retrieve_ok it (pic_index s + 1) s1)
      as (s2 & Hret & Hex & Hpi & Hfi & Hout).
    rewrite Hret. destruct (image_of it) as [img|] eqn:Himg.
    + unfold bind, lift, write_file, print, append_extracted, modify.
      destruct (compose_caption F img (caption_of it (pic_index s + 1))
                  font_size) as [new_img|e] eqn:Hnew.
      * destruct (save_png new_img) as [[]|e] eqn:Hsave.
        -- cbn. eexists. eexists. split; [reflexivity|]. cbn.
           rewrite Hex, Hpi, Hfi. subst s1. cbn.
           split_and!; try reflexivity.
           ++ now rewrite map_app.
           ++ unfold json_written. rewrite flat_map_app. cbn.
              now rewrite app_nil_r.
           ++ discriminate.
        -- exists (Raise e), s2. split; [reflexivity|]. eauto 8.
      * exists (Raise e), s2. split; [reflexivity|]. eauto.
    + unfold ret. exists (Ok tt). eexists. split; [reflexivity|].
      rewrite Hex, Hpi, Hfi. subst s1. cbn.
      split_and!; try reflexivity.
      * now rewrite app_nil_r.
      * intros _ _. destruct Hout as [msg Hmsg]. eauto.
  - unfold ret. exists (Ok tt), s. split; [reflexivity|].
    split_and!; try reflexivity.
    + lia.
    + now rewrite app_nil_r.
    + discriminate.
Qed.

Lemma item_body_step (it : doc_item) (s : state) :
  accepted font_size it ->
  exists s', body it s = (Ok tt, s') /\ step_post it s s'.
Proof.
  intros Hacc.
  destruct (item_body_cases it s) as ([[]|e] & s' & Hrun & Hpost).
  - eauto.
  - destruct Hpost as (_ & img & Himg & Hraise).
    destruct (Hacc img Himg) as [Hw Hh].
    destruct (compose_caption_made F img (caption_of it (pic_index s + 1))
                font_size ltac:(lia) ltac:(lia)) as [new_img Hnew].
    destruct Hraise as [Hraise|(new_img' & Hnew' & Hsave)]; [congruence|].
    assert (new_img' = new_img) by congruence. subst new_img'.
    destruct (compose_caption_ok F img _ font_size new_img Hnew)
      as (Hw' & Hh' & _).
    rewrite save_png_ok in Hsave by lia. discriminate.
Qed.

Lemma picture_ranks_bounds (items : list doc_item) :
  forall n, StronglySorted Z.lt (picture_ranks n items)
            /\ Forall (fun k => n < k) (picture_ranks n items).
Proof.
  induction items as [|it items IH]; intros n; simpl.
  - split; constructor.
  - destruct (IH n) as [Hs Hb], (IH (n + 1)) as [Hs1 Hb1].
    assert (Hb1' : Forall (fun k => n < k) (picture_ranks (n + 1) items))
      by (eapply Forall_impl; [exact Hb1|]; simpl; intros; lia).
    destruct (is_picture it); [|now split].
    destruct (image_of it); [|now split].
    split; constructor; try assumption; lia.
Qed.

(** The loop of lines 52-135, from any state, when it runs to its end. *)
Lemma items_loop_ok (items : list doc_item) :
  forall s s',
    for_each items body s = (Ok tt, s') ->
    pic_index s'
    = pic_index s + Z.of_nat (length (List.filter is_picture items))
    /\ map index (extracted s')
       = map index (extracted s) ++ picture_ranks (pic_index s) items
    /\ json_written (files s') = json_written (files s).
Proof.
  induction items as [|it items IH]; intros s s' Hrun.
  - injection Hrun as <-. simpl. rewrite app_nil_r.
    split_and!; try reflexivity. lia.
  - cbn [for_each] in Hrun. unfold bind at 1 in Hrun.
    destruct (item_body_cases it s) as ([[]|e] & s1 & Hs1 & Hpost);
      rewrite Hs1 in Hrun; [|discriminate].
    destruct Hpost as (Hpi1 & Hex1 & Hjs1 & _).
    destruct (IH s1 s' Hrun) as (Hpi2 & Hex2 & Hjs2).
    rewrite Hpi2, Hex2, Hjs2, Hpi1, Hex1, Hjs1. cbn [List.filter picture_ranks].
    destruct (is_picture it).
    + rewrite <- app_assoc. destruct (image_of it); cbn [length];
        (split_and!; [lia | reflexivity | reflexivity]).
    + rewrite Z.add_0_r, app_nil_r. split_and!; reflexivity.
Qed.

Lemma items_loop_total (items : list doc_item) (s : state) :
  Forall (accepted font_size) items ->
  exists s', for_each items body s = (Ok tt, s').
Proof.
  apply for_each_total. intros it s0 Hacc.
  destruct (item_body_step it s0 Hacc) as (s' & Hs' & _). eauto.
Qed.

(** The whole function, when it returns. *)
Lemma extract_returns (items : list doc_item) (extracted0 : list graph_info)
    (s' : state) :
  extract_graphs_to_single_file F isalnum items output_dir font_size init
  = (Ok extracted0, s') ->
  extracted0 = extracted s'
  /\ map index extracted0 = picture_ranks 0 items
  /\ pic_index s' = Z.of_nat (length (List.filter is_picture items))
  /\ json_written (files s')
     = match extracted0 with
       | [] => []
       | _ => [(os_path_join output_dir (py "graphs_only.json"), extracted0)]
       end.
Proof.
  unfold extract_graphs_to_single_file. unfold bind at 1.
  destruct (for_each items body init) as [[[]|e] s1] eqn:Hloop; [|discriminate].
  destruct (items_loop_ok items init s1 Hloop) as (Hpi & Hex & Hjs).
  cbn in Hpi, Hex, Hjs. rewrite Z.add_0_l in Hpi.
  unfold bind at 1. unfold get at 1.
  destruct (extracted s1) as [|g gs] eqn:Hext.
  - cbn. intros Hrun. injection Hrun as <- <-. cbn.
    split_and!; [now symmetry | exact Hex | exact Hpi | exact Hjs].
  - cbn. intros Hrun. injection Hrun as <- <-. cbn.
    split_and!; [now symmetry | exact Hex | exact Hpi |].
    unfold json_written in Hjs |- *. rewrite flat_map_app, Hjs. reflexivity.
Qed.

Lemma extract_total (items : list doc_item) :
  Forall (accepted font_size) items ->
  exists extracted0 s',
    extract_graphs_to_single_file F isalnum items output_dir font_size init
    = (Ok extracted0, s').
Proof.
  intros Hacc. destruct (items_loop_total items init Hacc) as [s1 Hs1].
  unfold extract_graphs_to_single_file. unfold bind at 1. fold body.
  rewrite Hs1. unfold bind at 1. unfold get at 1.
  destruct (extracted s1); cbn; eauto.
Qed.

End ExtractFacts.

Ltac sample_accepted :=
  repeat (apply List.Forall_cons;
          [intros img Himg; vm_compute in Himg;
           first [discriminate | injection Himg as <-; simpl; lia]|]);
  apply List.Forall_nil.

(** C10.  The indices of the list returned by [extract_graphs_to_single_file]
    are the ranks, among all picture items, of the pictures that have an
    image: they are strictly increasing, and a picture without image takes a
    rank that no record shows; the counter ends at the number of picture items;
    the metadata JSON file is written when a record was extracted and not
    otherwise.  The function returns as soon as the images of the pictures
    and their composites have pixels, which is what [Image.new] and [save]
    ask for. *)
Theorem extracted_indices {font : Type} (F : fonts font) (isalnum : N -> bool)
    (items : list Extract.doc_item) (output_dir : pystr) (font_size : Z) :
  (forall extracted s',
     Extract.extract_graphs_to_single_file F isalnum items output_dir font_size
       Extract.init = (Ok extracted, s') ->
     map Extract.index extracted = Extract.picture_ranks 0 items
     /\ StronglySorted Z.lt (map Extract.index extracted)
     /\ Forall (fun k => 1 <= k) (map Extract.index extracted)
     /\ Extract.pic_index s'
        = Z.of_nat (length (List.filter Extract.is_picture items))
     /\ Extract.json_written (Extract.files s')
        = match extracted with
          | [] => []
          | _ => [(os_path_join output_dir (py "graphs_only.json"), extracted)]
          end)
  /\ (Forall (Extract.accepted font_size) items ->
      exists extracted s',
        Extract.extract_graphs_to_single_file F isalnum items output_dir
          font_size Extract.init = (Ok extracted, s')).
Proof.
  split.
  - intros extracted s' Hrun.
    destruct (extract_returns F isalnum output_dir font_size items extracted
                s' Hrun) as (_ & Hidx & Hpi & Hjs).
    destruct (picture_ranks_bounds items 0) as [Hsorted Hpos].
    rewrite <- Hidx in Hsorted, Hpos.
    split_and!; [exact Hidx | exact Hsorted | | exact Hpi | exact Hjs].
    eapply Forall_impl; [exact Hpos|]. simpl. intros; lia.
  - apply extract_total.
Qed.

(** Instance of [extracted_indices]: three pictures, the second without
    image; the records carry the indices 1 and 3. *)
Lemma extracted_indices_witness :
  Forall (Extract.accepted 24)
    [Sample.picture_ok; Sample.paragraph; Sample.picture_broken;
     Sample.picture_untitled]
  /\ exists extracted s',
       Extract.extract_graphs_to_single_file Sample.block_font
         Sample.ascii_alnum
         [Sample.picture_ok; Sample.paragraph; Sample.picture_broken;
          Sample.picture_untitled] (py "graphs_only") 24 Extract.init
       = (Ok extracted, s')
       /\ map Extract.index extracted = [1; 3]
       /\ Extract.pic_index s' = 3.
Proof.
  assert (H : Forall (Extract.accepted 24)
                [Sample.picture_ok; Sample.paragraph; Sample.picture_broken;
                 Sample.picture_untitled]) by sample_accepted.
  split; [exact H|].
  destruct (extracted_indices Sample.block_font Sample.ascii_alnum
              [Sample.picture_ok; Sample.paragraph; Sample.picture_broken;
               Sample.picture_untitled] (py "graphs_only") 24)
    as [Hprops Hreturns].
  destruct (Hreturns H) as (extracted & s' & Hrun).
  destruct (Hprops extracted s' Hrun) as (Hidx & _ & _ & Hpi & _).
  exists extracted, s'. split_and!; [exact Hrun | exact Hidx | exact Hpi].
Defined.

(** ** The image indexer *)

Section IndexFacts.
Import Index.
Context {img : Type} (E : env img).

(** What one path does to the server. *)
Local Abbreviation world_step :=
  (fun (w0 : world) (p : pystr) =>
     match object_of E p with
     | Some o => put_object CLASS_NAME (generate_uuid5 E p) o w0
     | None => w0
     end).

Lemma image_body_total (p : pystr) (s : state) :
  exists s', image_body E p s = (Ok tt, s').
Proof.
  unfold image_body, try_except, bind, lift, backup_append, lift_world,
    batch_add_object, print, modify.
  destruct (open_rgb E p) as [image|e]; [|eauto].
  destruct (encode E image) as [v|e]; [|eauto]. cbn.
  destruct (add_refused E _ v (generate_uuid5 E p)); eauto.
Qed.



Lemma image_body_world (p : pystr) (s : state) :
  w (snd (image_body E p s)) = world_step (w s) p.
Proof.
  unfold object_of, image_body, try_except, bind, lift, backup_append,
    lift_world, print, modify, batch_add_object.
  destruct (open_rgb E p) as [image|e]; [|reflexivity].
  destruct (encode E image) as [v|e]; [|reflexivity]. cbn.
  destruct (add_refused E _ v (generate_uuid5 E p)); reflexivity.
Qed.

Lemma batch_loop_total (paths : list pystr) (s : state) :
  exists s', batch_loop E paths s = (Ok tt, s').
Proof.
  apply (for_each_total (fun _ => True)).
  - intros p s0 _. apply image_body_total.
  - apply List.Forall_forall. trivial.
Qed.

Lemma batch_loop_world (paths : list pystr) :
  forall s, w (snd (batch_loop E paths s)) = fold_left world_step paths (w s).
Proof.
  unfold batch_loop. induction paths as [|p paths IH]; intros s; [reflexivity|].
  cbn [for_each fold_left]. unfold bind.
  destruct (image_body_total p s) as [s1 Hs1].
  pose proof (image_body_world p s) as Hw. rewrite Hs1 in Hw |- *.
  cbn [snd] in Hw. rewrite IH, Hw. reflexivity.
Qed.

(** On a server that has the collection, the loop upserts into it. *)
Lemma fold_world_server (paths : list pystr) :
  forall w0 c,
    server w0 !! CLASS_NAME = Some c ->
    server (fold_left world_step paths w0)
    = <[CLASS_NAME := {| objects := fold_left (upsert E) paths (objects c) |}]>
        (server w0)
    /\ drawn (fold_left world_step paths w0) = drawn w0.
Proof.
  induction paths as [|p paths IH]; intros w0 c Hc; cbn [fold_left].
  - split; [|reflexivity]. destruct c. now rewrite insert_id.
  - unfold upsert at 2. destruct (object_of E p) as [o|]; [|now apply IH].
    set (c' := {| objects := <[generate_uuid5 E p := o]> (objects c) |}).
    assert (Hput : server (put_object CLASS_NAME (generate_uuid5 E p) o w0)
                   = <[CLASS_NAME := c']> (server w0)).
    { unfold put_object, with_server. cbn [server].
      now rewrite (alter_alt_Some _ _ _ c Hc). }
    destruct (IH (put_object CLASS_NAME (generate_uuid5 E p) o w0) c')
      as [Hs Hd].
    { rewrite Hput. apply lookup_insert_eq. }
    rewrite Hs, Hd, Hput, insert_insert_eq. split; reflexivity.
Qed.




End IndexFacts.

Lemma bind_run {S A B : Type} (m : M S A) (k : A -> M S B) (s s' : S) (a : A) :
  m s = (Ok a, s') -> bind m k s = k a s'.
Proof. unfold bind. now intros ->. Qed.


Section IndexRun.
Import Index.
Context {img : Type} (E : env img).

Local Abbreviation world_step :=
  (fun (w0 : world) (p : pystr) =>
     match object_of E p with
     | Some o => put_object CLASS_NAME (generate_uuid5 E p) o w0
     | None => w0
     end).



(** One run of the script: the collection is made anew and filled. *)
Lemma run_server (folder : list pystr) (w0 : world) :
  let paths :=
    List.filter (fun p => bool_decide (suffix_lower E p ∈ IMAGE_SUFFIXES))
      folder in
  fst (run E folder w0) = Ok tt
  /\ server (w (snd (run E folder w0)))
     = <[CLASS_NAME := {| objects := fold_left (upsert E) paths ∅ |}]>
         (server w0)
  /\ drawn (w (snd (run E folder w0))) = drawn w0.
Proof.
  intros paths. unfold run, index_images.
  assert (Hstart : forall s : state,
            server (w s) !! CLASS_NAME = None ->
            let r :=
              (_ <- lift_world (collections_create CLASS_NAME) ;;
               print (py "Created collection '" ++ CLASS_NAME ++ py "'") ;;;
               print ([10%N] ++ py "Processing "
                      ++ str_of_int (Z.of_nat (length paths))
                      ++ py " images..." ++ [10%N]) ;;;
               batch_loop E paths ;;;
               s' <- get ;;
               json_dump JSON_BACKUP (JList (backup s')) ;;;
               print ([10%N] ++ py "Finished!") ;;;
               print (py "Indexed "
                      ++ str_of_int (Z.of_nat (length (backup s')))
                      ++ py " images into Weaviate (localhost:8080)") ;;;
               print (py "Backup JSON with all vectors " ++ [8594%N] ++ py " "
                      ++ JSON_BACKUP))%py s in
            fst r = Ok tt
            /\ server (w (snd r))
               = <[CLASS_NAME := {| objects := fold_left (upsert E) paths ∅ |}]>
                   (server (w s))
            /\ drawn (w (snd r)) = drawn (w s)).
  { intros s Hnone r. subst r.
    erewrite bind_run;
      [|unfold lift_world, collections_create; rewrite Hnone; reflexivity].
    do 2 (erewrite bind_run by reflexivity).
    match goal with
    | |- context [bind (batch_loop E paths) _ ?s0] =>
        destruct (batch_loop_total E paths s0) as [s2 Hs2];
        pose proof (batch_loop_world E paths s0) as Hw;
        rewrite Hs2 in Hw; cbn [snd w] in Hw
    end.
    erewrite bind_run by exact Hs2.
    do 4 (erewrite bind_run by reflexivity).
    unfold print, modify. cbn [fst snd w].
    rewrite Hw.
    match goal with
    | |- context [fold_left _ paths ?w1] =>
        destruct (fold_world_server E paths w1
                    {| objects := ∅ |}) as [Hs Hd];
        [unfold with_server; cbn [server]; apply lookup_insert_eq|]
    end.
    rewrite Hs, Hd. unfold with_server. cbn [server drawn objects].
    now rewrite insert_insert_eq. }
  erewrite bind_run by reflexivity.
  unfold collections_exists. cbn [w].
  destruct (server w0 !! CLASS_NAME) as [c|] eqn:Hc.
  - rewrite bool_decide_true by eauto.
    erewrite bind_run by reflexivity.
    match goal with
    | |- context [bind _ _ ?s0] =>
        destruct (Hstart s0) as (Hok & Hs & Hd);
        [unfold collections_delete, with_server; cbn [w server];
         apply lookup_delete_eq|]
    end.
    split_and!; [exact Hok | etransitivity; [exact Hs|] | exact Hd].
    unfold collections_delete, with_server. cbn [w server].
    apply insert_delete_eq.
  - rewrite bool_decide_false by (intros [? ?]; discriminate).
    erewrite bind_run by reflexivity.
    match goal with
    | |- context [bind _ _ ?s0] =>
        destruct (Hstart s0 Hc) as (Hok & Hs & Hd)
    end.
    split_and!; [exact Hok | exact Hs | exact Hd].
Qed.

End IndexRun.





Example compositor_failure_state :
  let body := Extract.item_body Sample.block_font Sample.ascii_alnum
                (py "graphs_only") (-300) in
  let alone := for_each [Sample.picture_tall] body Extract.init in
  let after := for_each [Sample.picture_ok; Sample.picture_tall] body
                 Extract.init in
  fst alone = Ok tt
  /\ map Extract.index (Extract.extracted (snd alone)) = [1]
  /\ fst after = Raise (py "Width and height must be >= 0")
  /\ Extract.pic_index (snd after) = 1
  /\ Extract.extracted (snd after) = []
  /\ Extract.files (snd after) = [].
Proof. vm_compute. repeat split. Qed.

(** ** Inserts that draw their id *)


Section InsertIds.
Variable name : pystr.

(** The ids of the collection [name]. *)
Local Abbreviation ids_at :=
  (fun w0 : world => match server w0 !! name with
                     | Some c => dom (objects c)
                     | None => (∅ : gset (list N))
                     end).


End InsertIds.

Section TextStoreFacts.
Import TextStore.
Variable uuid4 : nat -> pystr.




End TextStoreFacts.

Section PipelineLoops.
Import Pipeline.
Variable E : env.




End PipelineLoops.




Example text_store_rerun_duplicates :
  let run := TextStore.run (Pipeline.uuid4 Sample.pipeline_env)
               [py "Outlook stable"] [[1%Q; 0%Q]] in
  let w1 := TextStore.w (snd (run Sample.empty_world)) in
  let w2 := TextStore.w (snd (run w1)) in
  fst (run Sample.empty_world) = Ok tt
  /\ fst (run w1) = Ok tt
  /\ elements (TextStore.ids w1) = [py "uuid4-0"]
  /\ elements (TextStore.ids w2) = [py "uuid4-1"; py "uuid4-0"]
  /\ match server w2 !! TextStore.CLASS_NAME with
     | Some c => (properties <$> objects c !! py "uuid4-0",
                  properties <$> objects c !! py "uuid4-1")
     | None => (None, None)
     end
     = (Some [(py "text", py "Outlook stable")],
        Some [(py "text", py "Outlook stable")]).
Proof. vm_compute. repeat split. Qed.

(** ** [ensure_collection] *)

Lemma ensure_collection_raises (s : Pipeline.state) :
  exists s',
    Pipeline.ensure_collection s
    = (Raise (py "TypeError: hnsw() got an unexpected keyword argument 'vector_size'"),
       s')
    /\ server (Pipeline.w s') = delete Pipeline.NAME (server (Pipeline.w s))
    /\ drawn (Pipeline.w s') = drawn (Pipeline.w s)
    /\ Pipeline.files s' = Pipeline.files s.
Proof.
  unfold Pipeline.ensure_collection.
  destruct (server (Pipeline.w s) !! Pipeline.NAME) as [c|] eqn:Hc.
  - assert (Hcfg : Pipeline.lift_world (config_get Pipeline.NAME) s
                   = (Ok c, s)).
    { unfold Pipeline.lift_world, config_get. rewrite Hc. now destruct s. }
    unfold try_except at 1. erewrite bind_run by exact Hcfg.
    erewrite bind_run by reflexivity.
    rewrite bool_decide_true by discriminate.
    do 3 (erewrite bind_run by reflexivity). unfold raise.
    erewrite bind_run by reflexivity.
    unfold bind, lift, Pipeline.hnsw_vector_size.
    eexists. split; [reflexivity|]. cbn. split_and!; reflexivity.
  - assert (Hcfg : Pipeline.lift_world (config_get Pipeline.NAME) s
                   = (Raise (py "collection not found"), s)).
    { unfold Pipeline.lift_world, config_get. rewrite Hc. now destruct s. }
    unfold try_except at 1. unfold bind at 1. rewrite Hcfg.
    erewrite bind_run by reflexivity.
    unfold bind, lift, Pipeline.hnsw_vector_size.
    eexists. split; [reflexivity|]. cbn.
    split_and!; try reflexivity. symmetry. now apply delete_id.
Qed.

(** C4, the defect.  [ensure_collection] never hands out a collection.
    Reading the vector size of the configuration fails, so every collection
    there is counts as a mismatch and is deleted with its objects; and the
    call that is to create the new collection raises [TypeError] while its
    arguments are built, be it after the deletion or on a server that has no
    collection, so nothing is created.  [process_pdf] therefore ends in that
    exception before it extracts or inserts anything. *)
Theorem ensure_collection_deletes_and_raises (s : Pipeline.state)
    (E : Pipeline.env) (d : Pipeline.pdf) (w0 : world) :
  (exists e s',
     Pipeline.ensure_collection s = (Raise e, s')
     /\ server (Pipeline.w s') !! Pipeline.NAME = None
     /\ server (Pipeline.w s') = delete Pipeline.NAME (server (Pipeline.w s))
     /\ drawn (Pipeline.w s') = drawn (Pipeline.w s)
     /\ Pipeline.files s' = Pipeline.files s)
  /\ (exists e,
        fst (Pipeline.run E d w0) = Raise e
        /\ server (Pipeline.w (snd (Pipeline.run E d w0)))
           = delete Pipeline.NAME (server w0)
        /\ drawn (Pipeline.w (snd (Pipeline.run E d w0))) = drawn w0
        /\ Pipeline.files (snd (Pipeline.run E d w0)) = ∅).
Proof.
  split.
  - destruct (ensure_collection_raises s) as (s' & Hrun & Hs & Hd & Hf).
    eexists. exists s'. split_and!; try eassumption.
    rewrite Hs. apply lookup_delete_eq.
  - destruct (ensure_collection_raises
                {| Pipeline.w := w0;
                   Pipeline.log := [] ++ [py "===== START PIPELINE ====="];
                   Pipeline.files := ∅ |}) as (s' & Hrun & Hs & Hd & Hf).
    cbn [Pipeline.w Pipeline.log Pipeline.files] in Hs, Hd, Hf.
    assert (Hr : Pipeline.run E d w0
                 = (Raise (py "TypeError: hnsw() got an unexpected keyword argument 'vector_size'"),
                    s')).
    { unfold Pipeline.run, Pipeline.process_pdf.
      erewrite bind_run by reflexivity. unfold bind at 1.
      cbn [Pipeline.w Pipeline.log Pipeline.files]. now rewrite Hrun. }
    rewrite Hr. cbn [fst snd].
    eexists. split_and!; [reflexivity | exact Hs | exact Hd | exact Hf].
Qed.

(** The failing input of C4: a server that holds the collection with one
    object.  The object is gone and no collection is made. *)
Example ensure_collection_on_old_world :
  let r := Pipeline.ensure_collection
             {| Pipeline.w := Sample.old_world; Pipeline.log := [];
                Pipeline.files := ∅ |} in
  fst r
  = Raise (py "TypeError: hnsw() got an unexpected keyword argument 'vector_size'")
  /\ server (Pipeline.w (snd r)) = ∅
  /\ Pipeline.log (snd r)
     = [py "Vector size mismatch: None != 512";
        py "Deleting old collection" ++ [8230%N];
        py "Creating new collection with vector size 512..."].
Proof. vm_compute. repeat split. Qed.

(* ===================================================================== *)
(** * Part III: further properties of the scripts                         *)
(* ===================================================================== *)

(** ** Decimal numerals *)

Lemma pretty_N_char_digit (x : N) : is_digit (N_of_ascii (pretty_N_char x)).
Proof.
  unfold is_digit, pretty_N_char.
  repeat case_match; vm_compute; split; discriminate.
Qed.

Lemma py_app (a b : string) : py (a +:+ b) = py a ++ py b.
Proof.
  unfold py. induction a as [|c a IH]; [reflexivity|].
  simpl. f_equal. exact IH.
Qed.

(** The digits of a number, written in front of [s]. *)
Lemma pretty_N_go_digits (x : N) :
  forall s, exists d,
    py (pretty_N_go x s) = d ++ py s
    /\ Forall is_digit d
    /\ ((0 < x)%N -> exists c d', d = c :: d' /\ c <> 48%N).
Proof.
  induction (N.lt_wf_0 x) as [x _ IH]. intros s.
  assert (x = 0 \/ 0 < x)%N as [->|Hpos] by lia.
  - exists []. rewrite pretty_N_go_0. split_and!; [reflexivity | constructor | lia].
  - rewrite pretty_N_go_step by exact Hpos.
    destruct (IH (x `div` 10)%N (N.div_lt x 10 Hpos eq_refl)
                (String (pretty_N_char (x `mod` 10)) s))
      as (d & Hd & Hdig & Hhead).
    exists (d ++ [N_of_ascii (pretty_N_char (x `mod` 10))]).
    split_and!.
    + rewrite Hd, <- app_assoc. reflexivity.
    + apply Forall_app. split; [exact Hdig|].
      constructor; [apply pretty_N_char_digit | constructor].
    + intros _. destruct (N.eq_0_gt_0_cases (x `div` 10)) as [Hz|Hq].
      * rewrite Hz in Hd. rewrite pretty_N_go_0 in Hd.
        assert (d = []) as ->.
        { apply (f_equal (@length N)) in Hd. rewrite length_app in Hd.
          destruct d; [reflexivity | simpl in Hd; lia]. }
        eexists _, []. split; [reflexivity|].
        assert (Hx : (x < 10)%N) by (apply N.div_small_iff in Hz; lia).
        rewrite N.mod_small by exact Hx.
        assert (x = 1 \/ x = 2 \/ x = 3 \/ x = 4 \/ x = 5 \/ x = 6
                \/ x = 7 \/ x = 8 \/ x = 9)%N as Hc by lia.
        intuition (subst; discriminate).
      * destruct (Hhead Hq) as (c & d' & -> & Hc).
        exists c, (d' ++ [N_of_ascii (pretty_N_char (x `mod` 10))]).
        split; [reflexivity | exact Hc].
Qed.

(** [str(n)] for a number that is not negative: digits, at least one, and no
    leading zero unless the number is zero. *)
Lemma str_of_int_digits (n : Z) :
  0 <= n ->
  Forall is_digit (str_of_int n)
  /\ str_of_int n <> []
  /\ (0 < n -> exists c d, str_of_int n = c :: d /\ c <> 48%N).
Proof.
  intros Hn. unfold str_of_int, pretty, pretty_Z.
  destruct n as [|p|p]; [| |lia].
  - change (py "0") with [48%N].
    split_and!; [constructor; [vm_compute; split; discriminate | constructor]
                | discriminate | lia].
  - unfold pretty, pretty_positive, pretty, pretty_N.
    destruct (decide (N.pos p = 0%N)) as [H|_]; [discriminate|].
    destruct (pretty_N_go_digits (N.pos p) "") as (d & Hd & Hdig & Hhead).
    cbn [py list_ascii_of_string map] in Hd. rewrite app_nil_r in Hd.
    change (map N_of_ascii (list_ascii_of_string (pretty_N_go (N.pos p) "")))
      with (py (pretty_N_go (N.pos p) "")).
    rewrite Hd. destruct (Hhead ltac:(lia)) as (c & d' & -> & Hc).
    split_and!; [exact Hdig | discriminate | intros _; eauto].
Qed.

Lemma py_inj (a b : string) : py a = py b -> a = b.
Proof.
  unfold py. revert b. induction a as [|c a IH]; intros [|c' b] H;
    try discriminate; [reflexivity|].
  simpl in H. injection H as Hc Hab.
  f_equal; [|now apply IH].
  rewrite <- (ascii_N_embedding c), <- (ascii_N_embedding c'). now rewrite Hc.
Qed.

Lemma str_of_int_inj (a b : Z) : str_of_int a = str_of_int b -> a = b.
Proof. intros H. apply py_inj in H. now apply (inj pretty). Qed.

(** A numeral ends where the first character that is no digit stands. *)
Lemma digits_split (d1 d2 r1 r2 : pystr) (c1 c2 : N) :
  Forall is_digit d1 -> Forall is_digit d2 ->
  ~ is_digit c1 -> ~ is_digit c2 ->
  d1 ++ c1 :: r1 = d2 ++ c2 :: r2 ->
  d1 = d2 /\ c1 = c2 /\ r1 = r2.
Proof.
  intros H1. revert d2. induction H1 as [|a d1 Ha _ IH]; intros d2 H2 Hc1 Hc2 Heq.
  - destruct H2 as [|b d2 Hb _]; simpl in Heq.
    + injection Heq as -> ->. auto.
    + injection Heq as -> _. contradiction.
  - destruct H2 as [|b d2 Hb H2]; simpl in Heq.
    + injection Heq as -> _. contradiction.
    + injection Heq as -> Heq. destruct (IH d2 H2 Hc1 Hc2 Heq) as (-> & -> & ->).
      auto.
Qed.

(** ** More on [join] *)

Lemma join_app (sep : pystr) (ws1 ws2 : list pystr) :
  ws1 <> [] -> ws2 <> [] ->
  join sep (ws1 ++ ws2) = join sep ws1 ++ sep ++ join sep ws2.
Proof.
  intros H1 H2. induction ws1 as [|w ws1 IH]; [contradiction|].
  destruct ws1 as [|w' ws1].
  - destruct ws2; [contradiction | reflexivity].
  - change (join sep ((w :: w' :: ws1) ++ ws2))
      with (w ++ sep ++ join sep ((w' :: ws1) ++ ws2)).
    rewrite IH by discriminate.
    change (join sep (w :: w' :: ws1)) with (w ++ sep ++ join sep (w' :: ws1)).
    now rewrite <- !app_assoc.
Qed.

Lemma concat_nonempty {A} (groups : list (list A)) :
  groups <> [] -> Forall (fun g => g <> []) groups -> concat groups <> [].
Proof.
  intros Hne Hall. destruct groups as [|g gs]; [contradiction|].
  apply Forall_cons in Hall. destruct Hall as [Hg _]. simpl.
  destruct g; [contradiction | discriminate].
Qed.

(** Joining the joined groups is joining all the words. *)
Lemma join_concat (sep : pystr) (groups : list (list pystr)) :
  Forall (fun g => g <> []) groups ->
  join sep (map (join sep) groups) = join sep (concat groups).
Proof.
  induction 1 as [|g gs Hg Hgs IH]; [reflexivity|].
  destruct gs as [|g' gs].
  - simpl. now rewrite app_nil_r.
  - change (join sep (map (join sep) (g :: g' :: gs)))
      with (join sep g ++ sep ++ join sep (map (join sep) (g' :: gs))).
    rewrite IH. simpl concat at 2.
    rewrite join_app; [reflexivity | exact Hg |].
    apply (concat_nonempty (g' :: gs)); [discriminate | exact Hgs].
Qed.

(** ** [chunk_text] outside the range of its default *)

(** The loop of [chunk_text] for any [max_len]: the chunks closed so far are
    non-empty groups of the words read. *)
Lemma chunk_loop_groups (max_len : Z) (words : list pystr) :
  exists groups cur,
    fold_left (Chunk.chunk_step max_len) words ([], [])
    = (map (join sp) groups, cur)
    /\ concat groups ++ cur = words
    /\ Forall (fun g => g <> []) groups.
Proof.
  induction words as [|w words IH] using rev_ind.
  - exists [], []. split_and!; [reflexivity | reflexivity | constructor].
  - destruct IH as (groups & cur & Hfold & Hcat & Hne).
    rewrite fold_left_app, Hfold. cbn [fold_left]. unfold Chunk.chunk_step.
    destruct (Z.of_nat (length (cur ++ [w])) >=? max_len).
    + exists (groups ++ [cur ++ [w]]), []. split_and!.
      * now rewrite map_app.
      * rewrite concat_app. simpl. rewrite !app_nil_r, app_assoc.
        now rewrite Hcat.
      * apply Forall_app. split; [exact Hne|].
        constructor; [|constructor]. destruct cur; discriminate.
    + exists groups, (cur ++ [w]). split_and!; [reflexivity | | exact Hne].
      rewrite app_assoc. now rewrite Hcat.
Qed.

(** X1.  For every [max_len], zero and the negative numbers included,
    joining the chunks of [chunk_text] by single spaces gives the words of the
    text joined by single spaces, and no chunk is empty: chunking changes
    nothing but the white space between the words. *)
Theorem chunk_text_rejoin (text : pystr) (max_len : Z) :
  join sp (Chunk.chunk_text text max_len) = join sp (split text)
  /\ Forall (fun c => c <> []) (Chunk.chunk_text text max_len).
Proof.
  unfold Chunk.chunk_text.
  destruct (chunk_loop_groups max_len (split text))
    as (groups & cur & Hfold & Hcat & Hne).
  rewrite Hfold.
  assert (Hall : exists all,
            (match cur with
             | [] => map (join sp) groups
             | _ => map (join sp) groups ++ [join sp cur]
             end) = map (join sp) all
            /\ concat all = split text /\ Forall (fun g => g <> []) all).
  { destruct cur as [|w cur].
    - exists groups. rewrite app_nil_r in Hcat. auto.
    - exists (groups ++ [w :: cur]). split_and!.
      + now rewrite map_app.
      + rewrite concat_app. simpl. now rewrite app_nil_r.
      + apply Forall_app. split; [exact Hne|].
        constructor; [discriminate | constructor]. }
  destruct Hall as (all & -> & Hcat' & Hne').
  pose proof (split_words text) as Hwords. rewrite <- Hcat' in Hwords.
  split.
  - rewrite join_concat by exact Hne'. now rewrite Hcat'.
  - apply Forall_concat_inv in Hwords. clear Hcat'.
    induction all as [|g all IH]; [constructor|].
    apply Forall_cons in Hne', Hwords.
    destruct Hne' as [Hg Hne'], Hwords as [Hgw Hwords].
    constructor; [|now apply IH].
    destruct g as [|w g]; [contradiction|].
    apply Forall_cons in Hgw. destruct Hgw as [[Hw _] _].
    simpl. destruct g; [exact Hw|]. destruct w; [contradiction | discriminate].
Qed.

(** X2.  With [max_len] at most 1, down to zero and the negative numbers,
    the test [len(cur) >= max_len] holds after every word: each word is a
    chunk of its own. *)
Theorem chunk_text_one_word_chunks (text : pystr) (max_len : Z) :
  max_len <= 1 -> Chunk.chunk_text text max_len = split text.
Proof.
  intros Hm. unfold Chunk.chunk_text.
  assert (Hloop : forall words chunks,
            fold_left (Chunk.chunk_step max_len) words (chunks, [])
            = (chunks ++ words, [])).
  { induction words as [|w words IH]; intros chunks; cbn [fold_left].
    - now rewrite app_nil_r.
    - unfold Chunk.chunk_step at 2. cbn [app length].
      destruct (Z.of_nat 1 >=? max_len) eqn:Hge.
      + rewrite IH, <- app_assoc. reflexivity.
      + rewrite Z.geb_leb in Hge. apply Z.leb_gt in Hge. lia. }
  rewrite (Hloop (split text) []). reflexivity.
Qed.

(** Instance of [chunk_text_one_word_chunks]: [max_len = 0]. *)
Lemma chunk_text_one_word_chunks_witness :
  0 <= 1
  /\ Chunk.chunk_text (py "key  highlights of Q2") 0
     = [py "key"; py "highlights"; py "of"; py "Q2"].
Proof.
  split; [lia|].
  rewrite (chunk_text_one_word_chunks (py "key  highlights of Q2") 0); [|lia].
  vm_compute. reflexivity.
Defined.

Lemma length_concat_full {A} (m : Z) (groups : list (list A)) :
  Forall (fun g => Z.of_nat (length g) = m) groups ->
  Z.of_nat (length (concat groups)) = Z.of_nat (length groups) * m.
Proof.
  induction 1 as [|g gs Hg _ IH]; [reflexivity|].
  simpl. rewrite length_app. lia.
Qed.

(** X3.  For [max_len >= 1] a text of [n] words gives
    [ceil (n / max_len)] chunks. *)
Theorem chunk_text_count (text : pystr) (max_len : Z) :
  1 <= max_len ->
  Z.of_nat (length (Chunk.chunk_text text max_len))
  = (Z.of_nat (length (split text)) + max_len - 1) / max_len.
Proof.
  intros Hm.
  destruct (chunk_text_groups max_len Hm text)
    as (full & last & -> & Hcat & Hfull & Hlast).
  rewrite <- Hcat, length_map, concat_app, !length_app.
  rewrite !Nat2Z.inj_add, (length_concat_full max_len full Hfull).
  destruct Hlast as [->|(g & -> & Hg & Hlen)]; simpl.
  - apply (Z.div_unique _ _ _ (max_len - 1)); lia.
  - rewrite app_nil_r.
    assert (Hpos : 0 < Z.of_nat (length g))
      by (destruct g; [contradiction | simpl; lia]).
    apply (Z.div_unique _ _ _ (Z.of_nat (length g) - 1)); lia.
Qed.

(** Instance of [chunk_text_count]: five words by two give three chunks. *)
Lemma chunk_text_count_witness :
  1 <= 2
  /\ Z.of_nat (length (Chunk.chunk_text (py "a b  c d e") 2)) = 3.
Proof.
  split; [lia|].
  rewrite (chunk_text_count (py "a b  c d e") 2); [|lia].
  vm_compute. reflexivity.
Defined.

(** ** The lines of a wrapped caption *)

Lemma length_groups_le {A} (groups : list (list A)) :
  Forall (fun g => g <> []) groups ->
  (length groups <= length (concat groups))%nat.
Proof.
  induction 1 as [|g gs Hg _ IH]; [reflexivity|].
  simpl. rewrite length_app. destruct g; [contradiction|]. simpl. lia.
Qed.

Lemma join_words_nonempty (g : list pystr) :
  g <> [] -> Forall is_word g -> join sp g <> [].
Proof.
  intros Hne Hw. destruct g as [|w g]; [contradiction|].
  apply Forall_cons in Hw. destruct Hw as [[Hw _] _].
  simpl. destruct g; [exact Hw|]. destruct w; [contradiction | discriminate].
Qed.

(** X4.  Every line of a wrapped caption is non-empty and is its own words
    joined by single spaces, whatever white space the caption had; and there
    are at most as many lines as the caption has words.  So a caption
    without words gives no line. *)
Theorem wrap_lines_normalised {font : Type} (F : fonts font) (fnt : font)
    (new_width : Z) (caption : pystr) :
  Forall (fun line => line <> [] /\ join sp (split line) = line)
    (wrap F fnt new_width caption)
  /\ (length (wrap F fnt new_width caption) <= length (split caption))%nat.
Proof.
  unfold wrap.
  destruct (wrap_words_groups F fnt new_width (split caption))
    as (groups & -> & Hcat & Hne & _).
  pose proof (split_words caption) as Hwords. rewrite <- Hcat in Hwords.
  split.
  - apply Forall_concat_inv in Hwords. clear Hcat.
    induction groups as [|g groups IH]; [constructor|].
    apply Forall_cons in Hne, Hwords.
    destruct Hne as [Hg Hne], Hwords as [Hgw Hwords].
    constructor; [|now apply IH]. split.
    + now apply join_words_nonempty.
    + now rewrite split_join.
  - rewrite length_map, <- Hcat. now apply length_groups_le.
Qed.

(** X5.  A caption each of whose beginnings passes the test of line 104 is
    not wrapped: it comes out as one line, its words joined by single
    spaces. *)
Theorem wrap_single_line {font : Type} (F : fonts font) (fnt : font)
    (new_width : Z) (caption : pystr) :
  split caption <> [] ->
  (forall p w q, split caption = p ++ w :: q ->
                 fits F fnt new_width (p ++ [w]) = true) ->
  wrap F fnt new_width caption = [join sp (split caption)].
Proof.
  intros Hne Hfits. unfold wrap, wrap_words.
  assert (Hloop : forall words,
            (forall p w q, words = p ++ w :: q ->
                           fits F fnt new_width (p ++ [w]) = true) ->
            fold_left (wrap_step F fnt new_width) words ([], [])
            = ([], words)).
  { induction words as [|w words IH] using rev_ind; intros H; [reflexivity|].
    rewrite fold_left_app, IH.
    - cbn [fold_left]. rewrite wrap_step_eq.
      now rewrite (H words w [] eq_refl).
    - intros p w0 q ->. apply (H p w0 (q ++ [w])).
      now rewrite <- app_assoc. }
  rewrite (Hloop (split caption) Hfits).
  destruct (split caption); [contradiction | reflexivity].
Qed.

(** Instance of [wrap_single_line]: 18 characters in size 24 on 300 pixels. *)
Lemma wrap_single_line_witness :
  split (py " Revenue  by quarter") <> []
  /\ wrap Sample.block_font 24 300 (py " Revenue  by quarter")
     = [py "Revenue by quarter"].
Proof.
  assert (H1 : split (py " Revenue  by quarter") <> [])
    by (vm_compute; discriminate).
  split; [exact H1|].
  rewrite (wrap_single_line Sample.block_font 24 300
             (py " Revenue  by quarter") H1).
  - vm_compute. reflexivity.
  - intros p w q Heq.
    change (split (py " Revenue  by quarter"))
      with [py "Revenue"; py "by"; py "quarter"] in Heq.
    destruct p as [|a [|b [|c p]]]; simplify_eq/=;
      try (vm_compute; reflexivity).
    match goal with
    | H : [] = p ++ _ |- _ => destruct p; discriminate H
    end.
Defined.

(** X6.  Under a caption without words nothing is drawn: outside the box
    where the region is pasted, the composite is white. *)
Theorem compose_blank_caption {font : Type} (F : fonts font)
    (region : image) (caption : pystr) (font_size : Z) (img : image) :
  split caption = [] ->
  compose_caption F region caption font_size = Ok img ->
  forall x y,
    ~ (0 <= x < width region
       /\ font_size + 20 <= y < font_size + 20 + height region) ->
    pixel img x y = white.
Proof.
  intros Hblank. unfold compose_caption, Image_new, wrap. rewrite Hblank.
  destruct ((width region <? 0) || (height region + (font_size + 20) <? 0));
    [discriminate|].
  intros Himg. injection Himg as <-. intros x y Hout.
  cbn [wrap_words fold_left draw_lines snd paste pixel].
  destruct ((0 <=? x - 0) && (x - 0 <? width region)
            && (0 <=? y - (font_size + 20))
            && (y - (font_size + 20) <? height region)) eqn:Hin;
    [|reflexivity].
  rewrite !andb_true_iff, !Z.leb_le, !Z.ltb_lt in Hin. exfalso. apply Hout. lia.
Qed.

(** Instance of [compose_blank_caption]: a caption of blanks. *)
Lemma compose_blank_caption_witness :
  split (py "   ") = []
  /\ exists img,
       compose_caption Sample.block_font Sample.region (py "   ") 24 = Ok img
       /\ pixel img 25 12 = white.
Proof.
  assert (H1 : split (py "   ") = []) by reflexivity.
  split; [exact H1|].
  eexists. split; [reflexivity|].
  apply (compose_blank_caption Sample.block_font Sample.region (py "   ") 24
           _ H1 eq_refl).
  simpl. lia.
Defined.

(** ** The files of the region detector *)

Lemma number_from_app {A : Type} (l1 l2 : list A) :
  forall n, number_from n (l1 ++ l2)
            = number_from n l1 ++ number_from (n + Z.of_nat (length l1)) l2.
Proof.
  induction l1 as [|a l1 IH]; intros n; simpl.
  - now rewrite Z.add_0_r.
  - rewrite IH. do 3 f_equal. lia.
Qed.

Lemma number_from_ge {A : Type} (l : list A) :
  forall n, Forall (fun e => n <= fst e) (number_from n l).
Proof.
  induction l as [|a l IH]; intros n; simpl; constructor; [simpl; lia|].
  eapply Forall_impl; [apply (IH (n + 1))|]. simpl. intros; lia.
Qed.

Lemma number_from_length {A : Type} (l : list A) :
  forall n, length (number_from n l) = length l.
Proof.
  induction l as [|a l IH]; intros n; simpl; [reflexivity | now rewrite IH].
Qed.

Section DetectFiles.
Import Detect.
Context {contour : Type} (boundingRect : contour -> rect).
Variable out : pystr.

Local Abbreviation keep := (fun c : contour => keeps (boundingRect c)).

(** One page: the regions are numbered on from the count reached. *)
Lemma contours_fold_written (page_no : Z) (cs : list contour) :
  forall st,
    let st' := fold_left (contour_body boundingRect out page_no) cs st in
    let new := map (saved_as out)
                 (number_from (img_count st + 1)
                    (map (pair page_no)
                       (map boundingRect (List.filter keep cs)))) in
    written st' = written st ++ new
    /\ stdout st'
       = stdout st ++ map (fun sv => py "[GRAPH SAVED] " ++ out_path sv) new
    /\ img_count st' = img_count st + Z.of_nat (length new).
Proof.
  induction cs as [|c cs IH]; intros st; cbn [fold_left List.filter].
  - simpl. rewrite !app_nil_r. split_and!; [reflexivity | reflexivity | lia].
  - destruct (IH (contour_body boundingRect out page_no st c))
      as (Hw & Hs & Hn).
    cbv zeta in Hw, Hs, Hn |- *. rewrite Hw, Hs, Hn. clear Hw Hs Hn IH.
    rewrite contour_body_eq. destruct (keeps (boundingRect c)).
    + cbn [img_count written stdout map number_from length].
      rewrite <- !app_assoc. cbn [app].
      split_and!; [reflexivity | reflexivity | lia].
    + split_and!; reflexivity.
Qed.

Lemma page_body_written (st : state) (page_no : Z) (cs : list contour) :
  let st' := page_body boundingRect out st (page_no, cs) in
  let new := map (saved_as out)
               (number_from (img_count st + 1)
                  (map (pair page_no) (page_regions boundingRect cs))) in
  written st' = written st ++ new
  /\ stdout st'
     = stdout st ++ map (fun sv => py "[GRAPH SAVED] " ++ out_path sv) new
  /\ img_count st' = img_count st + Z.of_nat (length new).
Proof.
  cbv zeta. rewrite page_regions_eq. unfold page_body.
  apply (contours_fold_written page_no).
Qed.

Lemma pages_fold_written (doc : list (list contour)) :
  forall k st,
    let st' := fold_left (page_body boundingRect out)
                 (zip (map Z.of_nat (seq k (length doc))) doc) st in
    let new := map (saved_as out)
                 (number_from (img_count st + 1)
                    (tagged_regions boundingRect k doc)) in
    written st' = written st ++ new
    /\ stdout st'
       = stdout st ++ map (fun sv => py "[GRAPH SAVED] " ++ out_path sv) new
    /\ img_count st' = img_count st + Z.of_nat (length new).
Proof.
  induction doc as [|cs doc IH]; intros k st;
    cbn [length seq map zip_with fold_left tagged_regions].
  - simpl. rewrite !app_nil_r. split_and!; [reflexivity | reflexivity | lia].
  - destruct (IH (S k) (page_body boundingRect out st (Z.of_nat k, cs)))
      as (Hw & Hs & Hn).
    destruct (page_body_written st (Z.of_nat k) cs) as (Hw1 & Hs1 & Hn1).
    cbv zeta in Hw, Hs, Hn, Hw1, Hs1, Hn1 |- *.
    rewrite Hw, Hs, Hn, Hw1, Hs1, Hn1. clear Hw Hs Hn Hw1 Hs1 Hn1 IH.
    rewrite number_from_app, !map_app, !length_app, !length_map,
      !number_from_length, !length_map, <- !app_assoc.
    replace (img_count st + Z.of_nat (length (page_regions boundingRect cs))
             + 1)
      with (img_count st + 1
            + Z.of_nat (length (page_regions boundingRect cs))) by lia.
    split_and!; [reflexivity | reflexivity | lia].
Qed.

End DetectFiles.

Lemma extract_graphs_numbering_eq {contour : Type}
    (boundingRect : contour -> Detect.rect) (doc : list (list contour))
    (output_folder : pystr) :
  let st := snd (Detect.extract_graphs boundingRect doc output_folder) in
  let files :=
    map (saved_as output_folder)
      (number_from 1 (tagged_regions boundingRect 0 doc)) in
  Detect.written st = files
  /\ Detect.stdout st
     = [py "[INFO] PDF Loaded: " ++ str_of_int (Z.of_nat (length doc))
        ++ py " pages"]
       ++ map (fun sv => py "[GRAPH SAVED] " ++ Detect.out_path sv) files
       ++ [py "[DONE] Total Graphs Extracted: "
           ++ str_of_int (Z.of_nat (length files))]
  /\ fst (Detect.extract_graphs boundingRect doc output_folder)
     = Z.of_nat (length files).
Proof.
  cbv zeta. unfold Detect.extract_graphs.
  match goal with
  | |- context [fold_left _ _ ?st0] =>
      destruct (pages_fold_written boundingRect output_folder doc 0%nat st0)
        as (Hw & Hs & Hn)
  end.
  cbv zeta in Hw, Hs, Hn.
  cbn [snd fst Detect.written Detect.stdout Detect.img_count] in Hw, Hs, Hn |- *.
  rewrite Hw, Hs, Hn. cbn [app Z.add].
  split_and!; reflexivity.
Qed.

(** X7.  The files of [extract_graphs] are numbered 1, 2, ... in the order
    the regions are found, page after page: the count runs on from one page to
    the next, the name of a file carries the number of its page and its
    count, one [GRAPH SAVED] line is printed per file between the first and
    the last line, and the value returned is the number of files. *)
Theorem extract_graphs_numbering {contour : Type}
    (boundingRect : contour -> Detect.rect) (doc : list (list contour))
    (output_folder : pystr) :
  let st := snd (Detect.extract_graphs boundingRect doc output_folder) in
  let files :=
    map (saved_as output_folder)
      (number_from 1 (tagged_regions boundingRect 0 doc)) in
  Detect.written st = files
  /\ Detect.stdout st
     = [py "[INFO] PDF Loaded: " ++ str_of_int (Z.of_nat (length doc))
        ++ py " pages"]
       ++ map (fun sv => py "[GRAPH SAVED] " ++ Detect.out_path sv) files
       ++ [py "[DONE] Total Graphs Extracted: "
           ++ str_of_int (Z.of_nat (length files))]
  /\ fst (Detect.extract_graphs boundingRect doc output_folder)
     = Z.of_nat (length files).
Proof. apply extract_graphs_numbering_eq. Qed.

(** [os.path.join(a, b)] puts in front of a relative [b] a prefix that
    depends on [a] alone. *)
Lemma os_path_join_relative (a : pystr) :
  exists pre, forall c b, c <> 47%N -> os_path_join a (c :: b) = pre ++ c :: b.
Proof.
  assert (Hb : forall c b, c <> 47%N ->
            os_path_join a (c :: b)
            = match rev a with
              | [] => c :: b
              | d :: _ => if (d =? 47)%N then a ++ c :: b
                          else a ++ py "/" ++ c :: b
              end).
  { intros c b Hc. unfold os_path_join.
    destruct c as [|p]; [|do 7 (try destruct p as [p|p|]);
                          try contradiction].
    all: destruct (rev a) as [|d r]; try reflexivity.
    all: destruct d as [|q]; try reflexivity.
    all: do 7 (try destruct q as [q|q|]); reflexivity. }
  destruct (rev a) as [|d r] eqn:Hrev.
  - exists []. intros c b Hc. now rewrite Hb.
  - destruct (d =? 47)%N eqn:Hd.
    + exists a. intros c b Hc. now rewrite Hb.
    + exists (a ++ py "/"). intros c b Hc. rewrite Hb by exact Hc.
      now rewrite <- app_assoc.
Qed.

Lemma not_digit_underscore : ~ is_digit 95%N.
Proof. unfold is_digit. lia. Qed.

Lemma not_digit_dot : ~ is_digit 46%N.
Proof. unfold is_digit. lia. Qed.

(** The path of a region tells its page and its count. *)
Lemma region_path_inj (out : pystr) (p1 n1 p2 n2 : Z) :
  0 <= p1 -> 0 <= n1 -> 0 <= p2 -> 0 <= n2 ->
  region_path out p1 n1 = region_path out p2 n2 -> p1 = p2 /\ n1 = n2.
Proof.
  intros Hp1 Hn1 Hp2 Hn2. unfold region_path.
  destruct (os_path_join_relative out) as [pre Hpre].
  assert (Hf : forall p n,
            py "graph_" ++ str_of_int (p + 1) ++ py "_" ++ str_of_int n
            ++ py ".png"
            = 103%N :: [114; 97; 112; 104; 95]%N ++ str_of_int (p + 1)
              ++ 95%N :: str_of_int n ++ 46%N :: [112; 110; 103]%N)
    by (intros; reflexivity).
  rewrite !Hf, !Hpre by discriminate.
  intros Heq. apply app_inv_head in Heq. injection Heq as Heq.
  destruct (str_of_int_digits (p1 + 1)) as (D1 & _); [lia|].
  destruct (str_of_int_digits (p2 + 1)) as (D2 & _); [lia|].
  destruct (str_of_int_digits n1 Hn1) as (E1 & _).
  destruct (str_of_int_digits n2 Hn2) as (E2 & _).
  destruct (digits_split _ _ _ _ _ _ D1 D2 not_digit_underscore
              not_digit_underscore Heq) as (Hp & _ & Hrest).
  destruct (digits_split _ _ _ _ _ _ E1 E2 not_digit_dot not_digit_dot Hrest)
    as (Hn & _ & _).
  apply str_of_int_inj in Hp, Hn. split; lia.
Qed.

Lemma number_from_in {A : Type} (l : list A) (n m : Z) (a : A) :
  In (m, a) (number_from n l) -> In a l.
Proof.
  revert n. induction l as [|b l IH]; intros n Hin; [destruct Hin|].
  destruct Hin as [Hin|Hin].
  - injection Hin as _ <-. now left.
  - right. exact (IH _ Hin).
Qed.

(** X8.  No two regions of a run are written to the same file: the paths of
    the files of [extract_graphs] are pairwise different. *)
Theorem extract_graphs_paths_distinct {contour : Type}
    (boundingRect : contour -> Detect.rect) (doc : list (list contour))
    (output_folder : pystr) :
  List.NoDup
    (map Detect.out_path
       (Detect.written
          (snd (Detect.extract_graphs boundingRect doc output_folder)))).
Proof.
  destruct (extract_graphs_numbering_eq boundingRect doc output_folder)
    as [-> _].
  assert (Htags : forall doc' k,
            Forall (fun e => 0 <= fst e)
              (tagged_regions boundingRect k doc')).
  { induction doc' as [|cs doc' IH]; intros k; simpl; [constructor|].
    apply Forall_app. split; [|apply IH].
    apply List.Forall_forall. intros e He. apply List.in_map_iff in He.
    destruct He as (r & <- & _). simpl. lia. }
  generalize (Htags doc 0%nat). generalize (tagged_regions boundingRect 0 doc).
  assert (Hgen : forall (l : list (Z * Detect.rect)) n,
            1 <= n -> Forall (fun e => 0 <= fst e) l ->
            List.NoDup
              (map Detect.out_path
                 (map (saved_as output_folder) (number_from n l)))).
  { induction l as [|[p r] l IH]; intros n Hn Hl; simpl; [constructor|].
    apply Forall_cons in Hl. destruct Hl as [Hp Hl]. simpl in Hp.
    constructor; [|apply IH; [lia | exact Hl]].
    intros Hin. rewrite List.map_map in Hin. apply List.in_map_iff in Hin.
    destruct Hin as ([m [q r']] & Heq & Hin). simpl in Heq.
    pose proof (number_from_ge (A := Z * Detect.rect) l (n + 1)) as Hge.
    rewrite List.Forall_forall in Hge. specialize (Hge _ Hin). simpl in Hge.
    assert (Hq : 0 <= q).
    { rewrite List.Forall_forall in Hl.
      apply (Hl _ (number_from_in _ _ _ _ Hin)). }
    apply region_path_inj in Heq; lia. }
  intros l Hl. apply Hgen; [lia | exact Hl].
Qed.

(** ** [strip] *)

Lemma lstrip_idemp (s : pystr) : lstrip (lstrip s) = lstrip s.
Proof.
  induction s as [|c s IH]; [reflexivity|]. simpl.
  destruct (isspace c) eqn:Hc; [exact IH|]. simpl. now rewrite Hc.
Qed.

(** [lstrip] cuts a run of white space off the front. *)
Lemma lstrip_suffix (s : pystr) :
  exists blanks, s = blanks ++ lstrip s
                 /\ Forall (fun c => isspace c = true) blanks.
Proof.
  induction s as [|c s (blanks & Hs & Hb)]; [exists []; split; [reflexivity|constructor]|].
  simpl. destruct (isspace c) eqn:Hc.
  - exists (c :: blanks). split; [simpl; f_equal; exact Hs | now constructor].
  - exists []. split; [reflexivity | constructor].
Qed.

Lemma lstrip_fixed (c : N) (s : pystr) :
  isspace c = false -> lstrip (c :: s) = c :: s.
Proof. intros Hc. simpl. now rewrite Hc. Qed.

(** What [strip] returns has no white space at either end. *)
Lemma strip_trimmed (s : pystr) :
  lstrip (strip s) = strip s /\ lstrip (rev (strip s)) = rev (strip s).
Proof.
  unfold strip, rstrip. set (y := lstrip s).
  assert (Hy : lstrip y = y) by apply lstrip_idemp.
  split.
  - destruct (lstrip_suffix (rev y)) as (blanks & Hrev & Hb).
    set (L := lstrip (rev y)) in *.
    assert (Hyy : y = rev L ++ rev blanks)
      by (rewrite <- (rev_involutive y), Hrev, rev_app_distr; reflexivity).
    destruct (rev L) as [|c r] eqn:HL; [reflexivity|].
    apply lstrip_fixed.
    rewrite Hyy in Hy. simpl in Hy.
    destruct (isspace c) eqn:Hc; [|reflexivity].
    exfalso. apply (f_equal (@length N)) in Hy.
    destruct (lstrip_suffix (r ++ rev blanks)) as (b' & Hb' & _).
    apply (f_equal (@length N)) in Hb'. rewrite !length_app in Hb'.
    cbn [length] in Hy. rewrite !length_app in Hy. lia.
  - rewrite rev_involutive. apply lstrip_idemp.
Qed.

Lemma strip_fixed (s : pystr) :
  lstrip s = s -> lstrip (rev s) = rev s -> strip s = s.
Proof.
  intros H1 H2. unfold strip, rstrip. rewrite H1, H2. apply rev_involutive.
Qed.

Lemma strip_idemp (s : pystr) : strip (strip s) = strip s.
Proof. destruct (strip_trimmed s). now apply strip_fixed. Qed.

Lemma digit_not_space (c : N) : is_digit c -> isspace c = false.
Proof.
  unfold is_digit, isspace. intros [H1 H2].
  repeat first
    [ rewrite (proj2 (N.leb_gt _ _)) by lia
    | rewrite (proj2 (N.eqb_neq _ _)) by lia
    | rewrite (proj2 (N.leb_le _ _)) by lia ].
  reflexivity.
Qed.

(** The fall-back caption [Graph n] is its own [strip]. *)
Lemma strip_graph (n : Z) :
  0 <= n -> strip (py "Graph " ++ str_of_int n) = py "Graph " ++ str_of_int n.
Proof.
  intros Hn. destruct (str_of_int_digits n Hn) as (Hd & Hne & _).
  apply strip_fixed; [reflexivity|].
  rewrite rev_app_distr.
  destruct (rev (str_of_int n)) as [|c r] eqn:Hrev.
  - apply (f_equal (@rev N)) in Hrev. rewrite rev_involutive in Hrev.
    contradiction.
  - apply lstrip_fixed. apply digit_not_space.
    rewrite List.Forall_forall in Hd. apply Hd.
    apply in_rev. rewrite Hrev. now left.
Qed.

(** ** The records, files and messages of [extract_graphs_to_single_file] *)

Section ExtractRecords.
Import Extract.
Context {font : Type} (F : fonts font) (isalnum : N -> bool).
Variables (output_dir : pystr) (font_size : Z).

Local Abbreviation body := (item_body F isalnum output_dir font_size).

(** The three ways an item leaves the body of the loop when it returns:
    a record with its PNG and one line; a warning; nothing. *)
Lemma item_body_record (it : doc_item) (s s' : state) :
  body it s = (Ok tt, s') ->
  (has_image it = true
   /\ exists img new_img msg,
        image_of it = Some img
        /\ compose_caption F img (caption_of it (pic_index s + 1)) font_size
           = Ok new_img
        /\ pic_index s' = pic_index s + 1
        /\ extracted s'
           = extracted s
             ++ [{| index := pic_index s + 1;
                    caption := caption_of it (pic_index s + 1);
                    image_path :=
                      png_path isalnum output_dir (pic_index s + 1)
                        (caption_of it (pic_index s + 1));
                    page := match prov it with
                            | Some (p :: _) => Some p
                            | _ => None
                            end |}]
        /\ files s'
           = files s
             ++ [(png_path isalnum output_dir (pic_index s + 1)
                    (caption_of it (pic_index s + 1)), Png new_img)]
        /\ stdout s' = stdout s ++ [msg])
  \/ (is_picture it = true /\ has_image it = false
      /\ pic_index s' = pic_index s + 1
      /\ extracted s' = extracted s /\ files s' = files s
      /\ exists msg, stdout s' = stdout s ++ [msg])
  \/ (is_picture it = false /\ has_image it = false /\ s' = s).
Proof.
  unfold has_image. unfold item_body. fold (is_picture it).
  destruct (is_picture it) eqn:Hpic; cbn [andb].
  - unfold bind at 1. unfold incr_pic_index at 1. unfold modify at 1.
    unfold bind at 1. unfold get at 1. cbn [pic_index].
    set (s1 := {| extracted := extracted s; pic_index := pic_index s + 1;
                  stdout := stdout s; files := files s |}).
    unfold bind at 1.
    destruct (retrieve_ok it (pic_index s + 1) s1)
      as (s2 & Hret & Hex & Hpi & Hfi & Hout).
    rewrite Hret. destruct (image_of it) as [img|] eqn:Himg.
    + unfold bind, lift, write_file, print, append_extracted, modify.
      destruct (compose_caption F img (caption_of it (pic_index s + 1))
                  font_size) as [new_img|e] eqn:Hnew; [|discriminate].
      cbn. destruct (save_png new_img) as [[]|e]; [|discriminate].
      intros Hrun. injection Hrun as <-. left. split; [reflexivity|].
      exists img, new_img. eexists.
      split; [reflexivity|]. split; [exact Hnew|]. cbn.
      rewrite Hex, Hpi, Hfi, Hout. subst s1. cbn.
      split_and!; reflexivity.
    + unfold ret. intros Hrun. injection Hrun as <-. right. left.
      rewrite Hex, Hpi, Hfi. subst s1. cbn. destruct Hout as [msg Hmsg].
      split_and!; try reflexivity. eauto.
  - unfold ret. intros Hrun. injection Hrun as <-. right. right. auto.
Qed.


Lemma caption_of_trimmed (it : doc_item) (n : Z) :
  0 <= n ->
  caption_of it n <> [] /\ strip (caption_of it n) = caption_of it n.
Proof.
  intros Hn. unfold caption_of.
  assert (Hg : py "Graph " ++ str_of_int n <> []
               /\ strip (py "Graph " ++ str_of_int n)
                  = py "Graph " ++ str_of_int n)
    by (split; [discriminate | now apply strip_graph]).
  destruct (export_to_markdown it) as [md|e]; [|exact Hg].
  destruct (strip md) as [|c r] eqn:Hmd; [exact Hg|].
  split; [discriminate|]. rewrite <- Hmd. apply strip_idemp.
Qed.

(** The records the loop adds are those of the pictures that have an image,
    in their order, each under its rank. *)
Lemma items_loop_captions (items : list doc_item) :
  forall s s',
    for_each items body s = (Ok tt, s') ->
    exists new,
      extracted s' = extracted s ++ new
      /\ Forall2 (fun g nit => index g = fst nit
                                /\ caption g = caption_of (snd nit) (fst nit))
           new (ranked_images (pic_index s) items).
Proof.
  induction items as [|it items IH]; intros s s' Hrun.
  - injection Hrun as <-. exists []. rewrite app_nil_r. split; constructor.
  - cbn [for_each] in Hrun. unfold bind at 1 in Hrun.
    destruct (body it s) as [[[]|e] s1] eqn:Hbody; [|discriminate].
    destruct (IH s1 s' Hrun) as (new & Hex' & Hall).
    cbn [ranked_images].
    destruct (item_body_record it s s1 Hbody)
      as [(Himg & img & new_img & msg & Himg' & _ & Hpi & Hex & _)
         |[(Hpic & Himg & Hpi & Hex & _)
          |(Hpic & Himg & ->)]].
    + unfold has_image in Himg. apply andb_true_iff in Himg.
      destruct Himg as [Hpic _]. rewrite Hpic, Himg'.
      eexists (_ :: new). rewrite Hex', Hex, <- app_assoc.
      split; [reflexivity|]. rewrite Hpi in Hall.
      constructor; [|exact Hall]. split; reflexivity.
    + unfold has_image in Himg. rewrite Hpic in Himg. cbn [andb] in Himg.
      rewrite Hpic. destruct (image_of it); [discriminate|].
      exists new. rewrite Hex', Hex. rewrite Hpi in Hall. now split.
    + rewrite Hpic. exists new. now split.
Qed.

(** The loop of lines 52-135, when it runs to its end: the records it
    adds, the files it writes and the lines it prints. *)
Lemma items_loop_records (items : list doc_item) :
  forall s s',
    0 <= pic_index s ->
    for_each items body s = (Ok tt, s') ->
    exists new pngs,
      extracted s' = extracted s ++ new
      /\ files s' = files s ++ pngs
      /\ map fst pngs = map image_path new
      /\ Forall (fun pf => is_png pf = true) pngs
      /\ Forall (fun g => caption g <> [] /\ strip (caption g) = caption g
                          /\ image_path g
                             = png_path isalnum output_dir (index g) (caption g)
                          /\ 1 <= index g) new
      /\ length new = length (List.filter has_image items)
      /\ length (stdout s')
         = (length (stdout s) + length (List.filter is_picture items))%nat.
Proof.
  induction items as [|it items IH]; intros s s' Hpos Hrun.
  - injection Hrun as <-. exists [], []. rewrite !app_nil_r. simpl.
    split_and!; try reflexivity; try constructor. lia.
  - cbn [for_each] in Hrun. unfold bind at 1 in Hrun.
    destruct (body it s) as [[[]|e] s1] eqn:Hbody; [|discriminate].
    destruct (item_body_record it s s1 Hbody)
      as [(Himg & img & new_img & msg & _ & _ & Hpi & Hex & Hfi & Hout)
         |[(Hpic & Himg & Hpi & Hex & Hfi & msg & Hout)
          |(Hpic & Himg & ->)]].
    + destruct (IH s1 s' ltac:(lia) Hrun)
        as (new & pngs & Hex' & Hfi' & Hpaths & Hpng & Hrec & Hlen & Hlines).
      assert (Hpic : is_picture it = true)
        by (unfold has_image in Himg; now apply andb_true_iff in Himg).
      destruct (caption_of_trimmed it (pic_index s + 1) ltac:(lia))
        as [Hne Hstrip].
      eexists (_ :: new), (_ :: pngs).
      rewrite Hex', Hfi', Hex, Hfi, Hlines, Hout, <- !app_assoc.
      cbn [List.filter]. rewrite Himg, Hpic. cbn [app length map fst].
      rewrite Hpaths, Hlen, length_app. cbn [length image_path].
      split_and!; try reflexivity.
      * constructor; [reflexivity | exact Hpng].
      * constructor; [|exact Hrec]. cbn [caption image_path index].
        split_and!; [exact Hne | exact Hstrip | reflexivity | lia].
      * lia.
    + destruct (IH s1 s' ltac:(lia) Hrun)
        as (new & pngs & Hex' & Hfi' & Hpaths & Hpng & Hrec & Hlen & Hlines).
      exists new, pngs.
      rewrite Hex', Hfi', Hex, Hfi, Hlines, Hout.
      cbn [List.filter]. rewrite Himg, Hpic. rewrite length_app.
      cbn [length]. split_and!; try assumption; try reflexivity. lia.
    + destruct (IH s s' Hpos Hrun)
        as (new & pngs & Hex' & Hfi' & Hpaths & Hpng & Hrec & Hlen & Hlines).
      exists new, pngs. cbn [List.filter]. rewrite Himg, Hpic.
      split_and!; assumption.
Qed.

(** The function, when it returns: the end of the loop, then the JSON file
    and one line, or the line that tells nothing was found. *)
Lemma extract_run_shape (items : list doc_item) (ex : list graph_info)
    (s' : state) :
  extract_graphs_to_single_file F isalnum items output_dir font_size init
  = (Ok ex, s') ->
  exists s1,
    for_each items body init = (Ok tt, s1)
    /\ ex = extracted s1
    /\ match ex with
       | [] => files s' = files s1
               /\ stdout s' = stdout s1 ++ [py "No graphs found in the PDF."]
       | _ => files s'
              = files s1
                ++ [(os_path_join output_dir (py "graphs_only.json"), Json ex)]
              /\ exists msg, stdout s' = stdout s1 ++ [msg]
       end.
Proof.
  unfold extract_graphs_to_single_file. unfold bind at 1.
  destruct (for_each items body init) as [[[]|e] s1] eqn:Hloop; [|discriminate].
  unfold bind at 1. unfold get at 1.
  destruct (extracted s1) as [|g gs] eqn:Hext.
  - cbn. intros Hrun. injection Hrun as <- <-. exists s1. cbn.
    rewrite Hext. auto.
  - cbn. intros Hrun. injection Hrun as <- <-. exists s1. cbn.
    rewrite Hext. split_and!; try reflexivity. eauto.
Qed.

End ExtractRecords.

(** [{n:03d}] for a number that is not negative: zeros, then [str(n)]. *)
Lemma format_03d_nonneg (n : Z) :
  0 <= n ->
  format_03d n
  = repeat 48%N (3 - length (str_of_int n)) ++ str_of_int n.
Proof.
  intros Hn. unfold format_03d.
  rewrite Z.abs_eq by exact Hn.
  destruct (n <? 0) eqn:Hlt; [apply Z.ltb_lt in Hlt; lia|].
  reflexivity.
Qed.

Lemma format_03d_digits (n : Z) :
  0 <= n ->
  Forall is_digit (format_03d n)
  /\ exists c d, format_03d n = c :: d /\ c <> 47%N.
Proof.
  intros Hn. rewrite format_03d_nonneg by exact Hn.
  destruct (str_of_int_digits n Hn) as (Hd & Hne & _).
  assert (Hz : is_digit 48%N) by (unfold is_digit; lia).
  assert (Hall : Forall is_digit
                   (repeat 48%N (3 - length (str_of_int n)) ++ str_of_int n)).
  { apply Forall_app. split; [|exact Hd].
    induction (3 - length (str_of_int n))%nat; simpl; constructor; assumption. }
  split; [exact Hall|].
  destruct (repeat 48%N (3 - length (str_of_int n)) ++ str_of_int n)
    as [|c d] eqn:Heq.
  - apply app_eq_nil in Heq. destruct Heq as [_ Heq]. contradiction.
  - exists c, d. split; [reflexivity|].
    apply Forall_cons in Hall. destruct Hall as [Hc _].
    unfold is_digit in Hc. lia.
Qed.

Lemma zeros_head_inj (k k' : nat) (c c' : N) (d d' : pystr) :
  c <> 48%N -> c' <> 48%N ->
  repeat 48%N k ++ c :: d = repeat 48%N k' ++ c' :: d' ->
  c :: d = c' :: d'.
Proof.
  intros Hc Hc'. revert k'.
  induction k as [|k IH]; intros [|k']; simpl; intros Heq.
  - exact Heq.
  - injection Heq as -> _. contradiction.
  - injection Heq as <- _. contradiction.
  - injection Heq as Heq. exact (IH _ Heq).
Qed.

(** Two positive numbers with the same three-digit form are equal. *)
Lemma format_03d_inj (n n' : Z) :
  1 <= n -> 1 <= n' -> format_03d n = format_03d n' -> n = n'.
Proof.
  intros Hn Hn'. rewrite !format_03d_nonneg by lia.
  destruct (str_of_int_digits n) as (_ & _ & H); [lia|].
  destruct (str_of_int_digits n') as (_ & _ & H'); [lia|].
  destruct H as (c & d & E & Hc); [lia|].
  destruct H' as (c' & d' & E' & Hc'); [lia|].
  rewrite E, E'.
  intros Heq. apply zeros_head_inj in Heq; [|assumption..].
  apply str_of_int_inj. now rewrite E, E'.
Qed.

(** The path of a PNG file tells the index of its record. *)
Lemma png_path_inj (isalnum : N -> bool) (out : pystr) (n n' : Z)
    (c c' : pystr) :
  1 <= n -> 1 <= n' ->
  png_path isalnum out n c = png_path isalnum out n' c' -> n = n'.
Proof.
  intros Hn Hn'. unfold png_path.
  destruct (os_path_join_relative out) as [pre Hpre].
  destruct (format_03d_digits n) as (D & a & r & Ha & Hne); [lia|].
  destruct (format_03d_digits n') as (D' & a' & r' & Ha' & Hne'); [lia|].
  change (py "_") with [95%N].
  intros Heq.
  assert (Heq' : pre ++ format_03d n ++ 95%N
                   :: take 50 (Extract.safe_caption isalnum c) ++ py ".png"
                 = pre ++ format_03d n' ++ 95%N
                   :: take 50 (Extract.safe_caption isalnum c') ++ py ".png").
  { rewrite Ha, Ha' in Heq |- *. cbn [app] in Heq |- *.
    rewrite !Hpre in Heq by assumption. exact Heq. }
  apply app_inv_head in Heq'.
  destruct (digits_split _ _ _ _ _ _ D D' not_digit_underscore
              not_digit_underscore Heq') as (Hf & _ & _).
  now apply format_03d_inj.
Qed.

Section ExtractRun.
Import Extract.
Context {font : Type} (F : fonts font) (isalnum : N -> bool).
Variables (output_dir : pystr) (font_size : Z) (items : list doc_item).

Local Abbreviation run :=
  (extract_graphs_to_single_file F isalnum items output_dir font_size init).

Lemma extract_run_records (ex : list graph_info) (s' : state) :
  run = (Ok ex, s') ->
  exists pngs,
    files s'
    = pngs ++ match ex with
              | [] => []
              | _ => [(os_path_join output_dir (py "graphs_only.json"), Json ex)]
              end
    /\ map fst pngs = map image_path ex
    /\ Forall (fun pf => is_png pf = true) pngs
    /\ Forall (fun g => caption g <> [] /\ strip (caption g) = caption g
                        /\ image_path g
                           = png_path isalnum output_dir (index g) (caption g)
                        /\ 1 <= index g) ex
    /\ length ex = length (List.filter has_image items)
    /\ length (stdout s') = S (length (List.filter is_picture items))
    /\ (ex = [] -> last (stdout s') = Some (py "No graphs found in the PDF.")).
Proof.
  intros Hrun.
  destruct (extract_run_shape F isalnum output_dir font_size items ex s' Hrun)
    as (s1 & Hloop & Hex & Hend).
  destruct (items_loop_records F isalnum output_dir font_size items init s1
              ltac:(cbn; lia) Hloop)
    as (new & pngs & Hnew & Hfi & Hpaths & Hpng & Hrec & Hlen & Hlines).
  cbn in Hnew, Hfi, Hlines. rewrite Hnew in Hex. subst new.
  exists pngs. rewrite Hfi in Hend.
  destruct ex as [|g ex].
  - destruct Hend as [Hf Ho]. rewrite Hf, Ho, app_nil_r, length_app, Hlines.
    cbn [length]. split_and!; try assumption; try reflexivity; try lia.
    intros _. apply last_snoc.
  - destruct Hend as [Hf (msg & Ho)]. rewrite Hf, Ho, length_app, Hlines.
    cbn [length]. split_and!; try assumption; try reflexivity; try lia.
    discriminate.
Qed.

End ExtractRun.

(** The sample document is extracted to the end. *)
Lemma sample_items_run :
  exists ex s',
    Extract.extract_graphs_to_single_file Sample.block_font Sample.ascii_alnum
      sample_items (py "graphs_only") 24 Extract.init = (Ok ex, s').
Proof.
  apply extract_total. unfold sample_items. sample_accepted.
Qed.

(** X9.  The records [extract_graphs_to_single_file] returns are those of
    the picture items that have an image, in the order of the document, each
    under its rank among all picture items.  The caption of a record is the
    Markdown of its item stripped of the white space at its ends, or
    [Graph <index>] when that is empty or the export raises; so it is never
    empty and has no white space at either end. *)
Theorem extract_captions_trimmed {font : Type} (F : fonts font)
    (isalnum : N -> bool) (items : list Extract.doc_item)
    (output_dir : pystr) (font_size : Z) (ex : list Extract.graph_info)
    (s' : Extract.state) :
  Extract.extract_graphs_to_single_file F isalnum items output_dir font_size
    Extract.init = (Ok ex, s') ->
  Forall2
    (fun g nit =>
       Extract.index g = fst nit
       /\ Extract.caption g <> []
       /\ strip (Extract.caption g) = Extract.caption g
       /\ match Extract.export_to_markdown (snd nit) with
          | Ok md =>
              (strip md <> [] -> Extract.caption g = strip md)
              /\ (strip md = [] ->
                  Extract.caption g = py "Graph " ++ str_of_int (fst nit))
          | Raise _ =>
              Extract.caption g = py "Graph " ++ str_of_int (fst nit)
          end)
    ex (ranked_images 0 items).
Proof.
  intros Hrun.
  destruct (extract_run_records F isalnum output_dir font_size items ex s' Hrun)
    as (pngs & _ & _ & _ & Hrec & _).
  destruct (extract_run_shape F isalnum output_dir font_size items ex s' Hrun)
    as (s1 & Hloop & Hex & _).
  destruct (items_loop_captions F isalnum output_dir font_size items _ _ Hloop)
    as (new & Hnew & Hall).
  cbn in Hnew, Hall. rewrite Hnew in Hex. subst new.
  clear -Hall Hrec. revert Hrec.
  induction Hall as [|g [n it] ex' l (Hidx & Hcap) _ IH];
    intros Hrec; [constructor|].
  apply Forall_cons in Hrec. destruct Hrec as [(Hne & Hstrip & _) Hrec].
  constructor; [|exact (IH Hrec)].
  cbn [fst snd] in Hidx, Hcap |- *.
  split_and!; [exact Hidx | exact Hne | exact Hstrip |].
  rewrite Hcap. unfold Extract.caption_of.
  destruct (Extract.export_to_markdown it) as [md|e]; [|reflexivity].
  destruct (strip md) as [|c r]; split; intros H; congruence.
Qed.

(** Instance of [extract_captions_trimmed]: the sample document; the first
    picture keeps its stripped Markdown, the third, whose export raises, is
    called after its rank. *)
Lemma extract_captions_trimmed_witness :
  exists ex s',
    Extract.extract_graphs_to_single_file Sample.block_font Sample.ascii_alnum
      sample_items (py "graphs_only") 24 Extract.init = (Ok ex, s')
    /\ map (fun g => (Extract.index g, Extract.caption g)) ex
       = [(1, py "Revenue by quarter"); (3, py "Graph 3")].
Proof.
  destruct sample_items_run as (ex & s' & Hrun).
  exists ex, s'. split; [exact Hrun|].
  pose proof (extract_captions_trimmed _ _ _ _ _ _ _ Hrun) as H.
  change (ranked_images 0 sample_items)
    with [(1, Sample.picture_ok); (3, Sample.picture_untitled)] in H.
  apply Forall2_cons_inv_r in H.
  destruct H as (g1 & ex1 & (Hi1 & _ & _ & Hc1) & H & ->).
  apply Forall2_cons_inv_r in H.
  destruct H as (g2 & ex2 & (Hi2 & _ & _ & Hc2) & H & ->).
  apply Forall2_nil_inv_r in H. subst ex2.
  cbn [fst snd Sample.picture_ok Sample.picture_untitled
       Extract.export_to_markdown] in Hi1, Hc1, Hi2, Hc2.
  destruct Hc1 as [Hc1 _].
  cbn [map]. rewrite Hi1, Hi2, Hc2, Hc1 by (vm_compute; discriminate).
  vm_compute. reflexivity.
Defined.

(** X10.  The files [extract_graphs_to_single_file] writes are its records:
    one PNG file for each record returned, in the order of the records, at the
    record's [image_path], which is [<dir>/<index:03d>_<caption>.png] with the
    caption cleaned and cut at 50 characters; then [graphs_only.json] with
    the records, when there is one, and no other file. *)
Theorem extract_files_match_records {font : Type} (F : fonts font)
    (isalnum : N -> bool) (items : list Extract.doc_item)
    (output_dir : pystr) (font_size : Z) (ex : list Extract.graph_info)
    (s' : Extract.state) :
  Extract.extract_graphs_to_single_file F isalnum items output_dir font_size
    Extract.init = (Ok ex, s') ->
  exists pngs,
    Extract.files s'
    = pngs ++ match ex with
              | [] => []
              | _ => [(os_path_join output_dir (py "graphs_only.json"),
                       Extract.Json ex)]
              end
    /\ map fst pngs = map Extract.image_path ex
    /\ Forall (fun pf => is_png pf = true) pngs
    /\ Forall (fun g => Extract.image_path g
                        = png_path isalnum output_dir (Extract.index g)
                            (Extract.caption g)) ex.
Proof.
  intros Hrun.
  destruct (extract_run_records F isalnum output_dir font_size items ex s' Hrun)
    as (pngs & Hfi & Hpaths & Hpng & Hrec & _).
  exists pngs. split_and!; try assumption.
  eapply Forall_impl; [exact Hrec|]. cbn. now intros g (_ & _ & H & _).
Qed.

(** Instance of [extract_files_match_records]: the sample document. *)
Lemma extract_files_match_records_witness :
  exists ex s' pngs,
    Extract.extract_graphs_to_single_file Sample.block_font Sample.ascii_alnum
      sample_items (py "graphs_only") 24 Extract.init = (Ok ex, s')
    /\ Extract.files s'
       = pngs ++ match ex with
                 | [] => []
                 | _ => [(os_path_join (py "graphs_only")
                            (py "graphs_only.json"), Extract.Json ex)]
                 end
    /\ map fst pngs = map Extract.image_path ex.
Proof.
  destruct sample_items_run as (ex & s' & Hrun).
  destruct (extract_files_match_records _ _ _ _ _ _ _ Hrun)
    as (pngs & Hfi & Hpaths & _).
  exists ex, s', pngs. split_and!; assumption.
Defined.

Lemma StronglySorted_lt_NoDup (l : list Z) :
  StronglySorted Z.lt l -> List.NoDup l.
Proof.
  induction 1 as [|a l _ IH Hall]; constructor; [|exact IH].
  intros Hin. rewrite List.Forall_forall in Hall.
  specialize (Hall a Hin). lia.
Qed.

Lemma paths_distinct (isalnum : N -> bool) (out : pystr)
    (l : list Extract.graph_info) :
  Forall (fun g => Extract.image_path g
                   = png_path isalnum out (Extract.index g) (Extract.caption g)
                   /\ 1 <= Extract.index g) l ->
  List.NoDup (map Extract.index l) ->
  List.NoDup (map Extract.image_path l).
Proof.
  induction l as [|g l IH]; intros Hall Hnd; [constructor|].
  apply Forall_cons in Hall. destruct Hall as [[Hg Hg1] Hall].
  cbn [map] in Hnd |- *. apply List.NoDup_cons_iff in Hnd.
  destruct Hnd as [Hnotin Hnd].
  constructor; [|now apply IH].
  intros Hin. apply Hnotin.
  apply List.in_map_iff in Hin. destruct Hin as (g' & Hpath & Hin').
  apply List.in_map_iff. exists g'. split; [|exact Hin'].
  rewrite List.Forall_forall in Hall. destruct (Hall g' Hin') as [Hg' Hg1'].
  rewrite Hg, Hg' in Hpath. now apply png_path_inj in Hpath.
Qed.

(** X11.  No two records of a run share their PNG file: the paths
    [image_path] of the records returned are pairwise different, whatever the
    captions are, so no composite overwrites another. *)
Theorem extract_paths_distinct {font : Type} (F : fonts font)
    (isalnum : N -> bool) (items : list Extract.doc_item)
    (output_dir : pystr) (font_size : Z) (ex : list Extract.graph_info)
    (s' : Extract.state) :
  Extract.extract_graphs_to_single_file F isalnum items output_dir font_size
    Extract.init = (Ok ex, s') ->
  List.NoDup (map Extract.image_path ex).
Proof.
  intros Hrun.
  destruct (extract_run_records F isalnum output_dir font_size items ex s' Hrun)
    as (pngs & _ & _ & _ & Hrec & _).
  destruct (extract_returns F isalnum output_dir font_size items ex s' Hrun)
    as (_ & Hidx & _).
  apply (paths_distinct isalnum output_dir).
  - eapply Forall_impl; [exact Hrec|]. cbn. now intros g (_ & _ & H & H1).
  - rewrite Hidx. apply StronglySorted_lt_NoDup.
    apply (picture_ranks_bounds items 0).
Qed.

(** Instance of [extract_paths_distinct]: the sample document. *)
Lemma extract_paths_distinct_witness :
  exists ex s',
    Extract.extract_graphs_to_single_file Sample.block_font Sample.ascii_alnum
      sample_items (py "graphs_only") 24 Extract.init = (Ok ex, s')
    /\ List.NoDup (map Extract.image_path ex).
Proof.
  destruct sample_items_run as (ex & s' & Hrun).
  exists ex, s'. split; [exact Hrun|].
  exact (extract_paths_distinct _ _ _ _ _ _ _ Hrun).
Defined.

(** X12.  [extract_graphs_to_single_file] returns one record for each picture
    item that has an image, and calls [print] once for each picture item, be
    it saved or skipped with a warning, and once more at its end. *)
Theorem extract_counts {font : Type} (F : fonts font)
    (isalnum : N -> bool) (items : list Extract.doc_item)
    (output_dir : pystr) (font_size : Z) (ex : list Extract.graph_info)
    (s' : Extract.state) :
  Extract.extract_graphs_to_single_file F isalnum items output_dir font_size
    Extract.init = (Ok ex, s') ->
  length ex = length (List.filter has_image items)
  /\ length (Extract.stdout s')
     = S (length (List.filter Extract.is_picture items)).
Proof.
  intros Hrun.
  destruct (extract_run_records F isalnum output_dir font_size items ex s' Hrun)
    as (pngs & _ & _ & _ & _ & Hlen & Hlines & _).
  now split.
Qed.

(** Instance of [extract_counts]: the sample document, two records and
    four calls of [print]. *)
Lemma extract_counts_witness :
  exists ex s',
    Extract.extract_graphs_to_single_file Sample.block_font Sample.ascii_alnum
      sample_items (py "graphs_only") 24 Extract.init = (Ok ex, s')
    /\ length ex = 2%nat /\ length (Extract.stdout s') = 4%nat.
Proof.
  destruct sample_items_run as (ex & s' & Hrun).
  exists ex, s'. split; [exact Hrun|].
  exact (extract_counts _ _ _ _ _ _ _ Hrun).
Defined.

Section ExtractNoImage.
Import Extract.
Context {font : Type} (F : fonts font) (isalnum : N -> bool).
Variables (output_dir : pystr) (font_size : Z).

Lemma items_loop_no_image (items : list doc_item) :
  Forall (fun it => has_image it = false) items ->
  forall s, exists s',
    for_each items (item_body F isalnum output_dir font_size) s = (Ok tt, s').
Proof.
  induction 1 as [|it items Hit _ IH]; intros s; [now exists s|].
  cbn [for_each]. unfold bind at 1.
  destruct (item_body_cases F isalnum output_dir font_size it s)
    as (r & s1 & Hbody & Hr).
  rewrite Hbody. destruct r as [[]|e]; [apply IH|].
  destruct Hr as (Hpic & img & Himg & _).
  unfold has_image in Hit. rewrite Hpic, Himg in Hit. discriminate.
Qed.

End ExtractNoImage.

(** X13.  A document none of whose picture items gives an image, be it that
    it has no picture at all: [extract_graphs_to_single_file] returns the
    empty list, whatever the font size, writes no file, not the JSON file
    either, and its last line is [No graphs found in the PDF.]. *)
Theorem extract_nothing_found {font : Type} (F : fonts font)
    (isalnum : N -> bool) (items : list Extract.doc_item)
    (output_dir : pystr) (font_size : Z) :
  Forall (fun it => has_image it = false) items ->
  exists s',
    Extract.extract_graphs_to_single_file F isalnum items output_dir font_size
      Extract.init = (Ok [], s')
    /\ Extract.files s' = []
    /\ last (Extract.stdout s') = Some (py "No graphs found in the PDF.").
Proof.
  intros Hno.
  destruct (items_loop_no_image F isalnum output_dir font_size items Hno
              Extract.init) as [s1 Hloop].
  assert (Hrun : exists ex s',
             Extract.extract_graphs_to_single_file F isalnum items output_dir
               font_size Extract.init = (Ok ex, s')).
  { unfold Extract.extract_graphs_to_single_file. unfold bind at 1.
    rewrite Hloop. unfold bind at 1. unfold get at 1.
    destruct (Extract.extracted s1); cbn; eauto. }
  destruct Hrun as (ex & s' & Hrun).
  destruct (extract_run_records F isalnum output_dir font_size items ex s' Hrun)
    as (pngs & Hfi & Hpaths & _ & _ & Hlen & _ & Hlast).
  assert (Hex : ex = []).
  { apply length_zero_iff_nil. rewrite Hlen.
    clear -Hno. induction Hno as [|it items Hit _ IH]; [reflexivity|].
    cbn [List.filter]. now rewrite Hit. }
  subst ex. exists s'. split; [exact Hrun|].
  destruct pngs; [|discriminate Hpaths].
  split; [exact Hfi | now apply Hlast].
Qed.

(** Instance of [extract_nothing_found]: a paragraph and a picture whose
    image cannot be had. *)
Lemma extract_nothing_found_witness :
  Forall (fun it => has_image it = false)
    [Sample.paragraph; Sample.picture_broken]
  /\ exists s',
       Extract.extract_graphs_to_single_file Sample.block_font
         Sample.ascii_alnum [Sample.paragraph; Sample.picture_broken]
         (py "graphs_only") 24 Extract.init = (Ok [], s')
       /\ Extract.files s' = [].
Proof.
  assert (H : Forall (fun it => has_image it = false)
                [Sample.paragraph; Sample.picture_broken])
    by (repeat constructor).
  split; [exact H|].
  destruct (extract_nothing_found Sample.block_font Sample.ascii_alnum
              [Sample.paragraph; Sample.picture_broken] (py "graphs_only") 24 H)
    as (s' & Hrun & Hfi & _).
  exists s'. split; assumption.
Defined.


(** ** The text and image extractor *)

(** [enumerate(l, 1)] as the extractor builds it. *)
Lemma enumerate_number_from {A : Type} (l : list A) (k : nat) :
  zip (map (fun i => Z.of_nat i + 1) (seq k (length l))) l
  = number_from (Z.of_nat k + 1) l.
Proof.
  revert k. induction l as [|a l IH]; intros k; [reflexivity|].
  cbn [length seq map zip zip_with number_from]. f_equal.
  rewrite (IH (S k)). f_equal. lia.
Qed.

Section ExtractTextFacts.
Import ExtractText.
Context {font : Type} (F : fonts font).
Variables (pdf_path : pystr) (font_size : Z).

Local Abbreviation pbody := (picture_body F pdf_path font_size).

(** The ways a picture leaves the body of the loop. *)
Lemma picture_body_cases (i : Z) (pic : picture) (s : state) :
  match image_at pic with
  | None =>
      exists msg,
        pbody (i, pic) s
        = (Ok tt, {| images_data := images_data s;
                     stdout := stdout s ++ [msg]; files := files s |})
  | Some img =>
      match compose_caption F img (caption_at i pic) font_size with
      | Ok new_img =>
          match save_png new_img with
          | Ok _ =>
              exists msg,
                pbody (i, pic) s
                = (Ok tt,
                   {| images_data :=
                        images_data s
                        ++ [{| index := i; caption := caption_at i pic;
                               image_b64 := new_img;
                               page := head (prov pic) |}];
                      stdout := stdout s ++ [msg]; files := files s |})
          | Raise e => exists s', pbody (i, pic) s = (Raise e, s')
          end
      | Raise e => exists s', pbody (i, pic) s = (Raise e, s')
      end
  end.
Proof.
  unfold picture_body, image_at, caption_at, try_except, bind, lift, ret,
    print, append_image, modify.
  destruct (get_image pic) as [[img|]|e]; cbn.
  - destruct (compose_caption F img _ font_size) as [new_img|e]; cbn.
    + destruct (save_png new_img) as [[]|e]; eexists; reflexivity.
    + eexists. reflexivity.
  - eexists. reflexivity.
  - eexists. reflexivity.
Qed.

(** The record of a picture that has an image. *)
Local Abbreviation summary :=
  (fun d : image_data => (index d, caption d, page d)).
Local Abbreviation expected :=
  (fun ipic : Z * picture =>
     (fst ipic, caption_at (fst ipic) (snd ipic), head (prov (snd ipic)))).

Lemma pictures_loop_records (ipics : list (Z * picture)) :
  forall s s',
    for_each ipics pbody s = (Ok tt, s') ->
    exists new,
      images_data s' = images_data s ++ new
      /\ map summary new = map expected (List.filter gives_image ipics)
      /\ files s' = files s
      /\ length (stdout s') = (length (stdout s) + length ipics)%nat.
Proof.
  induction ipics as [|[i pic] ipics IH]; intros s s' Hrun.
  - injection Hrun as <-. exists []. rewrite app_nil_r.
    split_and!; try reflexivity. cbn. lia.
  - cbn [for_each] in Hrun. unfold bind at 1 in Hrun.
    pose proof (picture_body_cases i pic s) as Hc.
    cbn [List.filter]. unfold gives_image at 1. cbn [snd].
    destruct (image_at pic) as [img|].
    + destruct (compose_caption F img (caption_at i pic) font_size)
        as [new_img|e];
        [destruct (save_png new_img) as [[]|e]|].
      * destruct Hc as [msg Hc]. rewrite Hc in Hrun.
        destruct (IH _ s' Hrun) as (new & Hnew & Hsum & Hfi & Hout).
        cbn [images_data stdout files] in Hnew, Hfi, Hout.
        eexists (_ :: new). rewrite Hnew, <- app_assoc, Hfi, Hout, length_app.
        cbn [map fst snd index caption page length app]. rewrite Hsum.
        split_and!; try reflexivity. lia.
      * destruct Hc as [s1 Hc]. rewrite Hc in Hrun. discriminate.
      * destruct Hc as [s1 Hc]. rewrite Hc in Hrun. discriminate.
    + destruct Hc as [msg Hc]. rewrite Hc in Hrun.
      destruct (IH _ s' Hrun) as (new & Hnew & Hsum & Hfi & Hout).
      cbn [images_data stdout files] in Hnew, Hfi, Hout.
      exists new. rewrite Hout, length_app. cbn [length].
      split_and!; try assumption. lia.
Qed.

Lemma pictures_loop_total (ipics : list (Z * picture)) :
  Forall (fun ipic => picture_accepted font_size (snd ipic)) ipics ->
  forall s, exists s', for_each ipics pbody s = (Ok tt, s').
Proof.
  induction 1 as [|[i pic] ipics Hacc _ IH]; intros s; [now exists s|].
  cbn [for_each]. unfold bind at 1.
  pose proof (picture_body_cases i pic s) as Hc.
  unfold picture_accepted in Hacc. cbn [snd] in Hacc.
  destruct (image_at pic) as [img|].
  - destruct (Hacc img eq_refl) as [Hw Hh].
    destruct (compose_caption_made F img (caption_at i pic) font_size
                ltac:(lia) ltac:(lia)) as [new_img Hnew].
    destruct (compose_caption_ok F img _ font_size new_img Hnew)
      as (Hw' & Hh' & _).
    rewrite Hnew, save_png_ok in Hc by lia.
    destruct Hc as [msg ->]. apply IH.
  - destruct Hc as [msg ->]. apply IH.
Qed.


Variables (to_markdown : result pystr) (pictures : option (list picture))
  (base_name output_dir : pystr).

Local Abbreviation trun :=
  (extract_text_and_images_to_file F to_markdown pictures pdf_path base_name
     output_dir font_size init).
Local Abbreviation out_file :=
  (os_path_join output_dir (base_name ++ py "_extracted_data.json")).
Local Abbreviation full_text :=
  (match to_markdown with Ok t => t | Raise _ => [] end).

(** The function after its loop: the JSON file, then the closing lines. *)
Lemma extract_text_shape :
  (exists s0 e,
     for_each (number_from 1 (pictures_of pictures)) pbody s0 = (Raise e, snd trun)
     /\ fst trun = Raise e)
  \/ exists s0 s1 tail,
       files s0 = [] /\ images_data s0 = []
       /\ for_each (number_from 1 (pictures_of pictures)) pbody s0 = (Ok tt, s1)
       /\ let data := {| source_pdf := pdf_path; text := full_text;
                         images := images_data s1 |} in
          fst trun = Ok data
          /\ files (snd trun) = files s1 ++ [(out_file, data)]
          /\ stdout (snd trun) = stdout s1 ++ tail
          /\ (images_data s1 = []
              -> In (py "No images found in " ++ pdf_path ++ py ".") tail)
          /\ (strip full_text = []
              -> In (py "No text extracted from " ++ pdf_path ++ py ".") tail).
Proof.
  assert (Hpics : match pictures with
                  | Some pics =>
                      zip (map (fun k => Z.of_nat k + 1) (seq 0 (length pics)))
                        pics
                  | None => []
                  end = number_from 1 (pictures_of pictures)).
  { destruct pictures as [pics|]; [|reflexivity].
    exact (enumerate_number_from pics 0). }
  remember trun as r eqn:Hr.
  unfold extract_text_and_images_to_file in Hr. rewrite Hpics in Hr.
  assert (Hstart : exists s0,
            files s0 = [] /\ images_data s0 = []
            /\ forall B (k : pystr -> M state B),
                 bind (match to_markdown with
                       | Ok t => ret t
                       | Raise e =>
                           bind (print (py "Warning: Could not extract Markdown text from "
                                        ++ pdf_path ++ py ": " ++ e))
                             (fun _ => ret [])
                       end) k init = k full_text s0).
  { destruct to_markdown as [t|e]; eexists; split_and!;
      try (intros B k; reflexivity); reflexivity. }
  destruct Hstart as (s0 & Hf0 & Hi0 & Hstart). rewrite Hstart in Hr.
  unfold bind at 1 in Hr.
  destruct (for_each (number_from 1 (pictures_of pictures)) pbody s0)
    as [[[]|e] s1] eqn:Hloop.
  - right. exists s0, s1.
    unfold bind, get, json_dump, print, modify, ret in Hr.
    destruct (images_data s1) eqn:Himgs; destruct (strip full_text) eqn:Htxt;
      cbn in Hr; subst r; cbn; eexists;
      (split_and!; [assumption | assumption | exact Hloop
                   | reflexivity | reflexivity
                   | rewrite <- ?app_assoc; reflexivity
                   | intros Hx | intros Hy]);
      try discriminate; cbn; auto.
  - left. exists s0, e. subst r. cbn. split; [exact Hloop | reflexivity].
Qed.

End ExtractTextFacts.

(** X14.  What [extract_text_and_images_to_file] returns is what it wrote:
    one JSON file, [<output_dir>/<stem>_extracted_data.json], holding the
    value returned; its text is the Markdown of the document, or the empty
    string when the export raised; its images are the pictures of the
    document that gave an image, in their order, each with its position
    counted from 1 among all pictures, the caption of the picture or
    [Graph <position>] when asking for it raised, and the first page of its
    provenance. *)
Theorem extract_text_returns_written {font : Type} (F : fonts font)
    (to_markdown : result pystr)
    (pictures : option (list ExtractText.picture))
    (pdf_path base_name output_dir : pystr) (font_size : Z)
    (data : ExtractText.extracted_data) (s' : ExtractText.state) :
  ExtractText.extract_text_and_images_to_file F to_markdown pictures pdf_path
    base_name output_dir font_size ExtractText.init = (Ok data, s') ->
  ExtractText.files s'
  = [(os_path_join output_dir (base_name ++ py "_extracted_data.json"), data)]
  /\ ExtractText.source_pdf data = pdf_path
  /\ ExtractText.text data
     = match to_markdown with Ok t => t | Raise _ => [] end
  /\ map (fun d => (ExtractText.index d, ExtractText.caption d,
                    ExtractText.page d)) (ExtractText.images data)
     = map (fun ipic => (fst ipic, caption_at (fst ipic) (snd ipic),
                         head (ExtractText.prov (snd ipic))))
         (List.filter gives_image (number_from 1 (pictures_of pictures))).
Proof.
  intros Hrun.
  destruct (extract_text_shape F pdf_path font_size to_markdown pictures
              base_name output_dir)
    as [(s0 & e & _ & Hr)|(s0 & s1 & tail & Hf0 & Hi0 & Hloop & Hend)].
  - rewrite Hrun in Hr. discriminate.
  - cbv zeta in Hend. destruct Hend as (Hr & Hfi & _).
    rewrite Hrun in Hr, Hfi. cbn [fst snd] in Hr, Hfi.
    injection Hr as ->.
    destruct (pictures_loop_records F pdf_path font_size _ s0 s1 Hloop)
      as (new & Hnew & Hsum & Hfi1 & _).
    rewrite Hi0 in Hnew. cbn [app] in Hnew.
    rewrite Hfi1, Hf0 in Hfi. cbn [app] in Hfi.
    cbn [ExtractText.source_pdf ExtractText.text ExtractText.images].
    subst new. split_and!; try reflexivity; assumption.
Qed.

(** The function returns when the images of the pictures and their composites
    have pixels. *)
Lemma extract_text_total {font : Type} (F : fonts font)
    (to_markdown : result pystr)
    (pictures : option (list ExtractText.picture))
    (pdf_path base_name output_dir : pystr) (font_size : Z) :
  Forall (picture_accepted font_size) (pictures_of pictures) ->
  exists data s',
    ExtractText.extract_text_and_images_to_file F to_markdown pictures pdf_path
      base_name output_dir font_size ExtractText.init = (Ok data, s')
    /\ (ExtractText.images data = []
        -> In (py "No images found in " ++ pdf_path ++ py ".")
             (ExtractText.stdout s'))
    /\ (strip (ExtractText.text data) = []
        -> In (py "No text extracted from " ++ pdf_path ++ py ".")
             (ExtractText.stdout s')).
Proof.
  intros Hacc.
  assert (Hacc' : Forall (fun ipic => picture_accepted font_size (snd ipic))
                    (number_from 1 (pictures_of pictures))).
  { generalize 1. induction Hacc as [|pic pics Hp _ IH]; intros n;
      constructor; [exact Hp | apply IH]. }
  destruct (extract_text_shape F pdf_path font_size to_markdown pictures
              base_name output_dir)
    as [(s0 & e & Hloop & _)|(s0 & s1 & tail & _ & _ & _ & Hend)].
  - destruct (pictures_loop_total F pdf_path font_size _ Hacc' s0) as [s1 Hs1].
    rewrite Hs1 in Hloop. discriminate.
  - cbv zeta in Hend. destruct Hend as (Hr & _ & Hout & Hnoimg & Hnotxt).
    destruct (ExtractText.extract_text_and_images_to_file F to_markdown
                pictures pdf_path base_name output_dir font_size
                ExtractText.init) as [r s'].
    cbn [fst snd] in Hr, Hout. subst r. eexists _, s'.
    split; [reflexivity|].
    cbn [ExtractText.images ExtractText.text]. rewrite Hout.
    split; intros H; apply in_or_app; right; auto.
Qed.

(** Instance of [extract_text_returns_written]: the sample pictures; the
    second gives no image, the third has an empty caption, which is kept. *)
Lemma extract_text_returns_written_witness :
  exists data s',
    ExtractText.extract_text_and_images_to_file Sample.block_font
      (Raise (py "no text")) (Some Sample.pictures) (py "in/sample1.pdf")
      (py "sample1") (py "in") 24 ExtractText.init = (Ok data, s')
    /\ ExtractText.files s' = [(py "in/sample1_extracted_data.json", data)]
    /\ ExtractText.text data = []
    /\ map (fun d => (ExtractText.index d, ExtractText.caption d,
                      ExtractText.page d)) (ExtractText.images data)
       = [(1, py "Net profit by year", Some 2); (3, [], None)].
Proof.
  destruct (extract_text_total Sample.block_font (Raise (py "no text"))
              (Some Sample.pictures) (py "in/sample1.pdf") (py "sample1")
              (py "in") 24) as (data & s' & Hrun & _).
  { repeat (apply List.Forall_cons;
            [intros img Himg; vm_compute in Himg;
             first [discriminate | injection Himg as <-; simpl; lia]|]).
    apply List.Forall_nil. }
  destruct (extract_text_returns_written _ _ _ _ _ _ _ _ _ Hrun)
    as (Hfi & _ & Htxt & Himgs).
  exists data, s'. split_and!; [exact Hrun | exact Hfi | exact Htxt | exact Himgs].
Defined.




(** ** The image indexer: records, backup and count *)

Section IndexLookup.
Import Index.
Context {img : Type} (E : env img).


(** Every record there is after the upserts was there before or is the
    record of a path of the list. *)
Lemma fold_upsert_origin (paths : list pystr) :
  forall m u o,
    fold_left (upsert E) paths m !! u = Some o ->
    m !! u = Some o
    \/ exists p, In p paths /\ u = generate_uuid5 E p
                 /\ object_of E p = Some o.
Proof.
  induction paths as [|q paths IH]; intros m u o Hlook; cbn [fold_left] in Hlook.
  - now left.
  - destruct (IH _ _ _ Hlook) as [Hm|(p & Hin & Hu & Hobj)].
    + unfold upsert in Hm. destruct (object_of E q) as [oq|] eqn:Hq;
        [|now left].
      destruct (decide (generate_uuid5 E q = u)) as [<-|Hne].
      * rewrite lookup_insert_eq in Hm. injection Hm as ->.
        right. exists q. split_and!; [now left | reflexivity | exact Hq].
      * rewrite lookup_insert_ne in Hm by exact Hne. now left.
    + right. exists p. split_and!; [now right | exact Hu | exact Hobj].
Qed.









End IndexLookup.



(** X17.  The indexer starts clean: after a run, whatever the server held
    before, every record of the collection is the record of an image file
    of the folder, stored under the uuid of its path, and the other
    collections of the server are as they were. *)
Theorem index_clean_start {img : Type} (E : Index.env img)
    (folder : list pystr) (w0 : world) :
  exists c,
    server (Index.w (snd (Index.run E folder w0))) !! Index.CLASS_NAME = Some c
    /\ (forall u o,
          objects c !! u = Some o ->
          exists p, In p folder
                    /\ Index.suffix_lower E p ∈ Index.IMAGE_SUFFIXES
                    /\ u = Index.generate_uuid5 E p
                    /\ Index.object_of E p = Some o)
    /\ (forall k, k <> Index.CLASS_NAME ->
                  server (Index.w (snd (Index.run E folder w0))) !! k
                  = server w0 !! k).
Proof.
  destruct (run_server E folder w0) as (_ & Hs & _).
  eexists. split; [rewrite Hs; apply lookup_insert_eq|].
  split.
  - intros u o Hlook. cbn [objects] in Hlook.
    destruct (fold_upsert_origin E _ _ _ _ Hlook)
      as [Hm|(p & Hin & Hu & Hobj)].
    + rewrite lookup_empty in Hm. discriminate.
    + apply List.filter_In in Hin. destruct Hin as [Hin Hsuf].
      apply bool_decide_eq_true in Hsuf.
      exists p. split_and!; assumption.
  - intros k Hk. rewrite Hs. now apply lookup_insert_ne.
Qed.



